(** * conkit.h: a shallow embedding of the console kit and its properties

    The header keeps all of its state in globals: the screen buffer
    [CK_SCREEN_BUFFER] with its capacity [CK_SCREEN_BUFFER_SIZE] and its
    fill counter [CK_SCREEN_BUFFER_END], the scratch buffer
    [CK_SEQUENCE_BUFFER] shared by the escape-sequence generators, the two
    [termios] settings of the Unix backend and the function-local static
    [knownSize] of [ck_current_console_size].  Here the globals are the
    fields of one record [ck_state], next to the part of the process the
    code acts on: the heap, the terminal attributes, standard input (what
    waits in the kernel and what the stream [stdin] has buffered) and the
    output stream.  Every C function is a computation in a small state
    monad whose outcomes also cover [exit], undefined behaviour, a read
    that waits for ever and a loop that runs out of budget.

    [size_t] is 64 bits wide; its arithmetic wraps and the wrap is written
    out with [size_t].  The Unix backend is embedded whole.  Of the Windows
    backend, [ck_current_console_size] is in [Win32] and [ck_init] and
    [ck_end] with the console mode are in [Windows]; its [getch] and
    [kbhit] come from <conio.h>. *)

From Stdlib Require Import ZArith Ascii String Lia.
From stdpp Require Import base list.

Local Open Scope Z_scope.

(* ================================================================= *)
(** ** C scalars, characters and strings *)

Definition SIZE_MAX : Z := 2 ^ 64 - 1.

(** Conversion to [size_t]: reduction modulo [2^64]. *)
Definition size_t (x : Z) : Z := x mod 2 ^ 64.

(** Conversion to [unsigned char], as done when a call passes an [int] to a
    parameter of that type. *)
Definition uchar (x : Z) : Z := x mod 256.

Definition NUL : ascii := "000"%char.
Definition ESC : ascii := "027"%char.

(** Text is a list of [char]s; [str] turns a literal into one. *)
Definition str (s : string) : list ascii := list_ascii_of_string s.

(** The C string that starts at the head of [cells]: everything before the
    first NUL.  For a function argument the list is the text handed over,
    its terminator implied at the end. *)
Fixpoint cstr (cells : list ascii) : list ascii :=
  match cells with
  | [] => []
  | c :: rest => if Ascii.eqb c NUL then [] else c :: cstr rest
  end.

Definition strlen (cells : list ascii) : Z := Z.of_nat (length (cstr cells)).

(** Does a memory block hold a terminator at all? *)
Definition terminated (cells : list ascii) : bool :=
  existsb (fun c => Ascii.eqb c NUL) cells.

(* ================================================================= *)
(** ** The process state *)

(** A heap block is live with its cells, or has been given back. *)
Inductive block : Type :=
| Live (cells : list ascii)
| Dead.

(** Pointers are block indices (the code only holds base pointers);
    [None] is [NULL]. *)
Definition ptr : Type := option nat.
Definition NULL : ptr := None.

Record ck_console_size : Type := mk_console_size {
  width : Z;
  height : Z;
  has_changed : bool
}.

Record termios : Type := mk_termios {
  c_iflag : Z;
  c_oflag : Z;
  c_cflag : Z;
  c_lflag : Z;
  c_cc : list Z
}.

(** What the program does with its terminal and standard input, in order. *)
Inductive tty_event : Type :=
| EvSetAttr (t : termios)      (* tcsetattr(0, TCSANOW, &t) *)
| EvGetChar (c : Z)            (* getchar() gave c *)
| EvPoll (revents : Z).        (* poll(fd_buff, 1, 0) filled revents *)

Record ck_state : Type := mk_state {
  (* globals of the header *)
  CK_SCREEN_BUFFER_SIZE : Z;
  CK_SCREEN_BUFFER_END : Z;
  CK_SCREEN_BUFFER : ptr;
  CK_SEQUENCE_BUFFER : ptr;
  CK_ALLOC_BUFFER : ptr;
  CK_CONSOLE_SETTS : termios;
  CK_CONSOLE_ORIG_SETTS : termios;
  knownSize : ck_console_size;   (* static local of ck_current_console_size *)
  (* the surroundings *)
  heap : list block;
  tty : termios;                 (* attributes of the terminal on fd 0 *)
  stdin : list ascii;            (* typed, waiting in the kernel for a read on fd 0 *)
  stdout : list ascii;
  stderr : list string;          (* messages given to perror *)
  tty_log : list tty_event;
  (* standard input as stdio and the kernel have it *)
  stdin_buffer : list ascii;     (* read from fd 0 into the buffer of [stdin],
                                    not yet handed out by [getchar] *)
  stdin_bufsiz : nat;            (* how much one read asks for: the size of
                                    that buffer *)
  stdin_eof : bool;              (* the end-of-file indicator of [stdin] *)
  stdin_end : option Z;          (* [None]: a read on fd 0 that finds nothing
                                    waits.  [Some revents]: fd 0 is at its end
                                    (end of file, a terminal hung up): such a
                                    read returns at once with nothing, and
                                    [poll] reports [revents] there *)
  tty_cflag_fixed : Z            (* the bits of [c_cflag] the device does not
                                    let a program change *)
}.

Definition set_SIZE (v : Z) (s : ck_state) : ck_state :=
  mk_state v (CK_SCREEN_BUFFER_END s) (CK_SCREEN_BUFFER s) (CK_SEQUENCE_BUFFER s)
    (CK_ALLOC_BUFFER s) (CK_CONSOLE_SETTS s) (CK_CONSOLE_ORIG_SETTS s) (knownSize s)
    (heap s) (tty s) (stdin s) (stdout s) (stderr s) (tty_log s)
    (stdin_buffer s) (stdin_bufsiz s) (stdin_eof s) (stdin_end s) (tty_cflag_fixed s).

Definition set_END (v : Z) (s : ck_state) : ck_state :=
  mk_state (CK_SCREEN_BUFFER_SIZE s) v (CK_SCREEN_BUFFER s) (CK_SEQUENCE_BUFFER s)
    (CK_ALLOC_BUFFER s) (CK_CONSOLE_SETTS s) (CK_CONSOLE_ORIG_SETTS s) (knownSize s)
    (heap s) (tty s) (stdin s) (stdout s) (stderr s) (tty_log s)
    (stdin_buffer s) (stdin_bufsiz s) (stdin_eof s) (stdin_end s) (tty_cflag_fixed s).

Definition set_SCREEN (v : ptr) (s : ck_state) : ck_state :=
  mk_state (CK_SCREEN_BUFFER_SIZE s) (CK_SCREEN_BUFFER_END s) v (CK_SEQUENCE_BUFFER s)
    (CK_ALLOC_BUFFER s) (CK_CONSOLE_SETTS s) (CK_CONSOLE_ORIG_SETTS s) (knownSize s)
    (heap s) (tty s) (stdin s) (stdout s) (stderr s) (tty_log s)
    (stdin_buffer s) (stdin_bufsiz s) (stdin_eof s) (stdin_end s) (tty_cflag_fixed s).

Definition set_SEQUENCE (v : ptr) (s : ck_state) : ck_state :=
  mk_state (CK_SCREEN_BUFFER_SIZE s) (CK_SCREEN_BUFFER_END s) (CK_SCREEN_BUFFER s) v
    (CK_ALLOC_BUFFER s) (CK_CONSOLE_SETTS s) (CK_CONSOLE_ORIG_SETTS s) (knownSize s)
    (heap s) (tty s) (stdin s) (stdout s) (stderr s) (tty_log s)
    (stdin_buffer s) (stdin_bufsiz s) (stdin_eof s) (stdin_end s) (tty_cflag_fixed s).

Definition set_ALLOC (v : ptr) (s : ck_state) : ck_state :=
  mk_state (CK_SCREEN_BUFFER_SIZE s) (CK_SCREEN_BUFFER_END s) (CK_SCREEN_BUFFER s)
    (CK_SEQUENCE_BUFFER s) v (CK_CONSOLE_SETTS s) (CK_CONSOLE_ORIG_SETTS s) (knownSize s)
    (heap s) (tty s) (stdin s) (stdout s) (stderr s) (tty_log s)
    (stdin_buffer s) (stdin_bufsiz s) (stdin_eof s) (stdin_end s) (tty_cflag_fixed s).

Definition set_SETTS (v : termios) (s : ck_state) : ck_state :=
  mk_state (CK_SCREEN_BUFFER_SIZE s) (CK_SCREEN_BUFFER_END s) (CK_SCREEN_BUFFER s)
    (CK_SEQUENCE_BUFFER s) (CK_ALLOC_BUFFER s) v (CK_CONSOLE_ORIG_SETTS s) (knownSize s)
    (heap s) (tty s) (stdin s) (stdout s) (stderr s) (tty_log s)
    (stdin_buffer s) (stdin_bufsiz s) (stdin_eof s) (stdin_end s) (tty_cflag_fixed s).

Definition set_ORIG_SETTS (v : termios) (s : ck_state) : ck_state :=
  mk_state (CK_SCREEN_BUFFER_SIZE s) (CK_SCREEN_BUFFER_END s) (CK_SCREEN_BUFFER s)
    (CK_SEQUENCE_BUFFER s) (CK_ALLOC_BUFFER s) (CK_CONSOLE_SETTS s) v (knownSize s)
    (heap s) (tty s) (stdin s) (stdout s) (stderr s) (tty_log s)
    (stdin_buffer s) (stdin_bufsiz s) (stdin_eof s) (stdin_end s) (tty_cflag_fixed s).

Definition set_knownSize (v : ck_console_size) (s : ck_state) : ck_state :=
  mk_state (CK_SCREEN_BUFFER_SIZE s) (CK_SCREEN_BUFFER_END s) (CK_SCREEN_BUFFER s)
    (CK_SEQUENCE_BUFFER s) (CK_ALLOC_BUFFER s) (CK_CONSOLE_SETTS s)
    (CK_CONSOLE_ORIG_SETTS s) v
    (heap s) (tty s) (stdin s) (stdout s) (stderr s) (tty_log s)
    (stdin_buffer s) (stdin_bufsiz s) (stdin_eof s) (stdin_end s) (tty_cflag_fixed s).

Definition set_heap (v : list block) (s : ck_state) : ck_state :=
  mk_state (CK_SCREEN_BUFFER_SIZE s) (CK_SCREEN_BUFFER_END s) (CK_SCREEN_BUFFER s)
    (CK_SEQUENCE_BUFFER s) (CK_ALLOC_BUFFER s) (CK_CONSOLE_SETTS s)
    (CK_CONSOLE_ORIG_SETTS s) (knownSize s)
    v (tty s) (stdin s) (stdout s) (stderr s) (tty_log s)
    (stdin_buffer s) (stdin_bufsiz s) (stdin_eof s) (stdin_end s) (tty_cflag_fixed s).

Definition set_tty (v : termios) (s : ck_state) : ck_state :=
  mk_state (CK_SCREEN_BUFFER_SIZE s) (CK_SCREEN_BUFFER_END s) (CK_SCREEN_BUFFER s)
    (CK_SEQUENCE_BUFFER s) (CK_ALLOC_BUFFER s) (CK_CONSOLE_SETTS s)
    (CK_CONSOLE_ORIG_SETTS s) (knownSize s)
    (heap s) v (stdin s) (stdout s) (stderr s) (tty_log s)
    (stdin_buffer s) (stdin_bufsiz s) (stdin_eof s) (stdin_end s) (tty_cflag_fixed s).

Definition set_stdin (v : list ascii) (s : ck_state) : ck_state :=
  mk_state (CK_SCREEN_BUFFER_SIZE s) (CK_SCREEN_BUFFER_END s) (CK_SCREEN_BUFFER s)
    (CK_SEQUENCE_BUFFER s) (CK_ALLOC_BUFFER s) (CK_CONSOLE_SETTS s)
    (CK_CONSOLE_ORIG_SETTS s) (knownSize s)
    (heap s) (tty s) v (stdout s) (stderr s) (tty_log s)
    (stdin_buffer s) (stdin_bufsiz s) (stdin_eof s) (stdin_end s) (tty_cflag_fixed s).

Definition set_stdout (v : list ascii) (s : ck_state) : ck_state :=
  mk_state (CK_SCREEN_BUFFER_SIZE s) (CK_SCREEN_BUFFER_END s) (CK_SCREEN_BUFFER s)
    (CK_SEQUENCE_BUFFER s) (CK_ALLOC_BUFFER s) (CK_CONSOLE_SETTS s)
    (CK_CONSOLE_ORIG_SETTS s) (knownSize s)
    (heap s) (tty s) (stdin s) v (stderr s) (tty_log s)
    (stdin_buffer s) (stdin_bufsiz s) (stdin_eof s) (stdin_end s) (tty_cflag_fixed s).

Definition set_stderr (v : list string) (s : ck_state) : ck_state :=
  mk_state (CK_SCREEN_BUFFER_SIZE s) (CK_SCREEN_BUFFER_END s) (CK_SCREEN_BUFFER s)
    (CK_SEQUENCE_BUFFER s) (CK_ALLOC_BUFFER s) (CK_CONSOLE_SETTS s)
    (CK_CONSOLE_ORIG_SETTS s) (knownSize s)
    (heap s) (tty s) (stdin s) (stdout s) v (tty_log s)
    (stdin_buffer s) (stdin_bufsiz s) (stdin_eof s) (stdin_end s) (tty_cflag_fixed s).

Definition set_tty_log (v : list tty_event) (s : ck_state) : ck_state :=
  mk_state (CK_SCREEN_BUFFER_SIZE s) (CK_SCREEN_BUFFER_END s) (CK_SCREEN_BUFFER s)
    (CK_SEQUENCE_BUFFER s) (CK_ALLOC_BUFFER s) (CK_CONSOLE_SETTS s)
    (CK_CONSOLE_ORIG_SETTS s) (knownSize s)
    (heap s) (tty s) (stdin s) (stdout s) (stderr s) v
    (stdin_buffer s) (stdin_bufsiz s) (stdin_eof s) (stdin_end s) (tty_cflag_fixed s).

Definition set_stdin_buffer (v : list ascii) (s : ck_state) : ck_state :=
  mk_state (CK_SCREEN_BUFFER_SIZE s) (CK_SCREEN_BUFFER_END s) (CK_SCREEN_BUFFER s)
    (CK_SEQUENCE_BUFFER s) (CK_ALLOC_BUFFER s) (CK_CONSOLE_SETTS s)
    (CK_CONSOLE_ORIG_SETTS s) (knownSize s)
    (heap s) (tty s) (stdin s) (stdout s) (stderr s) (tty_log s)
    v (stdin_bufsiz s) (stdin_eof s) (stdin_end s) (tty_cflag_fixed s).

Definition set_stdin_eof (v : bool) (s : ck_state) : ck_state :=
  mk_state (CK_SCREEN_BUFFER_SIZE s) (CK_SCREEN_BUFFER_END s) (CK_SCREEN_BUFFER s)
    (CK_SEQUENCE_BUFFER s) (CK_ALLOC_BUFFER s) (CK_CONSOLE_SETTS s)
    (CK_CONSOLE_ORIG_SETTS s) (knownSize s)
    (heap s) (tty s) (stdin s) (stdout s) (stderr s) (tty_log s)
    (stdin_buffer s) (stdin_bufsiz s) v (stdin_end s) (tty_cflag_fixed s).

(* ================================================================= *)
(** ** Outcomes and the monad of C functions *)

Inductive outcome (A : Type) : Type :=
| Returns (a : A) (s : ck_state)     (* the call came back *)
| Exits (status : Z) (s : ck_state)  (* exit(status) ended the process *)
| Blocked (s : ck_state)             (* waiting for input that never comes *)
| OutOfFuel                          (* the loop budget ran out *)
| Undefined.                         (* undefined behaviour *)

Arguments Returns {A} a s.
Arguments Exits {A} status s.
Arguments Blocked {A} s.
Arguments OutOfFuel {A}.
Arguments Undefined {A}.

Definition M (A : Type) : Type := ck_state -> outcome A.

Definition ret {A} (a : A) : M A := fun s => Returns a s.

Definition bind {A B} (m : M A) (k : A -> M B) : M B :=
  fun s =>
    match m s with
    | Returns a s' => k a s'
    | Exits c s' => Exits c s'
    | Blocked s' => Blocked s'
    | OutOfFuel => OutOfFuel
    | Undefined => Undefined
    end.

Notation "x <- m ;; k" := (bind m (fun x => k))
  (at level 100, m at next level, right associativity).
Notation "m ;; k" := (bind m (fun _ => k))
  (at level 100, right associativity).

Definition gets {A} (f : ck_state -> A) : M A := fun s => Returns (f s) s.
Definition modify (f : ck_state -> ck_state) : M unit := fun s => Returns tt (f s).
Definition undefined {A} : M A := fun _ => Undefined.

Definition EXIT_FAILURE : Z := 1.

Definition exit {A} (status : Z) : M A := fun s => Exits status s.

Definition perror (msg : string) : M unit :=
  modify (fun s => set_stderr (stderr s ++ [msg]) s).

(* ================================================================= *)
(** ** The C library, as far as the header uses it *)

(** *** Heap *)

(** What the allocator answers.  [calloc] either fails or hands out a fresh
    zeroed block.  [realloc] either fails, leaving the old block alone, or
    succeeds, in place or by moving; cells beyond the old size are
    indeterminate and given by [junk]. *)
Inductive alloc_reply : Type := AllocFail | AllocOk.

Inductive realloc_reply : Type :=
| ReallocFail
| ReallocOk (moved : bool) (junk : nat -> ascii).

Definition load (p : ptr) : M (list ascii) :=
  fun s =>
    match p with
    | Some b =>
        match heap s !! b with
        | Some (Live cells) => Returns cells s
        | _ => Undefined
        end
    | None => Undefined
    end.

(** Overwrite the cells of a live block. *)
Definition store (p : ptr) (cells : list ascii) : M unit :=
  fun s =>
    match p with
    | Some b =>
        match heap s !! b with
        | Some (Live _) => Returns tt (set_heap (<[b := Live cells]> (heap s)) s)
        | _ => Undefined
        end
    | None => Undefined
    end.

Definition calloc (r : alloc_reply) (nmemb size : Z) : M ptr :=
  match r with
  | AllocFail => ret NULL
  | AllocOk =>
      fun s =>
        Returns (Some (length (heap s)))
          (set_heap (heap s ++ [Live (replicate (Z.to_nat (nmemb * size)) NUL)]) s)
  end.

Definition resized (cells : list ascii) (n : nat) (junk : nat -> ascii) : list ascii :=
  take n cells ++ map junk (seq (length cells) (n - length cells)).

Definition realloc (r : realloc_reply) (p : ptr) (n : Z) : M ptr :=
  match r with
  | ReallocFail => ret NULL
  | ReallocOk moved junk =>
      fun s =>
        match p with
        | None =>
            Returns (Some (length (heap s)))
              (set_heap (heap s ++ [Live (resized [] (Z.to_nat n) junk)]) s)
        | Some b =>
            match heap s !! b with
            | Some (Live cells) =>
                let cells' := resized cells (Z.to_nat n) junk in
                if moved
                then Returns (Some (length (heap s)))
                       (set_heap (<[b := Dead]> (heap s) ++ [Live cells']) s)
                else Returns (Some b) (set_heap (<[b := Live cells']> (heap s)) s)
            | _ => Undefined
            end
        end
  end.

(** [free(NULL)] does nothing; freeing a block twice is undefined. *)
Definition free (p : ptr) : M unit :=
  fun s =>
    match p with
    | None => Returns tt s
    | Some b =>
        match heap s !! b with
        | Some (Live _) => Returns tt (set_heap (<[b := Dead]> (heap s)) s)
        | _ => Undefined
        end
    end.

(** *** Strings in memory *)

Definition memset (p : ptr) (c : ascii) (n : Z) : M unit :=
  cells <- load p;;
  if (Z.to_nat n <=? length cells)%nat
  then store p (replicate (Z.to_nat n) c ++ drop (Z.to_nat n) cells)
  else undefined.

(** Read the C string a pointer points to; running off the block is
    undefined. *)
Definition load_cstring (p : ptr) : M (list ascii) :=
  cells <- load p;;
  if terminated cells then ret (cstr cells) else undefined.

(** Write [text] and a terminator into [cells] from index [k] on, if they fit. *)
Definition write_at (cells : list ascii) (k : nat) (text : list ascii) : option (list ascii) :=
  if (k + length text + 1 <=? length cells)%nat
  then Some (take k cells ++ text ++ [NUL] ++ drop (k + length text + 1) cells)
  else None.

Definition strcat (dst : ptr) (src : list ascii) : M unit :=
  cells <- load dst;;
  if terminated cells
  then match write_at cells (length (cstr cells)) (cstr src) with
       | Some cells' => store dst cells'
       | None => undefined
       end
  else undefined.

(** *** Formatted output *)

Definition digit (d : Z) : ascii := ascii_of_N (Z.to_N (48 + d)).

(** Decimal digits of a non-negative number, most significant first, at
    most [width] of them. *)
Fixpoint decimal (width : nat) (n : Z) (acc : list ascii) : list ascii :=
  match width with
  | O => acc
  | S w =>
      let acc' := digit (n mod 10) :: acc in
      if n / 10 =? 0 then acc' else decimal w (n / 10) acc'
  end.

(** The number a string of decimal digits denotes. *)
Definition number_of (digits : list ascii) : Z :=
  fold_left (fun acc c => 10 * acc + (Z.of_N (N_of_ascii c) - 48)) digits 0.

(** [%zu] of a [size_t]: never more than 20 digits. *)
Definition fmt_zu (n : Z) : list ascii := decimal 20 (size_t n) [].

(** [%d] of an [int] that came from an [unsigned char]: never more than 3
    digits. *)
Definition fmt_d_uchar (n : Z) : list ascii := decimal 3 (uchar n) [].

(** [%c] *)
Definition fmt_c (c : ascii) : list ascii := [c].

(** [sprintf(dst, ...)] once the directives are expanded to [text]: the
    text and a terminator go to the start of the block. *)
Definition sprintf (dst : ptr) (text : list ascii) : M Z :=
  cells <- load dst;;
  match write_at cells 0 text with
  | Some cells' => store dst cells';; ret (Z.of_nat (length text))
  | None => undefined
  end.

(** [printf] once the directives are expanded. *)
Definition printf (text : list ascii) : M unit :=
  modify (fun s => set_stdout (stdout s ++ text) s).

(** *** Terminal *)

(** Values of <termios.h>, <poll.h> and <stdio.h> on Linux. *)
Definition ECHO : Z := 8.
Definition ICANON : Z := 2.
Definition POLLIN : Z := 1.
Definition EOF : Z := -1.

(** Standard input is taken to be the terminal of the process, which runs
    in the foreground: [tcgetattr] and [tcsetattr] on it do not fail. *)
Definition tcgetattr : M termios := gets tty.

(** What the device makes of a request.  The bits of [c_cflag] it controls
    itself stay as they are (a pseudo-terminal keeps its character size and
    [CREAD] whatever it is asked); everything else is taken as asked. *)
Definition keep_bits (fixed old new : Z) : Z :=
  Z.lor (Z.land new (Z.lnot fixed)) (Z.land old fixed).

Definition installed (fixed : Z) (old new : termios) : termios :=
  mk_termios (c_iflag new) (c_oflag new)
    (keep_bits fixed (c_cflag old) (c_cflag new))
    (c_lflag new) (c_cc new).

Definition tcsetattr (t : termios) : M unit :=
  modify (fun s =>
    set_tty_log (tty_log s ++ [EvSetAttr t])
      (set_tty (installed (tty_cflag_fixed s) (tty s) t) s)).

(** [getchar()] reads [stdin], a buffered stream.  With the end-of-file
    indicator set it gives [EOF].  Otherwise it hands out the next byte of
    the buffer; when the buffer is empty it first fills it with one [read]
    on fd 0.  The header calls [getchar] right after it has asked for a
    terminal without line buffering, where a read returns as soon as
    something is there and takes whatever is pending, up to the size of the
    buffer, and not only the byte that is returned.  When nothing is
    pending the read waits, unless fd 0 is at its end: then [getchar] sets
    the indicator and gives [EOF].  [incoming] is what gets typed while the
    read waits; with nothing typed the call never comes back. *)
Definition getchar (incoming : list ascii) : M Z :=
  fun s =>
    let gives (v : Z) (s' : ck_state) :=
      Returns v (set_tty_log (tty_log s ++ [EvGetChar v]) s') in
    let fill (pending : list ascii) :=
      match pending with
      | [] => Blocked s
      | c :: rest =>
          let n := (Nat.max 1 (stdin_bufsiz s) - 1)%nat in
          gives (Z.of_N (N_of_ascii c))
            (set_stdin_buffer (take n rest) (set_stdin (drop n rest) s))
      end in
    if stdin_eof s then gives EOF s
    else
      match stdin_buffer s with
      | c :: rest => gives (Z.of_N (N_of_ascii c)) (set_stdin_buffer rest s)
      | [] =>
          match stdin s, stdin_end s with
          | _ :: _, _ => fill (stdin s)
          | [], Some _ => gives EOF (set_stdin_eof true s)
          | [], None => fill incoming
          end
      end.

(** [poll(fd_buff, 1, 0)] on fd 0: [revents] has [POLLIN] when input is
    pending in the kernel; what [stdin] holds in its buffer is not seen.
    At the end of fd 0 the device says what it reports.  Nothing is
    read. *)
Definition poll_stdin : M Z :=
  fun s =>
    let revents :=
      match stdin s, stdin_end s with
      | [], None => 0
      | [], Some at_end => at_end
      | _ :: _, None => POLLIN
      | _ :: _, Some at_end => Z.lor POLLIN at_end
      end in
    Returns revents (set_tty_log (tty_log s ++ [EvPoll revents]) s).

(** Conversion of an [int] to [char]. *)
Definition to_char (v : Z) : ascii := ascii_of_N (Z.to_N (v mod 256)).

(* ================================================================= *)
(** ** conkit.h *)

Definition CK_ALLOC_SIZE : Z := 100.

(** The size the header computes for the sequence buffer,
    [2 * (log10(pow(2, sizeof(size_t) * 8) - 1) + 1) + 21]: with
    [log10(2^64) = 19.26...] the [double] is [61.5...], which the
    conversion to [size_t] cuts to 61. *)
Definition CK_SEQUENCE_BUFFER_LEN : Z := 61.

Module Unix.

Record winsize : Type := mk_winsize { ws_row : Z; ws_col : Z }.

Definition getch (incoming : list ascii) : M ascii :=
  raw <- gets CK_CONSOLE_SETTS;;
  tcsetattr raw;;
  ret_ <- getchar incoming;;
  orig <- gets CK_CONSOLE_ORIG_SETTS;;
  tcsetattr orig;;
  ret (to_char ret_).

Definition kbhit : M bool :=
  raw <- gets CK_CONSOLE_SETTS;;
  tcsetattr raw;;
  revents <- poll_stdin;;
  orig <- gets CK_CONSOLE_ORIG_SETTS;;
  tcsetattr orig;;
  ret (negb (Z.land revents POLLIN =? 0)).

Definition ck_init (r_screen r_sequence : alloc_reply) : M unit :=
  orig <- tcgetattr;;
  modify (set_ORIG_SETTS orig);;
  modify (fun s => set_SETTS (CK_CONSOLE_ORIG_SETTS s) s);;
  modify (fun s =>
    let t := CK_CONSOLE_SETTS s in
    set_SETTS
      (mk_termios (c_iflag t) (c_oflag t) (c_cflag t)
         (Z.land (c_lflag t) (Z.land (Z.lnot ECHO) (Z.lnot ICANON)))
         (c_cc t)) s);;
  modify (set_SIZE CK_ALLOC_SIZE);;
  p <- calloc r_screen CK_ALLOC_SIZE 1;;
  modify (set_SCREEN p);;
  match p with
  | None =>
      perror "Error allocating memory for CK_SCREEN_BUFFER: ";;
      exit EXIT_FAILURE
  | Some _ =>
      modify (set_END 0);;
      memset p NUL CK_ALLOC_SIZE;;
      q <- calloc r_sequence CK_SEQUENCE_BUFFER_LEN 1;;
      modify (set_SEQUENCE q);;
      match q with
      | None =>
          perror "Error allocating memory for CK_SEQUENCE_BUFFER: ";;
          exit EXIT_FAILURE
      | Some _ => ret tt
      end
  end.

Definition ck_end : M unit :=
  p <- gets CK_SCREEN_BUFFER;;
  free p;;
  q <- gets CK_SEQUENCE_BUFFER;;
  free q.

(** [newDims] is what [ioctl(0, TIOCGWINSZ, &newDims)] filled in. *)
Definition ck_current_console_size (newDims : winsize) : M ck_console_size :=
  known <- gets knownSize;;
  let changed :=
    negb (ws_col newDims =? width known) || negb (ws_row newDims =? height known) in
  modify (set_knownSize (mk_console_size (width known) (height known) changed));;
  (if changed
   then modify (set_knownSize (mk_console_size (ws_col newDims) (ws_row newDims) changed))
   else ret tt);;
  gets knownSize.

End Unix.

Module Win32.

Record SMALL_RECT : Type := mk_rect { Left : Z; Top : Z; Right : Z; Bottom : Z }.

(** [srWindow] is the window rectangle that
    [GetConsoleScreenBufferInfo] filled in. *)
Definition ck_current_console_size (srWindow : SMALL_RECT) : M ck_console_size :=
  let newWidth := size_t (Right srWindow - Left srWindow + 1) in
  let newHeight := size_t (Bottom srWindow - Top srWindow + 1) in
  known <- gets knownSize;;
  let changed :=
    negb (newWidth =? width known) || negb (newHeight =? height known) in
  modify (set_knownSize (mk_console_size (width known) (height known) changed));;
  (if changed
   then modify (set_knownSize (mk_console_size newWidth newHeight changed))
   else ret tt);;
  gets knownSize.

End Win32.

(** *** Escape sequences from run-time arguments *)

(** The format ["\033[%d;2;%d;%d;%dm"] with its arguments filled in. *)
Definition rgb_format (where_ r g b : Z) : list ascii :=
  [ESC] ++ str "[" ++ fmt_d_uchar where_ ++ str ";2;" ++ fmt_d_uchar r ++ str ";"
    ++ fmt_d_uchar g ++ str ";" ++ fmt_d_uchar b ++ str "m".

Definition ck_rgb (where_ r g b : Z) : M ptr :=
  buf <- gets CK_SEQUENCE_BUFFER;;
  sprintf buf (rgb_format where_ r g b);;
  gets CK_SEQUENCE_BUFFER.

Definition ck_bg_rgb (r g b : Z) : M ptr := ck_rgb 48 r g b.
Definition ck_fg_rgb (r g b : Z) : M ptr := ck_rgb 38 r g b.

(** The format ["\033[%zu;%zuH"] applied to [y, x]. *)
Definition goto_format (x y : Z) : list ascii :=
  [ESC] ++ str "[" ++ fmt_zu y ++ str ";" ++ fmt_zu x ++ str "H".

Definition ck_cursor_goto (x y : Z) : M ptr :=
  buf <- gets CK_SEQUENCE_BUFFER;;
  sprintf buf (goto_format x y);;
  gets CK_SEQUENCE_BUFFER.

(** The format ["\033[%zu%c"] applied to [amount, where]. *)
Definition move_format (where_ : ascii) (amount : Z) : list ascii :=
  [ESC] ++ str "[" ++ fmt_zu amount ++ fmt_c where_.

Definition ck_cursor_move (where_ : ascii) (amount : Z) : M ptr :=
  buf <- gets CK_SEQUENCE_BUFFER;;
  sprintf buf (move_format where_ amount);;
  gets CK_SEQUENCE_BUFFER.

Definition ck_cursor_up (amount : Z) : M ptr := ck_cursor_move "A" amount.
Definition ck_cursor_down (amount : Z) : M ptr := ck_cursor_move "B" amount.
Definition ck_cursor_right (amount : Z) : M ptr := ck_cursor_move "C" amount.
Definition ck_cursor_left (amount : Z) : M ptr := ck_cursor_move "D" amount.

(** *** Escape sequences from literal arguments

    The macros paste the spelling of their arguments ([#r]) between
    string literals, so their arguments here are spellings. *)

Definition CK_CLEAR_CONSOLE : list ascii := [ESC] ++ str "[2J".
Definition CK_RESET_FORMATTING : list ascii := [ESC] ++ str "[0m".
Definition CK_SHOW_CURSOR : list ascii := [ESC] ++ str "[?25h".
Definition CK_HIDE_CURSOR : list ascii := [ESC] ++ str "[?25l".

Definition ck_bg_rgb_l (r g b : string) : list ascii :=
  [ESC] ++ str "[48;2;" ++ str r ++ str ";" ++ str g ++ str ";" ++ str b ++ str "m".
Definition ck_fg_rgb_l (r g b : string) : list ascii :=
  [ESC] ++ str "[38;2;" ++ str r ++ str ";" ++ str g ++ str ";" ++ str b ++ str "m".

Definition ck_cursor_goto_l (x y : string) : list ascii :=
  [ESC] ++ str "[" ++ str y ++ str ";" ++ str x ++ str "H".

Definition ck_cursor_up_l (amount : string) : list ascii :=
  [ESC] ++ str "[" ++ str amount ++ str "A".
Definition ck_cursor_down_l (amount : string) : list ascii :=
  [ESC] ++ str "[" ++ str amount ++ str "B".
Definition ck_cursor_right_l (amount : string) : list ascii :=
  [ESC] ++ str "[" ++ str amount ++ str "C".
Definition ck_cursor_left_l (amount : string) : list ascii :=
  [ESC] ++ str "[" ++ str amount ++ str "D".

(** *** The screen buffer *)

(** The [while] loop of [ck_print]; every turn costs one unit of [fuel]. *)
Fixpoint ck_print_grow (fuel : nat) (len : Z) : M unit :=
  match fuel with
  | O => fun _ => OutOfFuel
  | S fuel' =>
      end_ <- gets CK_SCREEN_BUFFER_END;;
      size <- gets CK_SCREEN_BUFFER_SIZE;;
      if size_t (size_t (end_ + len) + 1) >? size
      then modify (set_SIZE (size_t (size + CK_ALLOC_SIZE)));;
           ck_print_grow fuel' len
      else ret tt
  end.

Definition ck_print (fuel : nat) (r : realloc_reply) (buffer : list ascii) : M unit :=
  let len := size_t (strlen buffer + 1) in
  ck_print_grow fuel len;;
  modify (fun s => set_END (size_t (CK_SCREEN_BUFFER_END s + size_t (len + 1))) s);;
  old <- gets CK_SCREEN_BUFFER;;
  size <- gets CK_SCREEN_BUFFER_SIZE;;
  p <- realloc r old (size_t (size * 1));;
  modify (set_ALLOC p);;
  match p with
  | None =>
      perror "Error reallocating memory for CK_SCREEN_BUFFER: ";;
      screen <- gets CK_SCREEN_BUFFER;;
      free screen;;
      q <- gets CK_SEQUENCE_BUFFER;;
      free q;;
      exit EXIT_FAILURE
  | Some _ =>
      modify (set_SCREEN p);;
      screen <- gets CK_SCREEN_BUFFER;;
      strcat screen buffer
  end.

Definition ck_flip : M unit :=
  p <- gets CK_SCREEN_BUFFER;;
  text <- load_cstring p;;
  printf ([ESC] ++ str "[H" ++ text);;
  size <- gets CK_SCREEN_BUFFER_SIZE;;
  memset p NUL size;;
  modify (set_END 0).

(** *** A process at its start

    Globals are zero-initialised; [knownSize] has its initialiser
    [{0, 0, 0}].  The terminal attributes and the pending input are the
    surroundings' business. *)

Definition zero_termios : termios := mk_termios 0 0 0 0 [].

(** On a terminal with attributes [t] that keeps the [c_cflag] bits
    [fixed], with [pending] typed ahead, a buffer of [bufsiz] bytes for
    [stdin], and fd 0 open ([at_end = None]) or at its end. *)
Definition process_on (fixed : Z) (bufsiz : nat) (at_end : option Z)
    (t : termios) (pending : list ascii) : ck_state :=
  mk_state 0 0 NULL NULL NULL zero_termios zero_termios (mk_console_size 0 0 false)
    [] t pending [] [] [] [] bufsiz false at_end fixed.

(** The usual case: an open terminal that takes every attribute, and a
    buffer of 1024 bytes. *)
Definition process_start (t : termios) (pending : list ascii) : ck_state :=
  process_on 0 1024 None t pending.

(* ================================================================= *)
(** ** Reading the state *)

(** The cells behind a pointer, if it points to a live block. *)
Definition cells_at (s : ck_state) (p : ptr) : option (list ascii) :=
  match p with
  | Some b =>
      match heap s !! b with
      | Some (Live cells) => Some cells
      | _ => None
      end
  | None => None
  end.

(** What a reader of the C string behind a pointer sees. *)
Definition text_at (s : ck_state) (p : ptr) : option (list ascii) :=
  match cells_at s p with
  | Some cells => if terminated cells then Some (cstr cells) else None
  | None => None
  end.

(** The text queued in the screen buffer. *)
Definition screen_text (s : ck_state) : option (list ascii) :=
  text_at s (CK_SCREEN_BUFFER s).

(** Has the block behind a pointer been given back? *)
Definition released (s : ck_state) (p : ptr) : Prop :=
  match p with
  | Some b => heap s !! b = Some Dead
  | None => True
  end.

(** The settings [ck_init] derives from the original ones. *)
Definition raw_of (t : termios) : termios :=
  mk_termios (c_iflag t) (c_oflag t) (c_cflag t)
    (Z.land (c_lflag t) (Z.land (Z.lnot ECHO) (Z.lnot ICANON))) (c_cc t).

(** The state between [ck_init] and [ck_end]. *)
Record active (s : ck_state) : Prop := mk_active {
  act_screen :
    exists cells,
      cells_at s (CK_SCREEN_BUFFER s) = Some cells /\
      Z.of_nat (length cells) = CK_SCREEN_BUFFER_SIZE s /\
      terminated cells = true /\
      (strlen cells + 2 <= CK_SCREEN_BUFFER_END s \/
       (CK_SCREEN_BUFFER_END s = 0 /\ strlen cells = 0));
  act_sequence :
    exists cells,
      cells_at s (CK_SEQUENCE_BUFFER s) = Some cells /\
      Z.of_nat (length cells) = CK_SEQUENCE_BUFFER_LEN;
  act_apart : CK_SCREEN_BUFFER s <> CK_SEQUENCE_BUFFER s;
  act_END : 0 <= CK_SCREEN_BUFFER_END s <= CK_SCREEN_BUFFER_SIZE s;
  act_SIZE : CK_ALLOC_SIZE <= CK_SCREEN_BUFFER_SIZE s <= SIZE_MAX;
  act_tty : tty s = CK_CONSOLE_ORIG_SETTS s;
  act_raw : CK_CONSOLE_SETTS s = raw_of (CK_CONSOLE_ORIG_SETTS s)
}.

(** An append stays within bounds when the counter, the string, its two
    extra bytes and one more increment fit in a [size_t].  The counter never
    exceeds the size of the screen buffer, so this holds whenever that
    buffer and the string lie in one 64-bit address space next to a few
    hundred bytes of anything else. *)
Definition in_bounds (s : ck_state) (buffer : list ascii) : Prop :=
  CK_SCREEN_BUFFER_END s + strlen buffer + 2 + CK_ALLOC_SIZE <= SIZE_MAX.

(** What [ck_print] compares with the capacity. *)
Definition demand (s : ck_state) (buffer : list ascii) : Z :=
  CK_SCREEN_BUFFER_END s + strlen buffer + 2.

(** A loop budget that lets [ck_print] reach the demand. *)
Definition enough (fuel : nat) (s : ck_state) (buffer : list ascii) : Prop :=
  (0 < fuel)%nat /\
  demand s buffer - CK_SCREEN_BUFFER_SIZE s + CK_ALLOC_SIZE <= Z.of_nat fuel * CK_ALLOC_SIZE.

(** The console side of the state is as it was. *)
Record same_console (s s' : ck_state) : Prop := mk_same_console {
  same_tty : tty s' = tty s;
  same_stdin : stdin s' = stdin s;
  same_stdout : stdout s' = stdout s;
  same_tty_log : tty_log s' = tty_log s;
  same_knownSize : knownSize s' = knownSize s;
  same_SETTS : CK_CONSOLE_SETTS s' = CK_CONSOLE_SETTS s;
  same_ORIG_SETTS : CK_CONSOLE_ORIG_SETTS s' = CK_CONSOLE_ORIG_SETTS s
}.

(** What a successful [ck_print] of [buffer] turns [s] into. *)
Record appended (s : ck_state) (buffer : list ascii) (s' : ck_state) : Prop := mk_appended {
  app_active : active s';
  app_END : CK_SCREEN_BUFFER_END s' = CK_SCREEN_BUFFER_END s + strlen buffer + 2;
  app_SIZE :
    exists k : nat,
      CK_SCREEN_BUFFER_SIZE s' = CK_SCREEN_BUFFER_SIZE s + Z.of_nat k * CK_ALLOC_SIZE /\
      demand s buffer <= CK_SCREEN_BUFFER_SIZE s' /\
      (k = 0%nat \/ CK_SCREEN_BUFFER_SIZE s' - CK_ALLOC_SIZE < demand s buffer);
  app_text :
    exists text,
      screen_text s = Some text /\ screen_text s' = Some (text ++ cstr buffer);
  app_SEQUENCE : CK_SEQUENCE_BUFFER s' = CK_SEQUENCE_BUFFER s;
  app_sequence :
    cells_at s' (CK_SEQUENCE_BUFFER s') = cells_at s (CK_SEQUENCE_BUFFER s);
  app_console : same_console s s'
}.

(** What a successful [ck_init] makes of [s0]. *)
Record initialised (s0 s : ck_state) : Prop := mk_initialised {
  init_active : active s;
  init_END : CK_SCREEN_BUFFER_END s = 0;
  init_SIZE : CK_SCREEN_BUFFER_SIZE s = CK_ALLOC_SIZE;
  init_text : screen_text s = Some [];
  init_ORIG : CK_CONSOLE_ORIG_SETTS s = tty s0;
  init_tty : tty s = tty s0;
  init_stdin : stdin s = stdin s0;
  init_stdout : stdout s = stdout s0;
  init_tty_log : tty_log s = tty_log s0;
  init_knownSize : knownSize s = knownSize s0
}.

(** What a successful [ck_flip] makes of [s]. *)
Record flushed (s s' : ck_state) : Prop := mk_flushed {
  fl_active : active s';
  fl_stdout :
    exists text,
      screen_text s = Some text /\
      stdout s' = stdout s ++ [ESC] ++ str "[H" ++ text;
  fl_END : CK_SCREEN_BUFFER_END s' = 0;
  fl_SIZE : CK_SCREEN_BUFFER_SIZE s' = CK_SCREEN_BUFFER_SIZE s;
  fl_text : screen_text s' = Some [];
  fl_SEQUENCE : CK_SEQUENCE_BUFFER s' = CK_SEQUENCE_BUFFER s;
  fl_sequence :
    cells_at s' (CK_SEQUENCE_BUFFER s') = cells_at s (CK_SEQUENCE_BUFFER s);
  fl_tty : tty s' = tty s;
  fl_stdin : stdin s' = stdin s;
  fl_tty_log : tty_log s' = tty_log s;
  fl_knownSize : knownSize s' = knownSize s;
  fl_ORIG : CK_CONSOLE_ORIG_SETTS s' = CK_CONSOLE_ORIG_SETTS s
}.

(** The heap and the buffer globals are as they were. *)
Record same_buffers (s s' : ck_state) : Prop := mk_same_buffers {
  same_heap : heap s' = heap s;
  same_SIZE : CK_SCREEN_BUFFER_SIZE s' = CK_SCREEN_BUFFER_SIZE s;
  same_END : CK_SCREEN_BUFFER_END s' = CK_SCREEN_BUFFER_END s;
  same_SCREEN : CK_SCREEN_BUFFER s' = CK_SCREEN_BUFFER s;
  same_SEQUENCE : CK_SEQUENCE_BUFFER s' = CK_SEQUENCE_BUFFER s
}.

(** The calls that format into the sequence buffer. *)
Inductive generated : Type :=
| GenRgb (where_ r g b : Z)
| GenGoto (x y : Z)
| GenMove (where_ : ascii) (amount : Z).

Definition generate (g : generated) : M ptr :=
  match g with
  | GenRgb w r g b => ck_rgb w r g b
  | GenGoto x y => ck_cursor_goto x y
  | GenMove w n => ck_cursor_move w n
  end.

Definition sequence_of (g : generated) : list ascii :=
  match g with
  | GenRgb w r g b => rgb_format w r g b
  | GenGoto x y => goto_format x y
  | GenMove w n => move_format w n
  end.

(** What a generator call [g] that returned [p] makes of [s]. *)
Record formatted (s : ck_state) (g : generated) (p : ptr) (s' : ck_state) : Prop :=
  mk_formatted {
  fmt_active : active s';
  fmt_ptr : p = CK_SEQUENCE_BUFFER s;
  fmt_SEQUENCE : CK_SEQUENCE_BUFFER s' = CK_SEQUENCE_BUFFER s;
  fmt_text : text_at s' p = Some (cstr (sequence_of g));
  fmt_SCREEN : CK_SCREEN_BUFFER s' = CK_SCREEN_BUFFER s;
  fmt_screen : cells_at s' (CK_SCREEN_BUFFER s') = cells_at s (CK_SCREEN_BUFFER s);
  fmt_END : CK_SCREEN_BUFFER_END s' = CK_SCREEN_BUFFER_END s;
  fmt_SIZE : CK_SCREEN_BUFFER_SIZE s' = CK_SCREEN_BUFFER_SIZE s;
  fmt_console : same_console s s'
}.

(** The raw-mode bracket of [getch] and [kbhit]: the terminal gets the raw
    settings, [middle] happens, the terminal gets the original settings;
    nothing else moves. *)
Record bracketed (s : ck_state) (middle : tty_event) (s' : ck_state) : Prop :=
  mk_bracketed {
  br_tty : tty s' = CK_CONSOLE_ORIG_SETTS s;
  br_tty_log :
    tty_log s' =
    tty_log s ++
      [EvSetAttr (CK_CONSOLE_SETTS s); middle; EvSetAttr (CK_CONSOLE_ORIG_SETTS s)];
  br_buffers : same_buffers s s';
  br_stdout : stdout s' = stdout s;
  br_knownSize : knownSize s' = knownSize s;
  br_SETTS : CK_CONSOLE_SETTS s' = CK_CONSOLE_SETTS s;
  br_ORIG_SETTS : CK_CONSOLE_ORIG_SETTS s' = CK_CONSOLE_ORIG_SETTS s
}.

(** What the header never touches of standard input and its terminal. *)
Record same_device (s s' : ck_state) : Prop := mk_same_device {
  dev_bufsiz : stdin_bufsiz s' = stdin_bufsiz s;
  dev_end : stdin_end s' = stdin_end s;
  dev_fixed : tty_cflag_fixed s' = tty_cflag_fixed s
}.

(** The code of a character, as [getchar] returns it. *)
Definition code (c : ascii) : Z := Z.of_N (N_of_ascii c).

(** One thing happening to an active console: a call into the header, or
    the user typing. *)
Inductive step : ck_state -> ck_state -> Prop :=
| step_print fuel r buffer s s' :
    in_bounds s buffer ->
    ck_print fuel r buffer s = Returns tt s' -> step s s'
| step_flip s s' :
    ck_flip s = Returns tt s' -> step s s'
| step_generate g p s s' :
    generate g s = Returns p s' -> step s s'
| step_getch incoming c s s' :
    Unix.getch incoming s = Returns c s' -> step s s'
| step_kbhit hit s s' :
    Unix.kbhit s = Returns hit s' -> step s s'
| step_size dims size s s' :
    Unix.ck_current_console_size dims s = Returns size s' -> step s s'
| step_typed keys s :
    step s (set_stdin (stdin s ++ keys) s).

(** The states a program gets to when it calls [ck_init] in [s0] and goes
    on from there. *)
Inductive reachable (s0 : ck_state) : ck_state -> Prop :=
| reachable_init r1 r2 s :
    Unix.ck_init r1 r2 s0 = Returns tt s -> reachable s0 s
| reachable_step s s' :
    reachable s0 s -> step s s' -> reachable s0 s'.

(** Any number of steps. *)
Inductive steps : ck_state -> ck_state -> Prop :=
| steps_refl s : steps s s
| steps_next s s' s'' : step s s' -> steps s' s'' -> steps s s''.

(** *** Sample states *)

(** The state a computation leaves behind when it returns. *)
Definition after {A} (m : M A) (s : ck_state) : ck_state :=
  match m s with
  | Returns _ s' => s'
  | _ => s
  end.

(** A terminal in its usual line mode with echo. *)
Definition cooked : termios := mk_termios 0 0 0 (Z.lor ECHO ICANON) [].

(** A fresh process on such a terminal, right after [ck_init]. *)
Definition started : ck_state :=
  after (Unix.ck_init AllocOk AllocOk) (process_start cooked []).

(** ... and after one append of 98 characters. *)
Definition full : ck_state :=
  after (ck_print 1 (ReallocOk false (fun _ => NUL)) (replicate 98 "a"%char)) started.

(** ... and after one append of 250 characters into a moved block whose new
    cells hold junk. *)
Definition grown : ck_state :=
  after (ck_print 3 (ReallocOk true (fun _ => "x"%char)) (replicate 250 "a"%char)) started.

(** A program that appends strings one after the other. *)
Fixpoint ck_print_all (fuel : nat) (items : list (realloc_reply * list ascii)) : M unit :=
  match items with
  | [] => ret tt
  | (r, buffer) :: rest => ck_print fuel r buffer;; ck_print_all fuel rest
  end.

(** What these appends add to [CK_SCREEN_BUFFER_END], and to the text. *)
Definition counted (items : list (realloc_reply * list ascii)) : Z :=
  fold_right (fun item acc => strlen (snd item) + 2 + acc) 0 items.

Definition joined (items : list (realloc_reply * list ascii)) : list ascii :=
  concat (map (fun item => cstr (snd item)) items).

Definition succeeds (r : realloc_reply) : Prop :=
  match r with
  | ReallocOk _ _ => True
  | ReallocFail => False
  end.

(** *** Reasoning about calls that return *)

(** [hoare P m Q]: from a state with [P], if [m] returns, it returns a value
    and a state with [Q]. *)
Definition hoare {A} (P : ck_state -> Prop) (m : M A) (Q : A -> ck_state -> Prop) : Prop :=
  forall s a s', P s -> m s = Returns a s' -> Q a s'.

(** How many blocks of the heap are allocated. *)
Fixpoint live_blocks (h : list block) : nat :=
  match h with
  | [] => 0
  | Live _ :: rest => S (live_blocks rest)
  | Dead :: rest => live_blocks rest
  end.

(** The heap holds [n] allocated blocks and the screen buffer is set. *)
Definition holds_blocks (n : nat) (s : ck_state) : Prop :=
  live_blocks (heap s) = n /\ CK_SCREEN_BUFFER s <> NULL.

(* ================================================================= *)
(** ** conkit.h on Windows: [ck_init], [ck_end] and the console mode *)

Module Windows.

Definition ENABLE_VIRTUAL_TERMINAL_PROCESSING : Z := 4.

(** The process with the two globals of the Windows part, and the console
    as the process sees it: the handle [GetStdHandle] gives for the
    standard output and the mode of the console behind it. *)
Record win_state : Type := mk_win {
  process : ck_state;
  CK_STD_OUTPUT_HANDLE : Z;
  CK_CONSOLE_MODE : Z;
  std_output : Z;
  console_mode : Z
}.

Definition set_process (v : ck_state) (w : win_state) : win_state :=
  mk_win v (CK_STD_OUTPUT_HANDLE w) (CK_CONSOLE_MODE w) (std_output w) (console_mode w).

Definition set_HANDLE (v : Z) (w : win_state) : win_state :=
  mk_win (process w) v (CK_CONSOLE_MODE w) (std_output w) (console_mode w).

Definition set_MODE (v : Z) (w : win_state) : win_state :=
  mk_win (process w) (CK_STD_OUTPUT_HANDLE w) v (std_output w) (console_mode w).

Definition set_console_mode (v : Z) (w : win_state) : win_state :=
  mk_win (process w) (CK_STD_OUTPUT_HANDLE w) (CK_CONSOLE_MODE w) (std_output w) v.

Inductive woutcome (A : Type) : Type :=
| WReturns (a : A) (w : win_state)
| WExits (status : Z) (w : win_state)
| WBlocked (w : win_state)
| WOutOfFuel
| WUndefined.

Arguments WReturns {A} a w.
Arguments WExits {A} status w.
Arguments WBlocked {A} w.
Arguments WOutOfFuel {A}.
Arguments WUndefined {A}.

Definition W (A : Type) : Type := win_state -> woutcome A.

Definition wret {A} (a : A) : W A := fun w => WReturns a w.

Definition wbind {A B} (m : W A) (k : A -> W B) : W B :=
  fun w =>
    match m w with
    | WReturns a w' => k a w'
    | WExits c w' => WExits c w'
    | WBlocked w' => WBlocked w'
    | WOutOfFuel => WOutOfFuel
    | WUndefined => WUndefined
    end.

Declare Scope win_scope.
Delimit Scope win_scope with win.
Notation "x <- m ;; k" := (wbind m (fun x => k))
  (at level 100, m at next level, right associativity) : win_scope.
Notation "m ;; k" := (wbind m (fun _ => k))
  (at level 100, right associativity) : win_scope.

Definition wgets {A} (f : win_state -> A) : W A := fun w => WReturns (f w) w.
Definition wmodify (f : win_state -> win_state) : W unit := fun w => WReturns tt (f w).

(** The code that is the same on every platform runs on the process. *)
Definition lift {A} (m : M A) : W A :=
  fun w =>
    match m (process w) with
    | Returns a s => WReturns a (set_process s w)
    | Exits c s => WExits c (set_process s w)
    | Blocked s => WBlocked (set_process s w)
    | OutOfFuel => WOutOfFuel
    | Undefined => WUndefined
    end.

(** What a console call answers: it can fail, as it does when the handle
    is not that of a console; the header does not look at the answer. *)
Inductive console_reply : Type := ConsoleFail | ConsoleOk.

Definition GetStdHandle : W Z := wgets std_output.

(** [GetConsoleMode(h, &CK_CONSOLE_MODE)] *)
Definition GetConsoleMode (r : console_reply) (h : Z) : W bool :=
  fun w =>
    match r with
    | ConsoleOk =>
        if h =? std_output w
        then WReturns true (set_MODE (console_mode w) w)
        else WReturns false w
    | ConsoleFail => WReturns false w
    end.

(** [SetConsoleMode(h, mode)] *)
Definition SetConsoleMode (r : console_reply) (h mode : Z) : W bool :=
  fun w =>
    match r with
    | ConsoleOk =>
        if h =? std_output w
        then WReturns true (set_console_mode mode w)
        else WReturns false w
    | ConsoleFail => WReturns false w
    end.

Definition ck_init (r_get r_set : console_reply) (r_screen r_sequence : alloc_reply)
  : W unit :=
  (h <- GetStdHandle;;
   wmodify (set_HANDLE h);;
   h <- wgets CK_STD_OUTPUT_HANDLE;;
   GetConsoleMode r_get h;;
   h <- wgets CK_STD_OUTPUT_HANDLE;;
   mode <- wgets CK_CONSOLE_MODE;;
   SetConsoleMode r_set h (Z.lor mode ENABLE_VIRTUAL_TERMINAL_PROCESSING);;
   lift (modify (set_SIZE CK_ALLOC_SIZE));;
   p <- lift (calloc r_screen CK_ALLOC_SIZE 1);;
   lift (modify (set_SCREEN p));;
   match p with
   | None =>
       lift (perror "Error allocating memory for CK_SCREEN_BUFFER: ");;
       lift (exit EXIT_FAILURE)
   | Some _ =>
       lift (modify (set_END 0));;
       lift (memset p NUL CK_ALLOC_SIZE);;
       q <- lift (calloc r_sequence CK_SEQUENCE_BUFFER_LEN 1);;
       lift (modify (set_SEQUENCE q));;
       match q with
       | None =>
           lift (perror "Error allocating memory for CK_SEQUENCE_BUFFER: ");;
           lift (exit EXIT_FAILURE)
       | Some _ => wret tt
       end
   end)%win.

Definition ck_end (r_set : console_reply) : W unit :=
  (h <- wgets CK_STD_OUTPUT_HANDLE;;
   mode <- wgets CK_CONSOLE_MODE;;
   SetConsoleMode r_set h mode;;
   p <- lift (gets CK_SCREEN_BUFFER);;
   lift (free p);;
   q <- lift (gets CK_SEQUENCE_BUFFER);;
   lift (free q))%win.

(** A fresh process whose standard output is a console in mode [mode]:
    the globals are zero. *)
Definition win_start (handle mode : Z) : win_state :=
  mk_win (process_start zero_termios []) 0 0 handle mode.

End Windows.


(** *** Numerals

    A literal macro pastes the spelling of its argument into the string.
    [numeral] says that a spelling is a decimal numeral as a C program
    writes a number: digits only, and no leading zero (with one, C reads
    the number in octal).  [value] is the number it denotes. *)
Definition is_digit (c : ascii) : bool := (48 <=? code c) && (code c <=? 57).

Definition numeral (spelling : string) : bool :=
  match str spelling with
  | [] => false
  | [c] => is_digit c
  | c :: rest => negb (Ascii.eqb c "0") && forallb is_digit (c :: rest)
  end.

Definition value (spelling : string) : Z := number_of (str spelling).

(* ================================================================= *)
(** * Properties *)

(** ** C strings *)

Section CStrings.

Implicit Types cells text more : list ascii.

Lemma cstr_no_nul cells : Forall (fun c => c <> NUL) (cstr cells).
Proof.
  induction cells as [|c rest IH]; simpl; [constructor|].
  destruct (Ascii.eqb c NUL) eqn:E; [constructor|].
  constructor; [|exact IH].
  intros ->. rewrite Ascii.eqb_refl in E. discriminate.
Qed.

Lemma cstr_app_nul text more :
  Forall (fun c => c <> NUL) text -> cstr (text ++ NUL :: more) = text.
Proof.
  induction 1 as [|c text Hc _ IH]; simpl; [reflexivity|].
  destruct (Ascii.eqb c NUL) eqn:E.
  - apply Ascii.eqb_eq in E. contradiction.
  - now rewrite IH.
Qed.

Lemma terminated_app_nul text more : terminated (text ++ NUL :: more) = true.
Proof.
  unfold terminated. rewrite existsb_app. cbn [existsb].
  rewrite Ascii.eqb_refl. apply Bool.orb_true_r.
Qed.

(** A terminated block is its string, the terminator and a rest. *)
Lemma terminated_split cells :
  terminated cells = true ->
  cells = cstr cells ++ NUL :: drop (S (length (cstr cells))) cells.
Proof.
  unfold terminated.
  induction cells as [|c rest IH]; cbn [existsb cstr]; [discriminate|].
  destruct (Ascii.eqb c NUL) eqn:E; simpl.
  - intros _. apply Ascii.eqb_eq in E. subst c. now rewrite drop_0.
  - intros H. f_equal. now apply IH.
Qed.

Lemma strlen_lt_length cells :
  terminated cells = true -> strlen cells < Z.of_nat (length cells).
Proof.
  intros H. unfold strlen.
  rewrite (terminated_split cells H) at 2.
  rewrite length_app. simpl. lia.
Qed.

Lemma cstr_app_terminated cells more :
  terminated cells = true -> cstr (cells ++ more) = cstr cells.
Proof.
  intros H. rewrite (terminated_split cells H) at 1.
  rewrite <- app_assoc. simpl.
  apply cstr_app_nul, cstr_no_nul.
Qed.

Lemma terminated_app cells more :
  terminated cells = true -> terminated (cells ++ more) = true.
Proof.
  unfold terminated. intros H. rewrite existsb_app, H. reflexivity.
Qed.

Lemma take_cstr cells : take (length (cstr cells)) cells = cstr cells.
Proof.
  induction cells as [|c rest IH]; simpl; [reflexivity|].
  destruct (Ascii.eqb c NUL); simpl; [reflexivity|].
  now rewrite IH.
Qed.

Lemma strlen_app text more :
  Forall (fun c => c <> NUL) text ->
  strlen (text ++ more) = Z.of_nat (length text) + strlen more.
Proof.
  unfold strlen.
  induction 1 as [|c text Hc _ IH]; simpl; [lia|].
  destruct (Ascii.eqb c NUL) eqn:E.
  - apply Ascii.eqb_eq in E. contradiction.
  - simpl. lia.
Qed.

Lemma cstr_replicate_nul n : cstr (replicate n NUL) = [].
Proof. destruct n; reflexivity. Qed.

Lemma terminated_replicate_nul n : (0 < n)%nat -> terminated (replicate n NUL) = true.
Proof. destruct n; [lia|reflexivity]. Qed.

(** Appending in place: the block keeps its length, and reads as the old
    string followed by the new one. *)
Lemma write_at_end cells text :
  terminated cells = true ->
  (length (cstr cells) + length (cstr text) + 1 <= length cells)%nat ->
  exists cells',
    write_at cells (length (cstr cells)) (cstr text) = Some cells' /\
    length cells' = length cells /\
    terminated cells' = true /\
    cstr cells' = cstr cells ++ cstr text.
Proof.
  intros Hterm Hfit. unfold write_at.
  destruct (Nat.leb_spec (length (cstr cells) + length (cstr text) + 1) (length cells));
    [|lia].
  eexists. split; [reflexivity|]. rewrite take_cstr.
  repeat split.
  - rewrite !length_app, length_drop. simpl. lia.
  - rewrite app_assoc. apply terminated_app_nul.
  - rewrite app_assoc. simpl. apply cstr_app_nul.
    apply Forall_app; split; apply cstr_no_nul.
Qed.

(** Formatting at the start of a block. *)
Lemma write_at_start cells text :
  (length text + 1 <= length cells)%nat ->
  exists cells',
    write_at cells 0 text = Some cells' /\
    length cells' = length cells /\
    terminated cells' = true /\
    cstr cells' = cstr text.
Proof.
  intros Hfit. unfold write_at. simpl.
  destruct (Nat.leb_spec (length text + 1) (length cells)); [|lia].
  eexists. split; [reflexivity|].
  repeat split.
  - rewrite length_app. simpl. rewrite length_drop. lia.
  - apply terminated_app_nul.
  - change (text ++ NUL :: drop (length text + 1) cells)
      with (text ++ [NUL] ++ drop (length text + 1) cells).
    rewrite app_assoc.
    rewrite cstr_app_terminated by apply terminated_app_nul.
    clear. induction text as [|c text IH]; simpl; [reflexivity|].
    destruct (Ascii.eqb c NUL); [reflexivity|]. now rewrite IH.
Qed.

(** Growing a block keeps what it held. *)
Lemma resized_grow cells n junk :
  (length cells <= n)%nat ->
  resized cells n junk = cells ++ map junk (seq (length cells) (n - length cells)).
Proof. intros H. unfold resized. now rewrite take_ge. Qed.

Lemma length_resized cells n junk : length (resized cells n junk) = n.
Proof.
  unfold resized. rewrite length_app, length_take, length_map, length_seq. lia.
Qed.

End CStrings.

(** ** Arithmetic of [size_t] *)

Lemma size_t_small x : 0 <= x <= SIZE_MAX -> size_t x = x.
Proof. unfold size_t, SIZE_MAX. intros H. apply Z.mod_small. lia. Qed.

Lemma size_t_range x : 0 <= size_t x <= SIZE_MAX.
Proof.
  unfold size_t, SIZE_MAX.
  pose proof (Z.mod_pos_bound x (2 ^ 64) ltac:(lia)). lia.
Qed.

Lemma strlen_nonneg cells : 0 <= strlen cells.
Proof. unfold strlen. lia. Qed.

(** ** Field updates *)

Lemma set_SIZE_same s : set_SIZE (CK_SCREEN_BUFFER_SIZE s) s = s.
Proof. now destruct s. Qed.

(** ** The primitives on an active heap *)

Lemma load_at s p cells : cells_at s p = Some cells -> load p s = Returns cells s.
Proof.
  unfold cells_at, load. destruct p as [b|]; [|discriminate].
  destruct (heap s !! b) as [[c|]|]; try discriminate.
  now intros [= ->].
Qed.

Lemma store_at s b old cells :
  cells_at s (Some b) = Some old ->
  store (Some b) cells s = Returns tt (set_heap (<[b := Live cells]> (heap s)) s).
Proof.
  unfold cells_at, store.
  destruct (heap s !! b) as [[c|]|]; try discriminate. reflexivity.
Qed.

Lemma cells_at_lt s b cells : cells_at s (Some b) = Some cells -> (b < length (heap s))%nat.
Proof.
  unfold cells_at. destruct (heap s !! b) as [blk|] eqn:E; [|discriminate].
  intros _. eapply lookup_lt_Some, E.
Qed.

(** ** The growth loop *)

Lemma ck_print_grow_spec fuel len s :
  0 <= len ->
  0 <= CK_SCREEN_BUFFER_END s ->
  0 <= CK_SCREEN_BUFFER_SIZE s <= SIZE_MAX ->
  CK_SCREEN_BUFFER_END s + len + 1 + CK_ALLOC_SIZE <= SIZE_MAX ->
  let need := CK_SCREEN_BUFFER_END s + len + 1 in
  (ck_print_grow fuel len s = OutOfFuel /\
   (fuel = 0%nat \/
    Z.of_nat fuel * CK_ALLOC_SIZE < need - CK_SCREEN_BUFFER_SIZE s + CK_ALLOC_SIZE)) \/
  (exists k : nat,
     ck_print_grow fuel len s
       = Returns tt (set_SIZE (CK_SCREEN_BUFFER_SIZE s + Z.of_nat k * CK_ALLOC_SIZE) s) /\
     need <= CK_SCREEN_BUFFER_SIZE s + Z.of_nat k * CK_ALLOC_SIZE /\
     (k = 0%nat \/
      CK_SCREEN_BUFFER_SIZE s + Z.of_nat k * CK_ALLOC_SIZE - CK_ALLOC_SIZE < need)).
Proof.
  revert s. induction fuel as [|fuel IH]; intros s Hlen Hend Hsize Hfit need.
  - left. split; [reflexivity|now left].
  - cbn [ck_print_grow]. unfold bind, gets.
    rewrite (size_t_small (CK_SCREEN_BUFFER_END s + len))
      by (unfold CK_ALLOC_SIZE in *; lia).
    rewrite (size_t_small (CK_SCREEN_BUFFER_END s + len + 1))
      by (unfold CK_ALLOC_SIZE in *; lia).
    fold need.
    destruct (Z.gtb_spec need (CK_SCREEN_BUFFER_SIZE s)) as [Hgt|Hle].
    + unfold modify.
      rewrite size_t_small by (unfold CK_ALLOC_SIZE in *; lia).
      set (s1 := set_SIZE (CK_SCREEN_BUFFER_SIZE s + CK_ALLOC_SIZE) s).
      destruct (IH s1) as [[Hout Hfuel]|(k & Hret & Hk1 & Hk2)];
        try (subst s1; cbn; unfold CK_ALLOC_SIZE in *; lia).
      * left. split; [exact Hout|]. right.
        subst s1; cbn in Hfuel. unfold CK_ALLOC_SIZE in *. lia.
      * right. exists (S k). subst s1. cbn in Hret, Hk1, Hk2.
        split; [|split].
        -- rewrite Hret. unfold set_SIZE. cbn. f_equal. f_equal. lia.
        -- fold need in Hk1. lia.
        -- right. fold need in Hk2. unfold CK_ALLOC_SIZE in *. lia.
    + right. exists 0%nat. split; [|split].
      * unfold ret. f_equal. rewrite Z.add_0_r. symmetry. apply set_SIZE_same.
      * lia.
      * now left.
Qed.

Lemma cells_at_set_heap s h p :
  cells_at (set_heap h s) p =
  match p with
  | Some b => match h !! b with Some (Live cells) => Some cells | _ => None end
  | None => None
  end.
Proof. reflexivity. Qed.

Lemma realloc_at moved junk s b cells n :
  cells_at s (Some b) = Some cells ->
  exists b' h',
    realloc (ReallocOk moved junk) (Some b) n s = Returns (Some b') (set_heap h' s) /\
    h' !! b' = Some (Live (resized cells (Z.to_nat n) junk)) /\
    (length (heap s) <= length h')%nat /\
    (forall q, q <> b -> (q < length (heap s))%nat -> q <> b' /\ h' !! q = heap s !! q).
Proof.
  intros Hat. pose proof (cells_at_lt _ _ _ Hat) as Hlt.
  unfold cells_at in Hat. unfold realloc.
  destruct (heap s !! b) as [[c|]|] eqn:Hb; try discriminate.
  injection Hat as ->.
  destruct moved.
  - exists (length (heap s)), (<[b := Dead]> (heap s) ++ [Live (resized cells (Z.to_nat n) junk)]).
    split; [reflexivity|]. split; [|split].
    + rewrite lookup_app_r by (rewrite length_insert; lia).
      now rewrite length_insert, Nat.sub_diag.
    + rewrite length_app, length_insert. lia.
    + intros q Hq Hqlt. split; [lia|].
      rewrite lookup_app_l by (rewrite length_insert; lia).
      now apply list_lookup_insert_ne.
  - exists b, (<[b := Live (resized cells (Z.to_nat n) junk)]> (heap s)).
    split; [reflexivity|]. split; [|split].
    + now apply list_lookup_insert_eq.
    + now rewrite length_insert.
    + intros q Hq Hqlt. split; [exact Hq|].
      now apply list_lookup_insert_ne.
Qed.

Lemma strcat_at s b cells text :
  cells_at s (Some b) = Some cells ->
  terminated cells = true ->
  (length (cstr cells) + length (cstr text) + 1 <= length cells)%nat ->
  exists cells',
    strcat (Some b) text s = Returns tt (set_heap (<[b := Live cells']> (heap s)) s) /\
    length cells' = length cells /\
    terminated cells' = true /\
    cstr cells' = cstr cells ++ cstr text.
Proof.
  intros Hat Hterm Hfit.
  destruct (write_at_end cells text Hterm Hfit) as (cells' & Hw & Hl & Ht & Hc).
  exists cells'. split; [|easy].
  unfold strcat, bind. rewrite (load_at _ _ _ Hat), Hterm, Hw.
  eapply store_at, Hat.
Qed.

Lemma sprintf_at s b cells text :
  cells_at s (Some b) = Some cells ->
  (length text + 1 <= length cells)%nat ->
  exists cells',
    sprintf (Some b) text s
      = Returns (Z.of_nat (length text)) (set_heap (<[b := Live cells']> (heap s)) s) /\
    length cells' = length cells /\
    terminated cells' = true /\
    cstr cells' = cstr text.
Proof.
  intros Hat Hfit.
  destruct (write_at_start cells text Hfit) as (cells' & Hw & Hl & Ht & Hc).
  exists cells'. split; [|easy].
  unfold sprintf, bind. rewrite (load_at _ _ _ Hat), Hw.
  now rewrite (store_at _ _ _ _ Hat).
Qed.

Lemma memset_at s b cells c n :
  cells_at s (Some b) = Some cells ->
  (Z.to_nat n <= length cells)%nat ->
  memset (Some b) c n s
    = Returns tt
        (set_heap (<[b := Live (replicate (Z.to_nat n) c ++ drop (Z.to_nat n) cells)]> (heap s)) s).
Proof.
  intros Hat Hfit. unfold memset, bind. rewrite (load_at _ _ _ Hat).
  destruct (Nat.leb_spec (Z.to_nat n) (length cells)); [|lia].
  eapply store_at, Hat.
Qed.

Lemma load_cstring_at s p cells :
  cells_at s p = Some cells ->
  terminated cells = true ->
  load_cstring p s = Returns (cstr cells) s.
Proof.
  intros Hat Hterm. unfold load_cstring, bind.
  now rewrite (load_at _ _ _ Hat), Hterm.
Qed.

Lemma free_at s b cells :
  cells_at s (Some b) = Some cells ->
  free (Some b) s = Returns tt (set_heap (<[b := Dead]> (heap s)) s).
Proof.
  unfold cells_at, free.
  destruct (heap s !! b) as [[c|]|]; try discriminate. reflexivity.
Qed.

(** ** [ck_print] *)

Lemma ck_print_spec fuel moved junk buffer s :
  active s -> in_bounds s buffer ->
  (ck_print fuel (ReallocOk moved junk) buffer s = OutOfFuel /\ ~ enough fuel s buffer) \/
  (exists s',
     ck_print fuel (ReallocOk moved junk) buffer s = Returns tt s' /\
     appended s buffer s').
Proof.
  intros Hact Hin.
  destruct Hact as [(scr & Hscr & Hlen & Hterm & Hslack) (sq & Hsq & Hsqlen)
                      Hapart Hend Hsize Htty Hraw].
  unfold in_bounds in Hin.
  pose proof (strlen_nonneg buffer) as Hn.
  pose proof (strlen_nonneg scr) as Hn'.
  pose proof (strlen_lt_length scr Hterm) as Hscrlt.
  unfold ck_print. cbv zeta.
  rewrite (size_t_small (strlen buffer + 1)) by (unfold CK_ALLOC_SIZE in *; lia).
  destruct (ck_print_grow_spec fuel (strlen buffer + 1) s)
    as [[Hout Hfuel]|(k & Hret & Hk1 & Hk2)];
    try (unfold CK_ALLOC_SIZE in *; lia).
  { left. unfold bind at 1. split; [now rewrite Hout|].
    unfold enough, demand. unfold CK_ALLOC_SIZE in *. lia. }
  right. unfold bind at 1. rewrite Hret.
  set (size' := CK_SCREEN_BUFFER_SIZE s + Z.of_nat k * CK_ALLOC_SIZE) in *.
  assert (Hsz : CK_SCREEN_BUFFER_SIZE s <= size') by (subst size'; unfold CK_ALLOC_SIZE; lia).
  destruct (CK_SCREEN_BUFFER s) as [b|] eqn:Hb; [|discriminate].
  destruct (CK_SEQUENCE_BUFFER s) as [q|] eqn:Hq; [|discriminate].
  assert (Hbq : q <> b) by congruence.
  pose proof (cells_at_lt _ _ _ Hsq) as Hqlt.
  unfold bind at 1. unfold modify at 1.
  cbn [CK_SCREEN_BUFFER_END set_SIZE].
  rewrite (size_t_small (strlen buffer + 1 + 1)) by (unfold CK_ALLOC_SIZE in *; lia).
  rewrite size_t_small by (unfold CK_ALLOC_SIZE in *; lia).
  unfold bind at 1. unfold gets at 1.
  unfold bind at 1. unfold gets at 1.
  cbn [CK_SCREEN_BUFFER CK_SCREEN_BUFFER_SIZE set_END set_SIZE].
  rewrite Hb, Z.mul_1_r.
  rewrite size_t_small by (unfold CK_ALLOC_SIZE in *; lia).
  set (s1 := set_END _ _).
  destruct (realloc_at moved junk s1 b scr size' Hscr) as (b' & h' & Hre & Hb' & Hgrow & Hframe).
  unfold bind at 1. rewrite Hre.
  destruct (Hframe q Hbq Hqlt) as [Hqb' Hq'].
  rewrite resized_grow in Hb' by lia.
  set (scr1 := scr ++ _) in Hb'.
  set (s2 := set_SCREEN (Some b') (set_ALLOC (Some b') (set_heap h' s1))).
  change (exists s', strcat (Some b') buffer s2 = Returns tt s' /\ appended s buffer s').
  assert (Hat2 : cells_at s2 (Some b') = Some scr1) by (cbn; now rewrite Hb').
  assert (Hterm1 : terminated scr1 = true) by now apply terminated_app.
  assert (Hcstr1 : cstr scr1 = cstr scr) by now apply cstr_app_terminated.
  assert (Hlen1 : Z.of_nat (length scr1) = size').
  { subst scr1. rewrite length_app, length_map, length_seq. lia. }
  destruct (strcat_at s2 b' scr1 buffer Hat2 Hterm1) as (scr2 & Hcat & Hlen2 & Hterm2 & Hcstr2).
  { rewrite Hcstr1. unfold strlen in *. lia. }
  eexists. split; [exact Hcat|].
  assert (Hb'lt : (b' < length h')%nat) by (eapply lookup_lt_Some, Hb').
  assert (Hsq2 : h' !! q = Some (Live sq)).
  { rewrite Hq'. cbn in Hsq |- *.
    destruct (heap s !! q) as [[c|]|]; try discriminate. now injection Hsq as ->. }
  assert (Hqb : b' <> q) by (intros ->; now apply Hqb').
  constructor.
  - constructor.
    + exists scr2. cbn. rewrite list_lookup_insert_eq by exact Hb'lt.
      split; [reflexivity|]. split; [lia|]. split; [exact Hterm2|].
      left. unfold strlen in *. rewrite Hcstr2, Hcstr1, length_app. lia.
    + exists sq. cbn. rewrite Hq. cbn.
      rewrite list_lookup_insert_ne by exact Hqb.
      now rewrite Hsq2.
    + cbn. rewrite Hq. congruence.
    + cbn. lia.
    + cbn. unfold CK_ALLOC_SIZE in *. lia.
    + exact Htty.
    + exact Hraw.
  - cbn. lia.
  - exists k. cbn. unfold demand. fold size'. split; [reflexivity|]. split; [lia|].
    destruct Hk2 as [->|Hk2]; [now left|right; lia].
  - exists (cstr scr). unfold screen_text, text_at. rewrite Hb, Hscr, Hterm.
    split; [reflexivity|]. cbn.
    rewrite list_lookup_insert_eq by exact Hb'lt.
    now rewrite Hterm2, Hcstr2, Hcstr1.
  - cbn. now rewrite Hq.
  - cbn. rewrite Hq. cbn.
    rewrite list_lookup_insert_ne by exact Hqb.
    rewrite Hsq2. cbn in Hsq. now rewrite <- Hsq.
  - constructor; reflexivity.
Qed.

(** ** [ck_init] *)

Lemma lookup_fresh (h : list block) (blk : block) : (h ++ [blk]) !! length h = Some blk.
Proof. rewrite lookup_app_r by lia. now rewrite Nat.sub_diag. Qed.

Lemma memset_whole n (c : ascii) cells :
  length cells = n -> replicate n c ++ drop n cells = replicate n c.
Proof. intros <-. now rewrite drop_all, app_nil_r. Qed.

Lemma ck_init_spec s0 :
  exists s, Unix.ck_init AllocOk AllocOk s0 = Returns tt s /\ initialised s0 s.
Proof.
  unfold Unix.ck_init.
  unfold bind, tcgetattr, gets, modify, calloc.
  rewrite !Z.mul_1_r.
  set (a := Z.to_nat CK_ALLOC_SIZE).
  set (l := Z.to_nat CK_SEQUENCE_BUFFER_LEN).
  assert (Ha : Z.of_nat a = CK_ALLOC_SIZE) by reflexivity.
  assert (Hl : Z.of_nat l = CK_SEQUENCE_BUFFER_LEN) by reflexivity.
  assert (Hapos : (0 < a)%nat) by (unfold CK_ALLOC_SIZE in Ha; lia).
  cbn -[a l].
  set (n := length (heap s0)).
  erewrite memset_at; cycle 1.
  { cbn -[a l]. subst n. rewrite lookup_fresh. reflexivity. }
  { rewrite length_replicate. reflexivity. }
  fold a. rewrite memset_whole by apply length_replicate.
  cbn -[a l].
  eexists. split; [reflexivity|].
  set (h1 := <[n := Live (replicate a NUL)]> (heap s0 ++ [Live (replicate a NUL)])).
  assert (Hlen1 : length h1 = S n).
  { subst h1 n. rewrite length_insert, length_app. cbn. lia. }
  assert (Hscreen : (h1 ++ [Live (replicate l NUL)]) !! n = Some (Live (replicate a NUL))).
  { rewrite lookup_app_l by lia. subst h1.
    apply list_lookup_insert_eq. rewrite length_app. cbn. subst n. lia. }
  assert (Hseq : (h1 ++ [Live (replicate l NUL)]) !! S n = Some (Live (replicate l NUL))).
  { rewrite <- Hlen1. apply lookup_fresh. }
  assert (Hempty : screen_text
            (set_SEQUENCE (Some (length h1))
               (set_heap (h1 ++ [Live (replicate l NUL)])
                  (set_heap h1
                     (set_END 0
                        (set_SCREEN (Some n)
                           (set_heap (heap s0 ++ [Live (replicate a NUL)])
                              (set_SIZE CK_ALLOC_SIZE
                                 (set_SETTS (raw_of (tty s0))
                                    (set_SETTS (tty s0) (set_ORIG_SETTS (tty s0) s0)))))))))) = Some []).
  { unfold screen_text, text_at. cbn -[a l]. rewrite Hscreen.
    rewrite terminated_replicate_nul by exact Hapos.
    now rewrite cstr_replicate_nul. }
  constructor; try reflexivity; [|exact Hempty].
  constructor; cbn -[a l]; try reflexivity.
  - exists (replicate a NUL). rewrite Hscreen.
    split; [reflexivity|]. rewrite length_replicate. split; [exact Ha|].
    split; [now apply terminated_replicate_nul|].
    right. split; [reflexivity|]. unfold strlen. now rewrite cstr_replicate_nul.
  - exists (replicate l NUL). rewrite Hlen1, Hseq.
    split; [reflexivity|]. now rewrite length_replicate.
  - rewrite Hlen1. intros [= H]. lia.
  - unfold CK_ALLOC_SIZE. lia.
  - unfold CK_ALLOC_SIZE, SIZE_MAX. lia.
Qed.

(** When the first allocation fails nothing has been allocated. *)
Lemma ck_init_screen_fails r2 s0 :
  exists s',
    Unix.ck_init AllocFail r2 s0 = Exits EXIT_FAILURE s' /\
    heap s' = heap s0 /\
    CK_SCREEN_BUFFER s' = NULL.
Proof. eexists. split; [reflexivity|]. split; reflexivity. Qed.

(** When the second allocation fails the process exits with the screen
    buffer still allocated. *)
Lemma ck_init_sequence_fails s0 :
  exists s' b,
    Unix.ck_init AllocOk AllocFail s0 = Exits EXIT_FAILURE s' /\
    CK_SCREEN_BUFFER s' = Some b /\
    heap s' !! b = Some (Live (replicate (Z.to_nat CK_ALLOC_SIZE) NUL)) /\
    CK_SEQUENCE_BUFFER s' = NULL.
Proof.
  unfold Unix.ck_init.
  unfold bind, tcgetattr, gets, modify, calloc, perror, exit, ret.
  rewrite !Z.mul_1_r.
  set (a := Z.to_nat CK_ALLOC_SIZE).
  cbn -[a].
  erewrite memset_at; cycle 1.
  { cbn -[a]. rewrite lookup_fresh. reflexivity. }
  { rewrite length_replicate. reflexivity. }
  fold a. rewrite memset_whole by apply length_replicate.
  unfold modify. cbn -[a].
  eexists _, _. split; [reflexivity|]. cbn -[a]. split; [reflexivity|].
  split; [|reflexivity].
  apply list_lookup_insert_eq. rewrite length_app. cbn. lia.
Qed.

(** [ck_init] only comes back when both allocations worked. *)
Lemma ck_init_returns r1 r2 s0 s :
  Unix.ck_init r1 r2 s0 = Returns tt s -> initialised s0 s.
Proof.
  intros H. destruct r1.
  - destruct (ck_init_screen_fails r2 s0) as (x & E & _). congruence.
  - destruct r2.
    + destruct (ck_init_sequence_fails s0) as (x & b & E & _). congruence.
    + destruct (ck_init_spec s0) as (s' & Hs' & Hinit). congruence.
Qed.

(** ** [ck_flip] *)

Lemma ck_flip_spec s : active s -> exists s', ck_flip s = Returns tt s' /\ flushed s s'.
Proof.
  intros [(scr & Hscr & Hlen & Hterm & Hslack) (sq & Hsq & Hsqlen)
            Hapart Hend Hsize Htty Hraw].
  destruct (CK_SCREEN_BUFFER s) as [b|] eqn:Hb; [|discriminate].
  destruct (CK_SEQUENCE_BUFFER s) as [q|] eqn:Hq; [|discriminate].
  assert (Hqb : b <> q) by congruence.
  pose proof (cells_at_lt _ _ _ Hscr) as Hblt.
  assert (Hn : Z.to_nat (CK_SCREEN_BUFFER_SIZE s) = length scr) by lia.
  assert (Hpos : (0 < length scr)%nat) by (unfold CK_ALLOC_SIZE in *; lia).
  unfold ck_flip.
  unfold bind at 1. unfold gets at 1. rewrite Hb.
  unfold bind at 1. rewrite (load_cstring_at _ _ _ Hscr Hterm).
  unfold bind at 1. unfold printf, modify at 1.
  unfold bind at 1. unfold gets at 1.
  cbn [CK_SCREEN_BUFFER_SIZE set_stdout].
  set (s1 := set_stdout _ s).
  unfold bind at 1.
  rewrite (memset_at s1 b scr NUL (CK_SCREEN_BUFFER_SIZE s) Hscr) by lia.
  rewrite Hn, memset_whole by reflexivity.
  unfold modify. eexists. split; [reflexivity|].
  assert (Htext : screen_text
            (set_END 0 (set_heap (<[b:=Live (replicate (length scr) NUL)]> (heap s1)) s1))
          = Some []).
  { unfold screen_text, text_at. cbn. rewrite Hb. cbn.
    rewrite list_lookup_insert_eq by exact Hblt.
    rewrite terminated_replicate_nul by exact Hpos.
    now rewrite cstr_replicate_nul. }
  assert (Hseq : cells_at
            (set_END 0 (set_heap (<[b:=Live (replicate (length scr) NUL)]> (heap s1)) s1))
            (Some q) = Some sq).
  { cbn. rewrite list_lookup_insert_ne by exact Hqb. exact Hsq. }
  constructor; try reflexivity; try exact Htext.
  - constructor; try assumption.
    + exists (replicate (length scr) NUL). cbn. rewrite Hb. cbn.
      rewrite list_lookup_insert_eq by exact Hblt.
      split; [reflexivity|]. rewrite length_replicate. split; [exact Hlen|].
      split; [now apply terminated_replicate_nul|].
      right. split; [reflexivity|]. unfold strlen. now rewrite cstr_replicate_nul.
    + exists sq. split; [|exact Hsqlen].
      change (CK_SEQUENCE_BUFFER (set_END 0 _)) with (CK_SEQUENCE_BUFFER s).
      rewrite Hq. exact Hseq.
    + cbn. now rewrite Hb, Hq.
    + cbn. unfold CK_ALLOC_SIZE in *. lia.
  - exists (cstr scr). split; [|reflexivity].
    unfold screen_text, text_at. now rewrite Hb, Hscr, Hterm.
  - change (CK_SEQUENCE_BUFFER (set_END 0 _)) with (CK_SEQUENCE_BUFFER s).
    rewrite Hq, Hseq. now rewrite Hsq.
Qed.

(** ** [ck_print] when [realloc] fails *)

Lemma ck_print_fails fuel buffer s :
  active s -> in_bounds s buffer ->
  (ck_print fuel ReallocFail buffer s = OutOfFuel /\ ~ enough fuel s buffer) \/
  (exists s',
     ck_print fuel ReallocFail buffer s = Exits EXIT_FAILURE s' /\
     released s' (CK_SCREEN_BUFFER s') /\
     released s' (CK_SEQUENCE_BUFFER s') /\
     CK_SCREEN_BUFFER s' = CK_SCREEN_BUFFER s /\
     CK_SEQUENCE_BUFFER s' = CK_SEQUENCE_BUFFER s).
Proof.
  intros Hact Hin.
  destruct Hact as [(scr & Hscr & Hlen & Hterm & Hslack) (sq & Hsq & Hsqlen)
                      Hapart Hend Hsize Htty Hraw].
  unfold in_bounds in Hin.
  pose proof (strlen_nonneg buffer) as Hn.
  unfold ck_print. cbv zeta.
  rewrite (size_t_small (strlen buffer + 1)) by (unfold CK_ALLOC_SIZE in *; lia).
  destruct (ck_print_grow_spec fuel (strlen buffer + 1) s)
    as [[Hout Hno]|(k & Hret & Hk1 & Hk2)];
    try (unfold CK_ALLOC_SIZE in *; lia).
  { left. unfold bind at 1. split; [now rewrite Hout|].
    unfold enough, demand. unfold CK_ALLOC_SIZE in *. lia. }
  right. unfold bind at 1. rewrite Hret.
  destruct (CK_SCREEN_BUFFER s) as [b|] eqn:Hb; [|discriminate].
  destruct (CK_SEQUENCE_BUFFER s) as [q|] eqn:Hq; [|discriminate].
  assert (Hbq : b <> q) by congruence.
  pose proof (cells_at_lt _ _ _ Hscr) as Hblt.
  pose proof (cells_at_lt _ _ _ Hsq) as Hqlt.
  unfold bind, modify, gets, realloc, ret, perror, exit.
  unfold NULL. cbv beta iota.
  unfold modify.
  cbn [CK_SCREEN_BUFFER CK_SEQUENCE_BUFFER set_END set_SIZE set_ALLOC set_stderr].
  rewrite Hb.
  erewrite free_at by (cbn; exact Hscr).
  cbn [CK_SCREEN_BUFFER CK_SEQUENCE_BUFFER set_END set_SIZE set_ALLOC set_stderr set_heap].
  rewrite Hq.
  erewrite free_at; cycle 1.
  { cbn. cbn in Hsq. rewrite list_lookup_insert_ne by exact Hbq. exact Hsq. }
  eexists. split; [reflexivity|]. cbn. rewrite Hb, Hq.
  repeat split; unfold released; cbn.
  - rewrite list_lookup_insert_ne by congruence.
    now apply list_lookup_insert_eq.
  - apply list_lookup_insert_eq. now rewrite length_insert.
Qed.

(** ** The decimal directives print the number *)

Lemma number_of_digit d : 0 <= d < 10 -> Z.of_N (N_of_ascii (digit d)) - 48 = d.
Proof.
  intros H.
  assert (d = 0 \/ d = 1 \/ d = 2 \/ d = 3 \/ d = 4 \/
          d = 5 \/ d = 6 \/ d = 7 \/ d = 8 \/ d = 9) as Hd by lia.
  repeat (destruct Hd as [->|Hd]; [reflexivity|]). now subst d.
Qed.

Lemma decimal_app w : forall n acc, decimal w n acc = decimal w n [] ++ acc.
Proof.
  induction w as [|w IH]; intros n acc; cbn [decimal]; [reflexivity|].
  destruct (n / 10 =? 0); [reflexivity|].
  rewrite (IH _ (_ :: acc)), (IH _ [_]). now rewrite <- app_assoc.
Qed.

Lemma number_of_decimal w : forall n, 0 <= n < 10 ^ Z.of_nat w -> number_of (decimal w n []) = n.
Proof.
  induction w as [|w IH]; intros n Hn.
  - cbn in Hn. cbn. lia.
  - cbn [decimal].
    assert (Hd : 0 <= n mod 10 < 10) by (apply Z.mod_pos_bound; lia).
    destruct (Z.eqb_spec (n / 10) 0) as [E|E].
    + unfold number_of. cbn [fold_left]. rewrite number_of_digit by exact Hd.
      pose proof (Z.div_mod n 10 ltac:(lia)). lia.
    + rewrite decimal_app. unfold number_of. rewrite fold_left_app. cbn [fold_left].
      fold (number_of (decimal w (n / 10) [])).
      rewrite number_of_digit by exact Hd.
      rewrite IH.
      * pose proof (Z.div_mod n 10 ltac:(lia)). lia.
      * rewrite Nat2Z.inj_succ, Z.pow_succ_r in Hn by lia.
        split; [apply Z.div_pos; lia|apply Z.div_lt_upper_bound; lia].
Qed.

(** [%zu] prints its argument, [%d] the value of the [unsigned char]. *)
Lemma number_of_fmt_zu n : number_of (fmt_zu n) = size_t n.
Proof.
  unfold fmt_zu. apply number_of_decimal.
  pose proof (size_t_range n) as H. unfold SIZE_MAX in H.
  change (10 ^ Z.of_nat 20) with 100000000000000000000.
  change (2 ^ 64) with 18446744073709551616 in H. lia.
Qed.

Lemma number_of_fmt_d_uchar n : number_of (fmt_d_uchar n) = uchar n.
Proof.
  unfold fmt_d_uchar. apply number_of_decimal.
  unfold uchar. pose proof (Z.mod_pos_bound n 256 ltac:(lia)) as H.
  change (10 ^ Z.of_nat 3) with 1000. lia.
Qed.

(** ** The generators *)

Lemma length_decimal w n acc : (length (decimal w n acc) <= w + length acc)%nat.
Proof.
  revert n acc. induction w as [|w IH]; intros n acc; cbn [decimal]; [lia|].
  destruct (n / 10 =? 0); [cbn; lia|].
  etransitivity; [apply IH|]. cbn. lia.
Qed.

Lemma length_fmt_zu n : (length (fmt_zu n) <= 20)%nat.
Proof. unfold fmt_zu. etransitivity; [apply length_decimal|]. cbn. lia. Qed.

Lemma length_fmt_d_uchar n : (length (fmt_d_uchar n) <= 3)%nat.
Proof. unfold fmt_d_uchar. etransitivity; [apply length_decimal|]. cbn. lia. Qed.

(** Every sequence fits into the sequence buffer with its terminator. *)
Lemma sequence_fits g : Z.of_nat (length (sequence_of g)) + 1 <= CK_SEQUENCE_BUFFER_LEN.
Proof.
  unfold CK_SEQUENCE_BUFFER_LEN.
  destruct g as [w r g b|x y|w n]; cbn [sequence_of];
    unfold rgb_format, goto_format, move_format, fmt_c;
    rewrite !length_app; cbn [length str list_ascii_of_string].
  - pose proof (length_fmt_d_uchar w). pose proof (length_fmt_d_uchar r).
    pose proof (length_fmt_d_uchar g). pose proof (length_fmt_d_uchar b). lia.
  - pose proof (length_fmt_zu x). pose proof (length_fmt_zu y). lia.
  - pose proof (length_fmt_zu n). lia.
Qed.

(** All three generators are [sprintf] into the sequence buffer. *)
Lemma generate_unfold g :
  generate g =
  (buf <- gets CK_SEQUENCE_BUFFER;;
   sprintf buf (sequence_of g);;
   gets CK_SEQUENCE_BUFFER).
Proof. now destruct g. Qed.

Lemma generate_spec g s :
  active s -> exists p s', generate g s = Returns p s' /\ formatted s g p s'.
Proof.
  intros [(scr & Hscr & Hlen & Hterm & Hslack) (sq & Hsq & Hsqlen)
            Hapart Hend Hsize Htty Hraw].
  destruct (CK_SCREEN_BUFFER s) as [b|] eqn:Hb; [|discriminate].
  destruct (CK_SEQUENCE_BUFFER s) as [q|] eqn:Hq; [|discriminate].
  assert (Hqb : q <> b) by congruence.
  pose proof (cells_at_lt _ _ _ Hsq) as Hqlt.
  pose proof (sequence_fits g) as Hfit.
  destruct (sprintf_at s q sq (sequence_of g) Hsq) as (sq' & Hpr & Hlen' & Hterm' & Hcstr');
    [lia|].
  rewrite generate_unfold.
  unfold bind at 1. unfold gets at 1. rewrite Hq.
  unfold bind at 1. rewrite Hpr. unfold gets.
  cbn [CK_SEQUENCE_BUFFER set_heap]. rewrite Hq.
  eexists _, _. split; [reflexivity|].
  constructor; try reflexivity.
  - constructor; try assumption.
    + exists scr. cbn. rewrite Hb. cbn.
      rewrite list_lookup_insert_ne by exact Hqb.
      cbn in Hscr. rewrite Hscr. now repeat split.
    + exists sq'. cbn. rewrite Hq. cbn.
      rewrite list_lookup_insert_eq by exact Hqlt.
      split; [reflexivity|]. now rewrite Hlen'.
    + cbn. now rewrite Hb, Hq.
  - now rewrite Hq.
  - unfold text_at. cbn.
    rewrite list_lookup_insert_eq by exact Hqlt.
    now rewrite Hterm', Hcstr'.
  - cbn. rewrite Hb. cbn. now rewrite list_lookup_insert_ne by exact Hqb.
  - constructor; reflexivity.
Qed.

(** ** Flushing twice, and the end *)

(** A flush right after a flush writes the cursor-home sequence alone. *)
Lemma ck_flip_twice s :
  active s ->
  exists s1 s2,
    ck_flip s = Returns tt s1 /\
    ck_flip s1 = Returns tt s2 /\
    stdout s2 = stdout s1 ++ [ESC] ++ str "[H".
Proof.
  intros Hact.
  destruct (ck_flip_spec s Hact) as (s1 & Hrun1 & H1).
  destruct (ck_flip_spec s1 (fl_active _ _ H1)) as (s2 & Hrun2 & H2).
  exists s1, s2. split; [exact Hrun1|]. split; [exact Hrun2|].
  destruct (fl_stdout _ _ H2) as (text & Ht & Hout).
  rewrite (fl_text _ _ H1) in Ht. injection Ht as <-.
  now rewrite Hout, !app_nil_r.
Qed.

(** [ck_end] gives both buffers back. *)
Lemma ck_end_spec s :
  active s ->
  exists s',
    Unix.ck_end s = Returns tt s' /\
    released s' (CK_SCREEN_BUFFER s') /\
    released s' (CK_SEQUENCE_BUFFER s').
Proof.
  intros [(scr & Hscr & _) (sq & Hsq & _) Hapart _ _ _ _].
  destruct (CK_SCREEN_BUFFER s) as [b|] eqn:Hb; [|discriminate].
  destruct (CK_SEQUENCE_BUFFER s) as [q|] eqn:Hq; [|discriminate].
  assert (Hbq : b <> q) by congruence.
  pose proof (cells_at_lt _ _ _ Hscr) as Hblt.
  pose proof (cells_at_lt _ _ _ Hsq) as Hqlt.
  unfold Unix.ck_end, bind, gets. rewrite Hb.
  rewrite (free_at _ _ _ Hscr).
  cbn [CK_SEQUENCE_BUFFER set_heap]. rewrite Hq.
  erewrite free_at; cycle 1.
  { cbn. rewrite list_lookup_insert_ne by exact Hbq. exact Hsq. }
  eexists. split; [reflexivity|]. cbn. rewrite Hb, Hq.
  split; unfold released; cbn.
  - rewrite list_lookup_insert_ne by congruence. now apply list_lookup_insert_eq.
  - apply list_lookup_insert_eq. now rewrite length_insert.
Qed.

(** ** Raw mode and the keyboard *)


Lemma raw_of_other_fields t :
  c_iflag (raw_of t) = c_iflag t /\ c_oflag (raw_of t) = c_oflag t /\
  c_cflag (raw_of t) = c_cflag t /\ c_cc (raw_of t) = c_cc t.
Proof. now repeat split. Qed.

Lemma to_char_code c : to_char (code c) = c.
Proof.
  unfold to_char, code.
  pose proof (N_ascii_bounded c) as Hb.
  rewrite Z.mod_small by lia.
  rewrite N2Z.id. apply ascii_N_embedding.
Qed.

Lemma to_char_EOF : to_char EOF = "255"%char.
Proof. reflexivity. Qed.

(** Asking for [b] and then for [a] again leaves [a], whatever the device
    keeps to itself. *)
Lemma keep_bits_restore fixed a b : keep_bits fixed (keep_bits fixed a b) a = a.
Proof.
  unfold keep_bits. apply Z.bits_inj'. intros n Hn.
  repeat (rewrite Z.lor_spec || rewrite Z.land_spec || rewrite Z.lnot_spec by exact Hn).
  destruct (Z.testbit a n), (Z.testbit b n), (Z.testbit fixed n); reflexivity.
Qed.

Lemma installed_restore fixed t raw :
  installed fixed (installed fixed t raw) t = t.
Proof.
  destruct t as [i o c l cc]. unfold installed. cbn [c_iflag c_oflag c_cflag c_lflag c_cc].
  now rewrite keep_bits_restore.
Qed.


(** The unread input: what [stdin] holds in its buffer, then what waits in
    the kernel.  One [getch], from a state where the terminal has its
    original attributes:
    - with the end-of-file indicator set it returns [(char)EOF] at once;
    - else, with unread input, it returns its first character and no more
      is used up, though a read may have moved input from the kernel into
      the buffer;
    - else, at the end of fd 0, it sets the indicator and returns
      [(char)EOF];
    - else it waits, in raw mode, and returns the first character typed. *)
Lemma getch_spec incoming s :
  tty s = CK_CONSOLE_ORIG_SETTS s ->
  let eof_case :=
    exists s',
      Unix.getch incoming s = Returns (to_char EOF) s' /\
      bracketed s (EvGetChar EOF) s' /\ same_device s s' /\
      stdin_buffer s' = stdin_buffer s /\ stdin s' = stdin s /\ stdin_eof s' = true in
  let char_case c rest :=
    exists s',
      Unix.getch incoming s = Returns c s' /\
      bracketed s (EvGetChar (code c)) s' /\ same_device s s' /\
      stdin_buffer s' ++ stdin s' = rest /\ stdin_eof s' = false in
  if stdin_eof s then eof_case
  else
    match stdin_buffer s ++ stdin s with
    | c :: rest => char_case c rest
    | [] =>
        match stdin_end s with
        | Some _ => eof_case
        | None =>
            match incoming with
            | c :: rest => char_case c rest
            | [] =>
                exists s',
                  Unix.getch incoming s = Blocked s' /\
                  tty s' = installed (tty_cflag_fixed s) (tty s) (CK_CONSOLE_SETTS s) /\
                  stdin_buffer s' = [] /\ stdin s' = [] /\ stdin_eof s' = false
            end
        end
    end.
Proof.
  intros Htty. cbv zeta.
  assert (Hback : installed (tty_cflag_fixed s)
                    (installed (tty_cflag_fixed s) (tty s) (CK_CONSOLE_SETTS s))
                    (CK_CONSOLE_ORIG_SETTS s) = CK_CONSOLE_ORIG_SETTS s).
  { rewrite <- Htty. apply installed_restore. }
  unfold Unix.getch, bind, gets, tcsetattr, modify, getchar, ret.
  cbn [stdin stdin_buffer stdin_eof stdin_end stdin_bufsiz tty_log tty tty_cflag_fixed
       CK_CONSOLE_SETTS CK_CONSOLE_ORIG_SETTS set_tty_log set_tty].
  destruct (stdin_eof s) eqn:Heof.
  { eexists. split; [reflexivity|].
    split; [|split; [constructor; reflexivity|]].
    - constructor; try reflexivity.
      + cbn. exact Hback.
      + cbn. now rewrite <- !app_assoc.
      + constructor; reflexivity.
    - cbn. repeat split; assumption. }
  destruct (stdin_buffer s) as [|b more] eqn:Hbuf.
  - cbn [app]. destruct (stdin s) as [|c rest] eqn:Hin.
    + destruct (stdin_end s) as [at_end|] eqn:Hend.
      * eexists. split; [reflexivity|].
        split; [|split; [constructor; cbn; congruence|]].
        -- constructor; try reflexivity.
           ++ cbn. exact Hback.
           ++ cbn. now rewrite <- !app_assoc.
           ++ constructor; reflexivity.
        -- cbn. repeat split; assumption.
      * destruct incoming as [|c rest].
        -- eexists. split; [reflexivity|]. cbn. repeat split; assumption.
        -- fold (code c). rewrite to_char_code.
           eexists. split; [reflexivity|].
           split; [|split; [constructor; cbn; congruence|]].
           ++ constructor; try reflexivity.
              ** cbn. exact Hback.
              ** cbn. now rewrite <- !app_assoc.
              ** constructor; reflexivity.
           ++ cbn. split; [apply take_drop|exact Heof].
    + fold (code c). rewrite to_char_code.
      eexists. split; [reflexivity|].
      split; [|split; [constructor; cbn; congruence|]].
      * constructor; try reflexivity.
        -- cbn. exact Hback.
        -- cbn. now rewrite <- !app_assoc.
        -- constructor; reflexivity.
      * cbn. split; [apply take_drop|exact Heof].
  - cbn [app]. fold (code b). rewrite to_char_code.
    eexists. split; [reflexivity|].
    split; [|split; [constructor; cbn; congruence|]].
    + constructor; try reflexivity.
      * cbn. exact Hback.
      * cbn. now rewrite <- !app_assoc.
      * constructor; reflexivity.
    + cbn. split; [reflexivity|exact Heof].
Qed.

(** A [getch] that returns has done the raw-mode bracket around one
    [getchar] and has changed nothing else but the input. *)
Lemma getch_returns incoming c s s' :
  tty s = CK_CONSOLE_ORIG_SETTS s ->
  Unix.getch incoming s = Returns c s' ->
  exists v, bracketed s (EvGetChar v) s' /\ same_device s s' /\ c = to_char v.
Proof.
  intros Htty Hrun. pose proof (getch_spec incoming s Htty) as Hspec. cbv zeta in Hspec.
  destruct (stdin_eof s).
  { destruct Hspec as (x & E & Hbr & Hdev & _).
    rewrite E in Hrun. injection Hrun as <- <-. now exists EOF. }
  destruct (stdin_buffer s ++ stdin s) as [|c' rest].
  - destruct (stdin_end s).
    + destruct Hspec as (x & E & Hbr & Hdev & _).
      rewrite E in Hrun. injection Hrun as <- <-. now exists EOF.
    + destruct incoming as [|c' rest].
      * destruct Hspec as (x & E & _). congruence.
      * destruct Hspec as (x & E & Hbr & Hdev & _).
        rewrite E in Hrun. injection Hrun as <- <-.
        exists (code c'). now rewrite to_char_code.
  - destruct Hspec as (x & E & Hbr & Hdev & _).
    rewrite E in Hrun. injection Hrun as <- <-.
    exists (code c'). now rewrite to_char_code.
Qed.

(** A [getch] that has to read takes from the kernel whatever waits there,
    as far as the buffer of [stdin] has room, and returns the first
    character of it. *)
Lemma getch_fills incoming s c rest :
  tty s = CK_CONSOLE_ORIG_SETTS s ->
  stdin_eof s = false -> stdin_buffer s = [] -> stdin s = c :: rest ->
  exists s',
    Unix.getch incoming s = Returns c s' /\
    bracketed s (EvGetChar (code c)) s' /\ same_device s s' /\
    stdin_buffer s' = take (Nat.max 1 (stdin_bufsiz s) - 1) rest /\
    stdin s' = drop (Nat.max 1 (stdin_bufsiz s) - 1) rest /\
    stdin_eof s' = false.
Proof.
  intros Htty Heof Hbuf Hin.
  assert (Hback : installed (tty_cflag_fixed s)
                    (installed (tty_cflag_fixed s) (tty s) (CK_CONSOLE_SETTS s))
                    (CK_CONSOLE_ORIG_SETTS s) = CK_CONSOLE_ORIG_SETTS s).
  { rewrite <- Htty. apply installed_restore. }
  unfold Unix.getch, bind, gets, tcsetattr, modify, getchar, ret.
  cbn [stdin stdin_buffer stdin_eof stdin_end stdin_bufsiz tty_log tty tty_cflag_fixed
       CK_CONSOLE_SETTS CK_CONSOLE_ORIG_SETTS set_tty_log set_tty].
  rewrite Heof, Hbuf, Hin. fold (code c). rewrite to_char_code.
  eexists. split; [reflexivity|].
  split; [|split; [constructor; reflexivity|]].
  - constructor; try reflexivity.
    + cbn. exact Hback.
    + cbn. now rewrite <- !app_assoc.
    + constructor; reflexivity.
  - cbn. repeat split. exact Heof.
Qed.

Lemma land_lor_POLLIN x : (Z.land (Z.lor POLLIN x) POLLIN =? 0) = false.
Proof.
  apply Z.eqb_neq. rewrite Z.land_lor_distr_l. change (Z.land POLLIN POLLIN) with 1.
  intros H. apply Z.lor_eq_0_iff in H. destruct H as [H _]. discriminate H.
Qed.

(** [kbhit], from a state where the terminal has its original attributes:
    the raw-mode bracket around one poll; no input is used up.  It says yes
    whenever input waits in the kernel; on an open fd 0 it says yes only
    then, whatever [stdin] holds in its buffer. *)
Lemma kbhit_spec s :
  tty s = CK_CONSOLE_ORIG_SETTS s ->
  exists revents s',
    Unix.kbhit s = Returns (negb (Z.land revents POLLIN =? 0)) s' /\
    bracketed s (EvPoll revents) s' /\ same_device s s' /\
    stdin s' = stdin s /\ stdin_buffer s' = stdin_buffer s /\ stdin_eof s' = stdin_eof s /\
    (stdin s <> [] -> negb (Z.land revents POLLIN =? 0) = true) /\
    (stdin_end s = None -> stdin s = [] -> negb (Z.land revents POLLIN =? 0) = false).
Proof.
  intros Htty.
  assert (Hback : installed (tty_cflag_fixed s)
                    (installed (tty_cflag_fixed s) (tty s) (CK_CONSOLE_SETTS s))
                    (CK_CONSOLE_ORIG_SETTS s) = CK_CONSOLE_ORIG_SETTS s).
  { rewrite <- Htty. apply installed_restore. }
  unfold Unix.kbhit, bind, gets, tcsetattr, modify, poll_stdin, ret.
  cbn [stdin stdin_end tty_log tty tty_cflag_fixed CK_CONSOLE_SETTS CK_CONSOLE_ORIG_SETTS
       set_tty_log set_tty].
  eexists _, _. split; [reflexivity|].
  split; [|split; [constructor; reflexivity|]].
  - constructor; try reflexivity.
    + cbn. exact Hback.
    + cbn. now rewrite <- !app_assoc.
    + constructor; reflexivity.
  - split; [reflexivity|]. split; [reflexivity|]. split; [reflexivity|].
    destruct (stdin s) as [|c rest]; destruct (stdin_end s) as [at_end|]; split.
    + intros H. now destruct H.
    + discriminate.
    + intros H. now destruct H.
    + reflexivity.
    + intros _. now rewrite land_lor_POLLIN.
    + discriminate.
    + reflexivity.
    + discriminate.
Qed.

(** Whatever the terminal is like, the keyboard calls leave the heap and
    the buffer globals alone. *)
Lemma getch_buffers incoming c s s' :
  Unix.getch incoming s = Returns c s' -> same_buffers s s'.
Proof.
  unfold Unix.getch, bind, gets, tcsetattr, modify, getchar, ret.
  cbn [stdin stdin_buffer stdin_eof stdin_end stdin_bufsiz tty_log tty tty_cflag_fixed
       CK_CONSOLE_SETTS CK_CONSOLE_ORIG_SETTS set_tty_log set_tty].
  destruct (stdin_eof s); [intros [= _ <-]; now constructor|].
  destruct (stdin_buffer s); [|intros [= _ <-]; now constructor].
  destruct (stdin s); [|intros [= _ <-]; now constructor].
  destruct (stdin_end s); [intros [= _ <-]; now constructor|].
  destruct incoming; [discriminate|intros [= _ <-]; now constructor].
Qed.

Lemma kbhit_buffers hit s s' :
  Unix.kbhit s = Returns hit s' -> same_buffers s s'.
Proof.
  unfold Unix.kbhit, bind, gets, tcsetattr, modify, poll_stdin, ret.
  intros [= _ <-]. now constructor.
Qed.

(** ** The size query *)

Lemma unix_size_spec dims s :
  let known := knownSize s in
  let same := (Unix.ws_col dims =? width known) && (Unix.ws_row dims =? height known) in
  let answer :=
    if same then mk_console_size (width known) (height known) false
    else mk_console_size (Unix.ws_col dims) (Unix.ws_row dims) true in
  Unix.ck_current_console_size dims s = Returns answer (set_knownSize answer s).
Proof.
  unfold Unix.ck_current_console_size, bind, gets, modify, ret.
  destruct (Unix.ws_col dims =? width (knownSize s));
    destruct (Unix.ws_row dims =? height (knownSize s)); reflexivity.
Qed.

Lemma win32_size_spec rect s :
  let known := knownSize s in
  let newWidth := size_t (Win32.Right rect - Win32.Left rect + 1) in
  let newHeight := size_t (Win32.Bottom rect - Win32.Top rect + 1) in
  let same := (newWidth =? width known) && (newHeight =? height known) in
  let answer :=
    if same then mk_console_size (width known) (height known) false
    else mk_console_size newWidth newHeight true in
  Win32.ck_current_console_size rect s = Returns answer (set_knownSize answer s).
Proof.
  unfold Win32.ck_current_console_size, bind, gets, modify, ret. cbv zeta.
  destruct (size_t (Win32.Right rect - Win32.Left rect + 1) =? width (knownSize s));
    destruct (size_t (Win32.Bottom rect - Win32.Top rect + 1) =? height (knownSize s));
    reflexivity.
Qed.

(** ** What every step preserves *)

Lemma active_same_buffers s s' :
  active s -> same_buffers s s' ->
  tty s' = CK_CONSOLE_ORIG_SETTS s' ->
  CK_CONSOLE_SETTS s' = raw_of (CK_CONSOLE_ORIG_SETTS s') ->
  active s'.
Proof.
  intros [Hscr Hsq Hapart Hend Hsize _ _] [Hh HS HE HP HQ] Htty Hraw.
  constructor; try assumption.
  - unfold cells_at in *. now rewrite Hh, HS, HE, HP.
  - unfold cells_at in *. now rewrite Hh, HQ.
  - now rewrite HP, HQ.
  - now rewrite HS, HE.
  - now rewrite HS.
Qed.

Lemma active_bracketed s ev s' : active s -> bracketed s ev s' -> active s'.
Proof.
  intros Hact [Htty _ Hbuf _ _ Hsetts Horig].
  apply (active_same_buffers s s' Hact Hbuf).
  - now rewrite Horig.
  - rewrite Hsetts, Horig. apply (act_raw s Hact).
Qed.

(** A step leads from an active state to an active state and leaves the
    saved original settings alone. *)
Lemma step_active s s' :
  active s -> step s s' ->
  active s' /\ CK_CONSOLE_ORIG_SETTS s' = CK_CONSOLE_ORIG_SETTS s.
Proof.
  intros Hact Hstep.
  destruct Hstep as [fuel r buffer s s' Hin Hrun|s s' Hrun|g p s s' Hrun
                    |incoming c s s' Hrun|hit s s' Hrun|dims size s s' Hrun|keys s].
  - destruct r as [|moved junk].
    + destruct (ck_print_fails fuel buffer s Hact Hin) as [[E _]|(x & E & _)];
        congruence.
    + destruct (ck_print_spec fuel moved junk buffer s Hact Hin) as [[E _]|(x & E & Hx)];
        [congruence|].
      assert (x = s') by congruence. subst x.
      split; [apply (app_active _ _ _ Hx)|apply (same_ORIG_SETTS _ _ (app_console _ _ _ Hx))].
  - destruct (ck_flip_spec s Hact) as (x & E & Hx).
    assert (x = s') by congruence. subst x.
    split; [apply (fl_active _ _ Hx)|apply (fl_ORIG _ _ Hx)].
  - destruct (generate_spec g s Hact) as (p' & x & E & Hx).
    assert (x = s') by congruence. subst x.
    split; [apply (fmt_active _ _ _ _ Hx)|apply (same_ORIG_SETTS _ _ (fmt_console _ _ _ _ Hx))].
  - destruct (getch_returns incoming c s s' (act_tty s Hact) Hrun) as (v & Hx & _).
    split; [eapply active_bracketed; eassumption|apply (br_ORIG_SETTS _ _ _ Hx)].
  - destruct (kbhit_spec s (act_tty s Hact)) as (rev & x & E & Hx & _).
    assert (x = s') by congruence. subst x.
    split; [eapply active_bracketed; eassumption|apply (br_ORIG_SETTS _ _ _ Hx)].
  - rewrite unix_size_spec in Hrun. injection Hrun as _ <-.
    split; [|reflexivity].
    destruct Hact. now constructor.
  - split; [|reflexivity]. destruct Hact. now constructor.
Qed.

Lemma reachable_active s0 s :
  reachable s0 s -> active s /\ CK_CONSOLE_ORIG_SETTS s = tty s0.
Proof.
  induction 1 as [r1 r2 s Hinit|s s' _ [IHact IHorig] Hstep].
  - apply ck_init_returns in Hinit. split; [apply Hinit|apply (init_ORIG _ _ Hinit)].
  - destruct (step_active s s' IHact Hstep) as [Hact Horig].
    split; [exact Hact|congruence].
Qed.

(** The capacity never goes down in a step. *)
Lemma step_SIZE s s' :
  active s -> step s s' -> CK_SCREEN_BUFFER_SIZE s <= CK_SCREEN_BUFFER_SIZE s'.
Proof.
  intros Hact Hstep.
  destruct Hstep as [fuel r buffer s s' Hin Hrun|s s' Hrun|g p s s' Hrun
                    |incoming c s s' Hrun|hit s s' Hrun|dims size s s' Hrun|keys s].
  - destruct r as [|moved junk].
    + destruct (ck_print_fails fuel buffer s Hact Hin) as [[E _]|(x & E & _)];
        congruence.
    + destruct (ck_print_spec fuel moved junk buffer s Hact Hin) as [[E _]|(x & E & Hx)];
        [congruence|].
      assert (x = s') by congruence. subst x.
      destruct (app_SIZE _ _ _ Hx) as (k & -> & _). unfold CK_ALLOC_SIZE. lia.
  - destruct (ck_flip_spec s Hact) as (x & E & Hx).
    assert (x = s') by congruence. subst x.
    rewrite (fl_SIZE _ _ Hx). lia.
  - destruct (generate_spec g s Hact) as (p' & x & E & Hx).
    assert (x = s') by congruence. subst x.
    rewrite (fmt_SIZE _ _ _ _ Hx). lia.
  - destruct (getch_returns incoming c s s' (act_tty s Hact) Hrun) as (v & Hx & _).
    rewrite (same_SIZE _ _ (br_buffers _ _ _ Hx)). lia.
  - destruct (kbhit_spec s (act_tty s Hact)) as (rev & x & E & Hx & _).
    assert (x = s') by congruence. subst x.
    rewrite (same_SIZE _ _ (br_buffers _ _ _ Hx)). lia.
  - rewrite unix_size_spec in Hrun. injection Hrun as _ <-. cbn. lia.
  - cbn. lia.
Qed.

Lemma steps_SIZE s s' :
  active s -> steps s s' -> CK_SCREEN_BUFFER_SIZE s <= CK_SCREEN_BUFFER_SIZE s'.
Proof.
  intros Hact Hsteps. induction Hsteps as [s|s s' s'' Hstep _ IH]; [lia|].
  pose proof (step_SIZE s s' Hact Hstep).
  destruct (step_active s s' Hact Hstep) as [Hact' _].
  specialize (IH Hact'). lia.
Qed.

Lemma reachable_steps s0 s s' : reachable s0 s -> steps s s' -> reachable s0 s'.
Proof.
  intros Hreach Hsteps. induction Hsteps as [s|s s' s'' Hstep _ IH]; [exact Hreach|].
  apply IH. eapply reachable_step; eassumption.
Qed.

(** In an active state the queued text is there to read and leaves room
    for its terminator. *)
Lemma active_text s :
  active s ->
  exists text,
    screen_text s = Some text /\
    Z.of_nat (length text) < CK_SCREEN_BUFFER_SIZE s /\
    (Z.of_nat (length text) + 2 <= CK_SCREEN_BUFFER_END s \/
     (CK_SCREEN_BUFFER_END s = 0 /\ text = [])).
Proof.
  intros [(scr & Hscr & Hlen & Hterm & Hslack) _ _ _ _ _ _].
  exists (cstr scr). unfold screen_text, text_at. rewrite Hscr, Hterm.
  split; [reflexivity|].
  pose proof (strlen_lt_length scr Hterm) as Hlt. unfold strlen in *.
  split; [lia|].
  destruct Hslack as [H|[H1 H2]]; [now left|right].
  split; [exact H1|]. destruct (cstr scr); [reflexivity|cbn in H2; lia].
Qed.

(* ================================================================= *)
(** * The properties of the specification *)

(** ** The counter and the text (C1, C2) *)

(** Budget one is enough when the demand is within the capacity. *)
Lemma enough_within fuel s buffer :
  demand s buffer <= CK_SCREEN_BUFFER_SIZE s -> enough (S fuel) s buffer.
Proof. unfold enough, CK_ALLOC_SIZE. intros H. split; lia. Qed.

(** C1, on the code: after [ck_init] and [ck_print("hello")] the buffer
    holds the five characters of [hello], yet [CK_SCREEN_BUFFER_END] is 7:
    an append adds the length of its string and two more to the counter, so
    the counter is not the sum of the lengths. *)
Theorem ck_print_hello_END s0 fuel moved junk :
  exists s1 s2,
    Unix.ck_init AllocOk AllocOk s0 = Returns tt s1 /\
    ck_print (S fuel) (ReallocOk moved junk) (str "hello") s1 = Returns tt s2 /\
    strlen (str "hello") = 5 /\
    screen_text s2 = Some (str "hello") /\
    CK_SCREEN_BUFFER_END s2 = 7.
Proof.
  destruct (ck_init_spec s0) as (s1 & Hinit & H1).
  assert (Hin : in_bounds s1 (str "hello")).
  { unfold in_bounds. rewrite (init_END _ _ H1). now unfold CK_ALLOC_SIZE, SIZE_MAX. }
  destruct (ck_print_spec (S fuel) moved junk (str "hello") s1 (init_active _ _ H1) Hin)
    as [[_ Hno]|(s2 & Hprint & H2)].
  { exfalso. apply Hno, enough_within. unfold demand.
    rewrite (init_END _ _ H1), (init_SIZE _ _ H1). now unfold CK_ALLOC_SIZE. }
  exists s1, s2. split; [exact Hinit|]. split; [exact Hprint|].
  split; [reflexivity|]. split.
  - destruct (app_text _ _ _ H2) as (text & Ht & Ht').
    rewrite (init_text _ _ H1) in Ht. injection Ht as <-. exact Ht'.
  - rewrite (app_END _ _ _ H2), (init_END _ _ H1). reflexivity.
Qed.

Lemma counted_nonneg items : 0 <= counted items.
Proof.
  induction items as [|[r b] rest IH]; [cbn; lia|].
  cbn [counted fold_right snd]. fold (counted rest).
  pose proof (strlen_nonneg b). lia.
Qed.

Lemma length_joined items :
  Z.of_nat (length (joined items)) + 2 * Z.of_nat (length items) = counted items.
Proof.
  induction items as [|[r b] rest IH]; [reflexivity|].
  unfold joined in *. cbn [map concat counted fold_right snd length].
  fold (counted rest). rewrite length_app. unfold strlen. lia.
Qed.

(** What the code does in place of C1: appends whose counter stays within
    bounds go through, the text is the strings one after the other, and
    [CK_SCREEN_BUFFER_END] goes up by the sum of their lengths and by two
    for each of them. *)
Lemma ck_print_all_spec items : forall fuel s,
  active s ->
  Forall (fun item => succeeds (fst item)) items ->
  CK_SCREEN_BUFFER_END s + counted items + CK_ALLOC_SIZE <= SIZE_MAX ->
  CK_SCREEN_BUFFER_END s + counted items <= Z.of_nat fuel * CK_ALLOC_SIZE ->
  exists s' text,
    ck_print_all fuel items s = Returns tt s' /\
    active s' /\
    CK_SCREEN_BUFFER_END s' = CK_SCREEN_BUFFER_END s + counted items /\
    screen_text s = Some text /\
    screen_text s' = Some (text ++ joined items).
Proof.
  induction items as [|[r b] rest IH]; intros fuel s Hact Hok Hfit Hfuel.
  - destruct (active_text s Hact) as (text & Ht & _).
    exists s, text. unfold joined. cbn [ck_print_all counted fold_right map concat].
    rewrite app_nil_r, Z.add_0_r. unfold ret. auto.
  - inversion Hok as [|x l Hr Hrest]; subst. cbn in Hr.
    destruct r as [|moved junk]; [contradiction|].
    cbn [counted fold_right snd] in Hfit, Hfuel. fold (counted rest) in Hfit, Hfuel.
    pose proof (counted_nonneg rest) as Hc. pose proof (strlen_nonneg b) as Hb.
    pose proof (act_SIZE s Hact) as HS. pose proof (act_END s Hact) as HE.
    assert (Hin : in_bounds s b) by (unfold in_bounds; lia).
    destruct (ck_print_spec fuel moved junk b s Hact Hin) as [[_ Hno]|(s1 & Hprint & H1)].
    { exfalso. apply Hno. unfold enough, demand. unfold CK_ALLOC_SIZE in *. split; lia. }
    destruct (IH fuel s1 (app_active _ _ _ H1) Hrest) as (s' & text1 & Hrun & Hact' & Hend & Ht1 & Ht');
      try (rewrite (app_END _ _ _ H1); lia).
    destruct (app_text _ _ _ H1) as (text & Ht & Ht1').
    exists s', text. cbn [ck_print_all]. unfold bind. rewrite Hprint.
    split; [exact Hrun|]. split; [exact Hact'|].
    split; [rewrite Hend, (app_END _ _ _ H1); cbn [counted fold_right snd];
            fold (counted rest); lia|].
    split; [exact Ht|].
    rewrite Ht'. rewrite Ht1' in Ht1. injection Ht1 as <-.
    unfold joined. cbn [map concat snd]. now rewrite app_assoc.
Qed.

(** The counter [CK_SCREEN_BUFFER_END] is not the length of the text: it
    runs ahead by two per append (see C1) and can reach the capacity.
    After [ck_init] and one append of 98 characters it is 100 and so is the
    capacity. *)
Lemma END_reaches_SIZE :
  reachable (process_start cooked []) full /\
  CK_SCREEN_BUFFER_END full = 100 /\
  CK_SCREEN_BUFFER_SIZE full = 100 /\
  ~ (CK_SCREEN_BUFFER_END full < CK_SCREEN_BUFFER_SIZE full).
Proof.
  split; [|split; [vm_compute; reflexivity|split; [vm_compute; reflexivity|]]].
  - apply (reachable_step _ started full).
    + apply (reachable_init _ AllocOk AllocOk). vm_compute. reflexivity.
    + apply (step_print 1 (ReallocOk false (fun _ => NUL)) (replicate 98 "a"%char)).
      * unfold in_bounds. vm_compute. discriminate.
      * vm_compute. reflexivity.
  - vm_compute. intros H. discriminate H.
Qed.

(** C2: at every point after [ck_init], whatever was appended, flushed,
    generated, read or queried since, the logical content of the screen
    buffer, the text it holds without its terminator, is strictly shorter
    than the capacity, so there is room for the terminator.  (The counter
    [CK_SCREEN_BUFFER_END], which over-counts, is still at most the
    capacity.) *)
Theorem text_below_capacity s0 s :
  reachable s0 s ->
  exists text,
    screen_text s = Some text /\
    Z.of_nat (length text) < CK_SCREEN_BUFFER_SIZE s /\
    CK_SCREEN_BUFFER_END s <= CK_SCREEN_BUFFER_SIZE s.
Proof.
  intros Hreach. destruct (reachable_active s0 s Hreach) as [Hact _].
  destruct (active_text s Hact) as (text & Ht & Hlt & _).
  exists text. split; [exact Ht|]. split; [exact Hlt|].
  apply (act_END s Hact).
Qed.

Lemma text_below_capacity_witness :
  exists text,
    screen_text full = Some text /\
    Z.of_nat (length text) < CK_SCREEN_BUFFER_SIZE full /\
    CK_SCREEN_BUFFER_END full <= CK_SCREEN_BUFFER_SIZE full.
Proof.
  apply (text_below_capacity (process_start cooked []) full).
  apply (reachable_step _ started full).
  - apply (reachable_init _ AllocOk AllocOk). vm_compute. reflexivity.
  - apply (step_print 1 (ReallocOk false (fun _ => NUL)) (replicate 98 "a"%char)).
    + unfold in_bounds. vm_compute. discriminate.
    + vm_compute. reflexivity.
Defined.

(** ** The scenario (C3) *)

(** C3: after [ck_init], [ck_print("hello")], [ck_print(" world")] and
    [ck_flip], whatever the allocator does short of failing, the output has
    grown by exactly ["\033[H"] followed by ["hello world"], the counter is
    0 and the buffer holds the empty string. *)
Theorem hello_world_scenario s0 fuel1 moved1 junk1 fuel2 moved2 junk2 :
  exists s1 s2 s3 s4,
    Unix.ck_init AllocOk AllocOk s0 = Returns tt s1 /\
    ck_print (S fuel1) (ReallocOk moved1 junk1) (str "hello") s1 = Returns tt s2 /\
    ck_print (S fuel2) (ReallocOk moved2 junk2) (str " world") s2 = Returns tt s3 /\
    ck_flip s3 = Returns tt s4 /\
    stdout s4 = stdout s0 ++ [ESC] ++ str "[H" ++ str "hello world" /\
    CK_SCREEN_BUFFER_END s4 = 0 /\
    screen_text s4 = Some [].
Proof.
  destruct (ck_init_spec s0) as (s1 & Hinit & H1).
  assert (Hin1 : in_bounds s1 (str "hello")).
  { unfold in_bounds. rewrite (init_END _ _ H1). now unfold CK_ALLOC_SIZE, SIZE_MAX. }
  destruct (ck_print_spec (S fuel1) moved1 junk1 (str "hello") s1 (init_active _ _ H1) Hin1)
    as [[_ Hno]|(s2 & Hprint1 & H2)].
  { exfalso. apply Hno, enough_within. unfold demand.
    rewrite (init_END _ _ H1), (init_SIZE _ _ H1). now unfold CK_ALLOC_SIZE. }
  assert (HE2 : CK_SCREEN_BUFFER_END s2 = 7).
  { rewrite (app_END _ _ _ H2), (init_END _ _ H1). reflexivity. }
  assert (HS2 : CK_SCREEN_BUFFER_SIZE s1 <= CK_SCREEN_BUFFER_SIZE s2).
  { destruct (app_SIZE _ _ _ H2) as (k & -> & _). unfold CK_ALLOC_SIZE. lia. }
  rewrite (init_SIZE _ _ H1) in HS2.
  assert (Hin2 : in_bounds s2 (str " world")).
  { unfold in_bounds. rewrite HE2. now unfold CK_ALLOC_SIZE, SIZE_MAX. }
  destruct (ck_print_spec (S fuel2) moved2 junk2 (str " world") s2 (app_active _ _ _ H2) Hin2)
    as [[_ Hno]|(s3 & Hprint2 & H3)].
  { exfalso. apply Hno, enough_within. unfold demand. rewrite HE2.
    change (strlen (str " world")) with 6. unfold CK_ALLOC_SIZE in HS2. lia. }
  destruct (ck_flip_spec s3 (app_active _ _ _ H3)) as (s4 & Hflip & H4).
  exists s1, s2, s3, s4. repeat (split; [assumption|]).
  split; [|split; [apply (fl_END _ _ H4)|apply (fl_text _ _ H4)]].
  destruct (fl_stdout _ _ H4) as (text & Ht & Hout).
  destruct (app_text _ _ _ H3) as (text2 & Ht2 & Ht3).
  destruct (app_text _ _ _ H2) as (text1 & Ht1 & Ht2').
  rewrite (init_text _ _ H1) in Ht1. injection Ht1 as <-.
  rewrite Ht2' in Ht2. injection Ht2 as <-.
  rewrite Ht3 in Ht. injection Ht as <-.
  rewrite Hout.
  rewrite (same_stdout _ _ (app_console _ _ _ H3)).
  rewrite (same_stdout _ _ (app_console _ _ _ H2)).
  rewrite (init_stdout _ _ H1). reflexivity.
Qed.

(** ** The size query (C4, C10) *)

(** C4: take two calls of [ck_current_console_size] in a row, the system
    reporting [d1] to the first and [d2] to the second.  Each answer is the
    retained value after the call and carries the reported dimensions.  The
    second answer has [has_changed = false] exactly when [d2] is what the
    first call retained, and then its dimensions are those of the first
    answer; otherwise it has [has_changed = true] with the dimensions of
    [d2], which are retained.  On Windows the reported dimensions are the
    ones computed from the window rectangle. *)
Theorem consecutive_size_queries s :
  (forall d1 d2,
     exists a1 s1 a2 s2,
       Unix.ck_current_console_size d1 s = Returns a1 s1 /\
       Unix.ck_current_console_size d2 s1 = Returns a2 s2 /\
       knownSize s1 = a1 /\ knownSize s2 = a2 /\
       width a1 = Unix.ws_col d1 /\ height a1 = Unix.ws_row d1 /\
       width a2 = Unix.ws_col d2 /\ height a2 = Unix.ws_row d2 /\
       has_changed a2 =
         negb ((Unix.ws_col d2 =? width a1) && (Unix.ws_row d2 =? height a1))) /\
  (forall r1 r2,
     let w (r : Win32.SMALL_RECT) := size_t (Win32.Right r - Win32.Left r + 1) in
     let h (r : Win32.SMALL_RECT) := size_t (Win32.Bottom r - Win32.Top r + 1) in
     exists a1 s1 a2 s2,
       Win32.ck_current_console_size r1 s = Returns a1 s1 /\
       Win32.ck_current_console_size r2 s1 = Returns a2 s2 /\
       knownSize s1 = a1 /\ knownSize s2 = a2 /\
       width a1 = w r1 /\ height a1 = h r1 /\
       width a2 = w r2 /\ height a2 = h r2 /\
       has_changed a2 = negb ((w r2 =? width a1) && (h r2 =? height a1))).
Proof.
  split.
  - intros d1 d2.
    eexists _, _, _, _.
    split; [apply unix_size_spec|]. split; [apply unix_size_spec|].
    cbn [knownSize set_knownSize].
    destruct (Z.eqb_spec (Unix.ws_col d1) (width (knownSize s))) as [E1|E1];
      destruct (Z.eqb_spec (Unix.ws_row d1) (height (knownSize s))) as [E2|E2];
      cbn [andb width height has_changed];
      rewrite <- ?E1, <- ?E2;
      destruct (Unix.ws_col d2 =? Unix.ws_col d1) eqn:F1;
      destruct (Unix.ws_row d2 =? Unix.ws_row d1) eqn:F2;
      cbn [andb width height has_changed negb];
      rewrite ?Z.eqb_eq in *; subst; repeat split; congruence.
  - intros r1 r2 w h.
    eexists _, _, _, _.
    split; [apply win32_size_spec|]. split; [apply win32_size_spec|].
    cbn [knownSize set_knownSize]. fold (w r1) (h r1) (w r2) (h r2).
    destruct (Z.eqb_spec (w r1) (width (knownSize s))) as [E1|E1];
      destruct (Z.eqb_spec (h r1) (height (knownSize s))) as [E2|E2];
      cbn [andb width height has_changed];
      rewrite <- ?E1, <- ?E2;
      destruct (w r2 =? w r1) eqn:F1;
      destruct (h r2 =? h r1) eqn:F2;
      cbn [andb width height has_changed negb];
      rewrite ?Z.eqb_eq in *; repeat split; congruence.
Qed.

(** A process starts with the retained size at zero, and [ck_init] leaves
    it there. *)
Lemma knownSize_started t pending r1 r2 s :
  Unix.ck_init r1 r2 (process_start t pending) = Returns tt s ->
  knownSize s = mk_console_size 0 0 false.
Proof. intros H. apply ck_init_returns in H. now rewrite (init_knownSize _ _ H). Qed.

(** C10: while the retained size still has its initial value [{0, 0, 0}],
    that is at the first query, the answer carries the reported dimensions
    and its [has_changed] is true unless both of them are 0, on both
    backends. *)
Theorem first_size_query s :
  knownSize s = mk_console_size 0 0 false ->
  (forall dims,
     exists answer s',
       Unix.ck_current_console_size dims s = Returns answer s' /\
       width answer = Unix.ws_col dims /\ height answer = Unix.ws_row dims /\
       has_changed answer = negb ((Unix.ws_col dims =? 0) && (Unix.ws_row dims =? 0))) /\
  (forall rect,
     let w := size_t (Win32.Right rect - Win32.Left rect + 1) in
     let h := size_t (Win32.Bottom rect - Win32.Top rect + 1) in
     exists answer s',
       Win32.ck_current_console_size rect s = Returns answer s' /\
       width answer = w /\ height answer = h /\
       has_changed answer = negb ((w =? 0) && (h =? 0))).
Proof.
  intros Hzero. split.
  - intros dims. eexists _, _. split; [apply unix_size_spec|].
    rewrite Hzero. cbn [width height].
    destruct (Z.eqb_spec (Unix.ws_col dims) 0) as [E1|E1];
      destruct (Z.eqb_spec (Unix.ws_row dims) 0) as [E2|E2];
      cbn [andb width height has_changed negb]; repeat split; congruence.
  - intros rect w h. eexists _, _. split; [apply win32_size_spec|].
    rewrite Hzero. cbn [width height]. fold w h.
    destruct (Z.eqb_spec w 0) as [E1|E1];
      destruct (Z.eqb_spec h 0) as [E2|E2];
      cbn [andb width height has_changed negb]; repeat split; congruence.
Qed.

Lemma first_size_query_witness :
  (exists answer s',
     Unix.ck_current_console_size (Unix.mk_winsize 24 80) started = Returns answer s' /\
     width answer = 80 /\ height answer = 24 /\
     has_changed answer = true) /\
  (exists answer s',
     Win32.ck_current_console_size (Win32.mk_rect 0 0 79 24) started = Returns answer s' /\
     width answer = 80 /\ height answer = 25 /\
     has_changed answer = true).
Proof.
  assert (Hzero : knownSize started = mk_console_size 0 0 false)
    by (vm_compute; reflexivity).
  split.
  - exact (proj1 (first_size_query started Hzero) (Unix.mk_winsize 24 80)).
  - exact (proj2 (first_size_query started Hzero) (Win32.mk_rect 0 0 79 24)).
Defined.

(** ** The generators and the literal macros (C5, C7) *)

Lemma digit_not_nul d : 0 <= d < 10 -> digit d <> NUL.
Proof.
  intros H.
  assert (d = 0 \/ d = 1 \/ d = 2 \/ d = 3 \/ d = 4 \/
          d = 5 \/ d = 6 \/ d = 7 \/ d = 8 \/ d = 9) as Hd by lia.
  repeat (destruct Hd as [->|Hd]; [discriminate|]). subst d. discriminate.
Qed.

Lemma decimal_no_nul w : forall n acc,
  Forall (fun c => c <> NUL) acc -> Forall (fun c => c <> NUL) (decimal w n acc).
Proof.
  induction w as [|w IH]; intros n acc Hacc; cbn [decimal]; [exact Hacc|].
  assert (Hd : Forall (fun c => c <> NUL) (digit (n mod 10) :: acc)).
  { constructor; [|exact Hacc]. apply digit_not_nul, Z.mod_pos_bound. lia. }
  destruct (n / 10 =? 0); [exact Hd|]. now apply IH.
Qed.

Lemma cstr_all text : Forall (fun c => c <> NUL) text -> cstr text = text.
Proof.
  induction 1 as [|c text Hc _ IH]; [reflexivity|]. cbn [cstr].
  destruct (Ascii.eqb_spec c NUL); [contradiction|]. now rewrite IH.
Qed.

(** A colour or a goto sequence is read back whole; so is a move unless its
    direction character is NUL. *)
Lemma cstr_sequence_of g :
  (forall n, g <> GenMove NUL n) -> cstr (sequence_of g) = sequence_of g.
Proof.
  intros Hg. apply cstr_all.
  destruct g as [w r g b|x y|w n]; cbn [sequence_of];
    unfold rgb_format, goto_format, move_format, fmt_c, fmt_zu, fmt_d_uchar;
    repeat (apply Forall_app; split);
    try (apply decimal_no_nul; constructor);
    try (repeat constructor; discriminate).
  constructor; [|constructor]. intros ->. now apply (Hg n).
Qed.

(** The literal macros, given the decimal spellings of the numbers, expand
    to what the generators format. *)
Lemma literal_forms_agree :
  (forall r g b,
     let spell n := string_of_list_ascii (fmt_d_uchar n) in
     ck_fg_rgb_l (spell r) (spell g) (spell b) = rgb_format 38 r g b /\
     ck_bg_rgb_l (spell r) (spell g) (spell b) = rgb_format 48 r g b) /\
  (forall x y,
     let spell n := string_of_list_ascii (fmt_zu n) in
     ck_cursor_goto_l (spell x) (spell y) = goto_format x y) /\
  (forall amount,
     let spell n := string_of_list_ascii (fmt_zu n) in
     ck_cursor_up_l (spell amount) = move_format "A" amount /\
     ck_cursor_down_l (spell amount) = move_format "B" amount /\
     ck_cursor_right_l (spell amount) = move_format "C" amount /\
     ck_cursor_left_l (spell amount) = move_format "D" amount).
Proof.
  unfold ck_fg_rgb_l, ck_bg_rgb_l, ck_cursor_goto_l, ck_cursor_up_l, ck_cursor_down_l,
    ck_cursor_right_l, ck_cursor_left_l, rgb_format, goto_format, move_format, str.
  split; [|split]; intros; cbv zeta; repeat split;
    rewrite !list_ascii_of_string_of_list_ascii; reflexivity.
Qed.

(** *** Numerals and what the directives print *)

Lemma number_of_snoc ds d : number_of (ds ++ [d]) = 10 * number_of ds + (code d - 48).
Proof. unfold number_of. now rewrite fold_left_app. Qed.

Lemma is_digit_code c : is_digit c = true -> 0 <= code c - 48 < 10.
Proof. unfold is_digit. intros H. apply andb_prop in H. lia. Qed.

Lemma digit_of_code c : is_digit c = true -> digit (code c - 48) = c.
Proof.
  intros H. unfold digit. replace (48 + (code c - 48)) with (code c) by lia.
  unfold code. rewrite N2Z.id. apply ascii_N_embedding.
Qed.

Lemma number_of_nonneg ds : forallb is_digit ds = true -> 0 <= number_of ds.
Proof.
  induction ds as [|d ds IH] using rev_ind; intros H; [now unfold number_of|].
  rewrite forallb_app in H. apply andb_prop in H. destruct H as [Hds Hd].
  cbn in Hd. apply andb_prop in Hd. destruct Hd as [Hd _].
  rewrite number_of_snoc. pose proof (is_digit_code d Hd). specialize (IH Hds). lia.
Qed.

(** A numeral that does not start with a zero denotes a positive number. *)
Lemma number_of_pos c rest :
  forallb is_digit (c :: rest) = true -> c <> "0"%char -> 0 < number_of (c :: rest).
Proof.
  revert c. induction rest as [|d rest IH] using rev_ind; intros c H Hc.
  - cbn in H. apply andb_prop in H. destruct H as [H _].
    pose proof (is_digit_code c H) as Hr.
    unfold number_of. cbn [fold_left]. fold (code c).
    destruct (Z.eq_dec (code c) 48) as [E|E]; [|lia].
    exfalso. apply Hc. rewrite <- (digit_of_code c H), E. reflexivity.
  - rewrite app_comm_cons, forallb_app in H. apply andb_prop in H. destruct H as [Hds Hd].
    cbn in Hd. apply andb_prop in Hd. destruct Hd as [Hd _].
    rewrite app_comm_cons, number_of_snoc.
    pose proof (is_digit_code d Hd). specialize (IH c Hds Hc). lia.
Qed.

(** Printing the number a numeral denotes gives the numeral back, when it
    has no leading zero. *)
Lemma decimal_number_of ds :
  forallb is_digit ds = true -> ds <> [] ->
  (forall c rest, ds = c :: rest -> rest <> [] -> c <> "0"%char) ->
  forall w, (0 < w)%nat -> number_of ds < 10 ^ Z.of_nat w ->
  decimal w (number_of ds) [] = ds.
Proof.
  induction ds as [|d init IH] using rev_ind; intros Hdig Hne Hlead w Hw Hlt;
    [contradiction|].
  rewrite forallb_app in Hdig. apply andb_prop in Hdig. destruct Hdig as [Hinit Hd].
  cbn in Hd. apply andb_prop in Hd. destruct Hd as [Hd _].
  pose proof (is_digit_code d Hd) as Hv.
  pose proof (number_of_nonneg init Hinit) as Hm.
  rewrite number_of_snoc in Hlt |- *.
  destruct w as [|w]; [lia|]. cbn [decimal].
  assert (Hmod : (10 * number_of init + (code d - 48)) mod 10 = code d - 48).
  { symmetry. apply (Z.mod_unique_pos _ _ (number_of init)); lia. }
  assert (Hdiv : (10 * number_of init + (code d - 48)) / 10 = number_of init).
  { symmetry. apply (Z.div_unique_pos _ _ _ (code d - 48)); lia. }
  rewrite Hmod, Hdiv, (digit_of_code d Hd).
  destruct init as [|c rest].
  - reflexivity.
  - assert (Hc : c <> "0"%char).
    { apply (Hlead c (rest ++ [d])); [reflexivity|]. now destruct rest. }
    pose proof (number_of_pos c rest Hinit Hc) as Hpos.
    destruct (Z.eqb_spec (number_of (c :: rest)) 0) as [E|_]; [lia|].
    rewrite decimal_app. f_equal.
    rewrite Nat2Z.inj_succ, Z.pow_succ_r in Hlt by lia.
    apply IH.
    + exact Hinit.
    + discriminate.
    + intros c' rest' [= <- <-] _. exact Hc.
    + destruct w as [|w]; [|lia].
      change (Z.of_nat 0) with 0 in Hlt. rewrite Z.pow_0_r in Hlt. lia.
    + lia.
Qed.

Lemma numeral_decimal sp w :
  numeral sp = true -> (0 < w)%nat -> value sp < 10 ^ Z.of_nat w ->
  decimal w (value sp) [] = str sp /\ 0 <= value sp.
Proof.
  unfold numeral, value. intros Hnum Hw Hlt.
  destruct (str sp) as [|c rest] eqn:E; [discriminate|].
  assert (Hdig : forallb is_digit (c :: rest) = true).
  { destruct rest; [cbn; now rewrite Hnum|]. now apply andb_prop in Hnum. }
  split; [|now apply number_of_nonneg].
  apply decimal_number_of; try assumption; [discriminate|].
  intros c' rest' [= <- <-] Hrest.
  destruct rest as [|d rest]; [contradiction|].
  apply andb_prop in Hnum. destruct Hnum as [Hc _].
  intros ->. discriminate Hc.
Qed.

(** [%zu] and [%d] print a numeral in range as it is spelled. *)
Lemma fmt_zu_numeral sp :
  numeral sp = true -> value sp <= SIZE_MAX -> fmt_zu (value sp) = str sp.
Proof.
  intros Hnum Hmax.
  assert (Hlt : value sp < 10 ^ Z.of_nat 20).
  { change (10 ^ Z.of_nat 20) with 100000000000000000000. unfold SIZE_MAX in Hmax.
    change (2 ^ 64) with 18446744073709551616 in Hmax. lia. }
  destruct (numeral_decimal sp 20 Hnum ltac:(lia) Hlt) as [Hdec Hpos].
  unfold fmt_zu. now rewrite size_t_small by lia.
Qed.

Lemma fmt_d_uchar_numeral sp :
  numeral sp = true -> value sp <= 255 -> fmt_d_uchar (value sp) = str sp.
Proof.
  intros Hnum Hmax.
  assert (Hlt : value sp < 10 ^ Z.of_nat 3) by (change (10 ^ Z.of_nat 3) with 1000; lia).
  destruct (numeral_decimal sp 3 Hnum ltac:(lia) Hlt) as [Hdec Hpos].
  unfold fmt_d_uchar, uchar. now rewrite Z.mod_small by lia.
Qed.

(** C5 as stated fails: a literal macro pastes the spelling of its
    argument, a generator prints its value.  [ck_cursor_up(007)] leaves
    ["\033[7A"] where [ck_cursor_up_l(007)] is ["\033[007A"];
    [ck_cursor_up(0x10)] leaves ["\033[16A"] where [ck_cursor_up_l(0x10)] is
    ["\033[0x10A"]; and [ck_fg_rgb(256, 0, 0)], whose parameters are
    [unsigned char], leaves ["\033[38;2;0;0;0m"] where
    [ck_fg_rgb_l(256, 0, 0)] is ["\033[38;2;256;0;0m"]. *)
Lemma literal_spelling_matters :
  (exists p s',
     ck_cursor_up 7 started = Returns p s' /\
     text_at s' p = Some ([ESC] ++ str "[7A") /\
     ck_cursor_up_l "007" = [ESC] ++ str "[007A" /\
     Some (ck_cursor_up_l "007") <> text_at s' p) /\
  (exists p s',
     ck_cursor_up 16 started = Returns p s' /\
     text_at s' p = Some ([ESC] ++ str "[16A") /\
     ck_cursor_up_l "0x10" = [ESC] ++ str "[0x10A" /\
     Some (ck_cursor_up_l "0x10") <> text_at s' p) /\
  (exists p s',
     ck_fg_rgb 256 0 0 started = Returns p s' /\
     text_at s' p = Some ([ESC] ++ str "[38;2;0;0;0m") /\
     ck_fg_rgb_l "256" "0" "0" = [ESC] ++ str "[38;2;256;0;0m" /\
     Some (ck_fg_rgb_l "256" "0" "0") <> text_at s' p).
Proof.
  split; [|split]; eexists _, _;
    (split; [vm_compute; reflexivity|]);
    (split; [vm_compute; reflexivity|]);
    (split; [vm_compute; reflexivity|]);
    vm_compute; discriminate.
Qed.

(** C5, amended: in any state reached after [ck_init], for parameters
    written as decimal numerals without a leading zero and within the range
    of the parameter type (up to 255 for a colour component, up to
    [SIZE_MAX] for a coordinate or an amount), each of the seven generated
    operations leaves behind the pointer it returns exactly what its
    literal macro expands to for the same spellings.  So
    [ck_cursor_goto(10, 5)] leaves ["\033[5;10H"], which is
    [ck_cursor_goto_l(10, 5)]; [ck_fg_rgb(255, 0, 0)] leaves
    ["\033[38;2;255;0;0m"], which is [ck_fg_rgb_l(255, 0, 0)]; and
    [ck_cursor_up(3)] leaves ["\033[3A"], which is [ck_cursor_up_l(3)]. *)
Theorem generated_equals_literal s0 s :
  reachable s0 s ->
  (forall r g b,
     numeral r = true -> numeral g = true -> numeral b = true ->
     value r <= 255 -> value g <= 255 -> value b <= 255 ->
     (exists p s',
        ck_fg_rgb (value r) (value g) (value b) s = Returns p s' /\
        text_at s' p = Some (ck_fg_rgb_l r g b)) /\
     (exists p s',
        ck_bg_rgb (value r) (value g) (value b) s = Returns p s' /\
        text_at s' p = Some (ck_bg_rgb_l r g b))) /\
  (forall x y,
     numeral x = true -> numeral y = true ->
     value x <= SIZE_MAX -> value y <= SIZE_MAX ->
     exists p s',
       ck_cursor_goto (value x) (value y) s = Returns p s' /\
       text_at s' p = Some (ck_cursor_goto_l x y)) /\
  (forall amount,
     numeral amount = true -> value amount <= SIZE_MAX ->
     (exists p s',
        ck_cursor_up (value amount) s = Returns p s' /\
        text_at s' p = Some (ck_cursor_up_l amount)) /\
     (exists p s',
        ck_cursor_down (value amount) s = Returns p s' /\
        text_at s' p = Some (ck_cursor_down_l amount)) /\
     (exists p s',
        ck_cursor_right (value amount) s = Returns p s' /\
        text_at s' p = Some (ck_cursor_right_l amount)) /\
     (exists p s',
        ck_cursor_left (value amount) s = Returns p s' /\
        text_at s' p = Some (ck_cursor_left_l amount))) /\
  (exists p s',
     ck_cursor_goto 10 5 s = Returns p s' /\
     text_at s' p = Some ([ESC] ++ str "[5;10H") /\
     ck_cursor_goto_l "10" "5" = [ESC] ++ str "[5;10H") /\
  (exists p s',
     ck_fg_rgb 255 0 0 s = Returns p s' /\
     text_at s' p = Some ([ESC] ++ str "[38;2;255;0;0m") /\
     ck_fg_rgb_l "255" "0" "0" = [ESC] ++ str "[38;2;255;0;0m") /\
  (exists p s',
     ck_cursor_up 3 s = Returns p s' /\
     text_at s' p = Some ([ESC] ++ str "[3A") /\
     ck_cursor_up_l "3" = [ESC] ++ str "[3A").
Proof.
  intros Hreach. destruct (reachable_active s0 s Hreach) as [Hact _].
  assert (Hgen : forall g, (forall n, g <> GenMove NUL n) ->
            exists p s', generate g s = Returns p s' /\ text_at s' p = Some (sequence_of g)).
  { intros g Hg. destruct (generate_spec g s Hact) as (p & s' & Hrun & H).
    exists p, s'. split; [exact Hrun|].
    rewrite <- (cstr_sequence_of g Hg). apply (fmt_text _ _ _ _ H). }
  split; [|split; [|split; [|split; [|split]]]].
  - intros r g b Hr Hg Hb Mr Mg Mb.
    assert (Hfg : ck_fg_rgb_l r g b = sequence_of (GenRgb 38 (value r) (value g) (value b))).
    { cbn [sequence_of]. unfold ck_fg_rgb_l, rgb_format.
      now rewrite (fmt_d_uchar_numeral r Hr Mr), (fmt_d_uchar_numeral g Hg Mg),
        (fmt_d_uchar_numeral b Hb Mb). }
    assert (Hbg : ck_bg_rgb_l r g b = sequence_of (GenRgb 48 (value r) (value g) (value b))).
    { cbn [sequence_of]. unfold ck_bg_rgb_l, rgb_format.
      now rewrite (fmt_d_uchar_numeral r Hr Mr), (fmt_d_uchar_numeral g Hg Mg),
        (fmt_d_uchar_numeral b Hb Mb). }
    rewrite Hfg, Hbg.
    split; [apply (Hgen (GenRgb 38 (value r) (value g) (value b)))
           |apply (Hgen (GenRgb 48 (value r) (value g) (value b)))]; discriminate.
  - intros x y Hx Hy Mx My.
    assert (H : ck_cursor_goto_l x y = sequence_of (GenGoto (value x) (value y))).
    { cbn [sequence_of]. unfold ck_cursor_goto_l, goto_format.
      now rewrite (fmt_zu_numeral x Hx Mx), (fmt_zu_numeral y Hy My). }
    rewrite H. apply (Hgen (GenGoto (value x) (value y))). discriminate.
  - intros n Hn Mn.
    assert (H : forall w : ascii,
              [ESC] ++ str "[" ++ str n ++ [w] = sequence_of (GenMove w (value n))).
    { intros w. cbn [sequence_of]. unfold move_format, fmt_c.
      now rewrite (fmt_zu_numeral n Hn Mn). }
    unfold ck_cursor_up_l, ck_cursor_down_l, ck_cursor_right_l, ck_cursor_left_l.
    change (str "A") with ["A"%char]. change (str "B") with ["B"%char].
    change (str "C") with ["C"%char]. change (str "D") with ["D"%char].
    rewrite !H.
    repeat split;
      [apply (Hgen (GenMove "A" (value n)))|apply (Hgen (GenMove "B" (value n)))
      |apply (Hgen (GenMove "C" (value n)))|apply (Hgen (GenMove "D" (value n)))];
      discriminate.
  - destruct (Hgen (GenGoto 10 5)) as (p & s' & Hrun & Ht); [discriminate|].
    exists p, s'. split; [exact Hrun|]. split; [exact Ht|reflexivity].
  - destruct (Hgen (GenRgb 38 255 0 0)) as (p & s' & Hrun & Ht); [discriminate|].
    exists p, s'. split; [exact Hrun|]. split; [exact Ht|reflexivity].
  - destruct (Hgen (GenMove "A" 3)) as (p & s' & Hrun & Ht); [discriminate|].
    exists p, s'. split; [exact Hrun|]. split; [exact Ht|reflexivity].
Qed.

Lemma generated_equals_literal_witness :
  exists p s',
    ck_cursor_goto (value "10") (value "5") started = Returns p s' /\
    text_at s' p = Some (ck_cursor_goto_l "10" "5").
Proof.
  refine (proj1 (proj2 (generated_equals_literal (process_start cooked []) started _))
            "10"%string "5"%string _ _ _ _).
  - apply (reachable_init _ AllocOk AllocOk). vm_compute. reflexivity.
  - reflexivity.
  - reflexivity.
  - vm_compute. discriminate.
  - vm_compute. discriminate.
Defined.

(** C7: in any state reached after [ck_init], any two generator calls in
    a row return the same pointer, the sequence buffer; after the first
    call it reads as the first sequence, after the second call the very same
    pointer reads as the second sequence. *)
Theorem generators_share_the_buffer s0 s g1 g2 :
  reachable s0 s ->
  exists p1 s1 p2 s2,
    generate g1 s = Returns p1 s1 /\
    generate g2 s1 = Returns p2 s2 /\
    p1 = CK_SEQUENCE_BUFFER s /\
    p2 = p1 /\
    text_at s1 p1 = Some (cstr (sequence_of g1)) /\
    text_at s2 p1 = Some (cstr (sequence_of g2)).
Proof.
  intros Hreach. destruct (reachable_active s0 s Hreach) as [Hact _].
  destruct (generate_spec g1 s Hact) as (p1 & s1 & Hrun1 & H1).
  destruct (generate_spec g2 s1 (fmt_active _ _ _ _ H1)) as (p2 & s2 & Hrun2 & H2).
  exists p1, s1, p2, s2.
  assert (Hp : p2 = p1).
  { rewrite (fmt_ptr _ _ _ _ H2), (fmt_SEQUENCE _ _ _ _ H1). symmetry.
    apply (fmt_ptr _ _ _ _ H1). }
  repeat (split; [first [assumption|apply (fmt_ptr _ _ _ _ H1)|apply (fmt_text _ _ _ _ H1)]|]).
  rewrite <- Hp. apply (fmt_text _ _ _ _ H2).
Qed.

Lemma generators_share_the_buffer_witness :
  exists p1 s1 p2 s2,
    ck_fg_rgb 255 0 0 started = Returns p1 s1 /\
    ck_cursor_up 3 s1 = Returns p2 s2 /\
    p1 = CK_SEQUENCE_BUFFER started /\
    p2 = p1 /\
    text_at s1 p1 = Some ([ESC] ++ str "[38;2;255;0;0m") /\
    text_at s2 p1 = Some ([ESC] ++ str "[3A").
Proof.
  apply (generators_share_the_buffer (process_start cooked []) started
           (GenRgb 38 255 0 0) (GenMove "A" 3)).
  apply (reachable_init _ AllocOk AllocOk). vm_compute. reflexivity.
Defined.

(** ** Growth of the capacity (C6) *)

(** From 100 an append of 250 characters takes the capacity to 300, two
    increments, where doubling would have gone to 400. *)
Example grown_SIZE :
  CK_SCREEN_BUFFER_SIZE started = 100 /\ CK_SCREEN_BUFFER_SIZE grown = 300 /\
  screen_text grown = Some (replicate 250 "a"%char).
Proof. vm_compute. repeat split. Qed.

(** C6: in any state reached after [ck_init], (1) no sequence of further
    steps takes the capacity below what it is, and (2) an append within
    bounds with a successful [realloc] and enough loop budget returns with
    the capacity raised by [k] increments of [CK_ALLOC_SIZE], [k] being the
    least number of increments that covers what [ck_print] asks for (so
    [k = 0] and no growth when the capacity already covers it, and [k > 0]
    whenever the text with its terminator would not fit), and with the old
    text still there in front of the appended string. *)
Theorem capacity_grows_by_increments s0 s :
  reachable s0 s ->
  (forall s', steps s s' -> CK_SCREEN_BUFFER_SIZE s <= CK_SCREEN_BUFFER_SIZE s') /\
  (forall fuel moved junk buffer,
     in_bounds s buffer -> enough fuel s buffer ->
     exists s' text (k : nat),
       ck_print fuel (ReallocOk moved junk) buffer s = Returns tt s' /\
       screen_text s = Some text /\
       screen_text s' = Some (text ++ cstr buffer) /\
       CK_SCREEN_BUFFER_SIZE s' = CK_SCREEN_BUFFER_SIZE s + Z.of_nat k * CK_ALLOC_SIZE /\
       demand s buffer <= CK_SCREEN_BUFFER_SIZE s' /\
       (forall j : nat,
          (j < k)%nat ->
          CK_SCREEN_BUFFER_SIZE s + Z.of_nat j * CK_ALLOC_SIZE < demand s buffer) /\
       (CK_SCREEN_BUFFER_SIZE s < Z.of_nat (length text) + strlen buffer + 1 ->
        (0 < k)%nat)).
Proof.
  intros Hreach. destruct (reachable_active s0 s Hreach) as [Hact _].
  split; [intros s'; apply steps_SIZE, Hact|].
  intros fuel moved junk buffer Hin Hfuel.
  destruct (ck_print_spec fuel moved junk buffer s Hact Hin) as [[_ Hno]|(s' & Hrun & Hpost)];
    [contradiction|].
  destruct (app_text _ _ _ Hpost) as (text & Ht & Ht').
  destruct (app_SIZE _ _ _ Hpost) as (k & Hk & Hcover & Hleast).
  exists s', text, k.
  repeat (split; [assumption|]). split.
  - intros j Hj. destruct Hleast as [->|Hleast]; [lia|].
    rewrite Hk in Hleast. unfold CK_ALLOC_SIZE in *. nia.
  - intros Hover.
    destruct (active_text s Hact) as (text' & Ht0 & _ & Hslack).
    rewrite Ht in Ht0. injection Ht0 as <-.
    pose proof (strlen_nonneg buffer) as Hb.
    rewrite Hk in Hcover. unfold demand in Hcover.
    destruct k; [|lia]. exfalso.
    destruct Hslack as [H|[H ->]]; cbn in *; lia.
Qed.

Lemma capacity_grows_by_increments_witness :
  exists s' text (k : nat),
    ck_print 3 (ReallocOk true (fun _ => "x"%char)) (replicate 250 "a"%char) started
      = Returns tt s' /\
    screen_text started = Some text /\
    screen_text s' = Some (text ++ cstr (replicate 250 "a"%char)) /\
    CK_SCREEN_BUFFER_SIZE s' = CK_SCREEN_BUFFER_SIZE started + Z.of_nat k * CK_ALLOC_SIZE /\
    demand started (replicate 250 "a"%char) <= CK_SCREEN_BUFFER_SIZE s' /\
    (forall j : nat,
       (j < k)%nat ->
       CK_SCREEN_BUFFER_SIZE started + Z.of_nat j * CK_ALLOC_SIZE
         < demand started (replicate 250 "a"%char)) /\
    (CK_SCREEN_BUFFER_SIZE started
       < Z.of_nat (length text) + strlen (replicate 250 "a"%char) + 1 ->
     (0 < k)%nat).
Proof.
  apply (capacity_grows_by_increments (process_start cooked []) started).
  - apply (reachable_init _ AllocOk AllocOk). vm_compute. reflexivity.
  - unfold in_bounds. vm_compute. discriminate.
  - unfold enough. split; [lia|]. vm_compute. discriminate.
Defined.

(** ** The keyboard (C8) *)

(** C8, on the code: [kbhit] asks the kernel whether input waits on fd 0,
    but [getch] reads through [stdin], a buffered stream, whose read takes
    everything that waits and not only the character [getch] returns.  So
    with two characters typed ahead, once [getch] has returned the first,
    [kbhit] says that no input is pending while the second is there: the
    next [getch] returns it at once, with nothing typed in between.
    Besides, at the end of the input [getch] does not wait for a character:
    it returns [(char)EOF]. *)
Theorem kbhit_misses_buffered_input s0 s :
  reachable s0 s ->
  stdin_eof s = false ->
  stdin_buffer s = [] ->
  (forall c1 c2 rest,
     stdin s = c1 :: c2 :: rest ->
     (length (stdin s) <= stdin_bufsiz s)%nat ->
     stdin_end s = None ->
     exists s1 s2 s3,
       Unix.getch [] s = Returns c1 s1 /\
       Unix.kbhit s1 = Returns false s2 /\
       Unix.getch [] s2 = Returns c2 s3 /\
       stdin_buffer s3 ++ stdin s3 = rest) /\
  (forall at_end,
     stdin s = [] ->
     stdin_end s = Some at_end ->
     exists s1,
       Unix.getch [] s = Returns "255"%char s1 /\
       tty s1 = tty s0).
Proof.
  intros Hreach Heof Hbuf. destruct (reachable_active s0 s Hreach) as [Hact Horig].
  pose proof (act_tty s Hact) as Htty.
  split.
  - intros c1 c2 rest Hin Hroom Hopen.
    destruct (getch_fills [] s c1 (c2 :: rest) Htty Heof Hbuf Hin)
      as (s1 & Hrun1 & Hbr1 & Hdev1 & Hbuf1 & Hin1 & Heof1).
    rewrite Hin in Hroom. cbn [length] in Hroom.
    rewrite take_ge in Hbuf1 by (cbn [length]; lia).
    rewrite drop_ge in Hin1 by (cbn [length]; lia).
    assert (Htty1 : tty s1 = CK_CONSOLE_ORIG_SETTS s1).
    { now rewrite (br_tty _ _ _ Hbr1), (br_ORIG_SETTS _ _ _ Hbr1). }
    destruct (kbhit_spec s1 Htty1)
      as (revents & s2 & Hrun2 & Hbr2 & Hdev2 & Hin2 & Hbuf2 & Heof2 & _ & Hno).
    rewrite Hno in Hrun2 by (rewrite ?(dev_end _ _ Hdev1); assumption).
    assert (Htty2 : tty s2 = CK_CONSOLE_ORIG_SETTS s2).
    { now rewrite (br_tty _ _ _ Hbr2), (br_ORIG_SETTS _ _ _ Hbr2). }
    pose proof (getch_spec [] s2 Htty2) as Hspec. cbv zeta in Hspec.
    rewrite Heof2, Heof1, Hbuf2, Hbuf1, Hin2, Hin1 in Hspec. cbn [app] in Hspec.
    destruct Hspec as (s3 & Hrun3 & _ & _ & Hrest & _).
    rewrite app_nil_r in Hrest.
    exists s1, s2, s3. repeat (split; [assumption|]). exact Hrest.
  - intros at_end Hin Hend.
    pose proof (getch_spec [] s Htty) as Hspec. cbv zeta in Hspec.
    rewrite Heof, Hbuf, Hin, Hend in Hspec. cbn [app] in Hspec.
    destruct Hspec as (s1 & Hrun & Hbr & _).
    exists s1. split; [exact Hrun|].
    now rewrite (br_tty _ _ _ Hbr).
Qed.

Lemma kbhit_misses_buffered_input_witness :
  exists s1 s2 s3,
    Unix.getch [] (set_stdin (str "ab") started) = Returns "a"%char s1 /\
    Unix.kbhit s1 = Returns false s2 /\
    Unix.getch [] s2 = Returns "b"%char s3 /\
    stdin_buffer s3 ++ stdin s3 = [].
Proof.
  refine (proj1 (kbhit_misses_buffered_input (process_start cooked [])
                   (set_stdin (str "ab") started) _ _ _)
            "a"%char "b"%char [] _ _ _).
  - apply (reachable_step _ started).
    + apply (reachable_init _ AllocOk AllocOk). vm_compute. reflexivity.
    + exact (step_typed (str "ab") started).
  - reflexivity.
  - reflexivity.
  - reflexivity.
  - vm_compute. lia.
  - reflexivity.
Defined.

(** ** Allocation failure (C9) *)

(** C9, on the code: when the allocation of the sequence buffer fails in
    [ck_init], the process exits with the screen buffer still allocated:
    nothing releases it.  (The other two failure paths do what the claim
    says: see [ck_init_screen_fails] and [ck_print_fails].) *)
Theorem ck_init_exits_without_release s0 :
  exists s' b cells,
    Unix.ck_init AllocOk AllocFail s0 = Exits EXIT_FAILURE s' /\
    CK_SCREEN_BUFFER s' = Some b /\
    heap s' !! b = Some (Live cells) /\
    ~ released s' (CK_SCREEN_BUFFER s').
Proof.
  destruct (ck_init_sequence_fails s0) as (s' & b & Hrun & Hptr & Hlive & _).
  exists s', b, (replicate (Z.to_nat CK_ALLOC_SIZE) NUL).
  repeat (split; [assumption|]).
  rewrite Hptr. unfold released. rewrite Hlive. discriminate.
Qed.

(* ================================================================= *)
(** * Further properties of the code *)

(** ** A small program logic for calls that return *)

Lemma hoare_ret {A} (a : A) (Q : A -> ck_state -> Prop) : hoare (Q a) (ret a) Q.
Proof. intros s a' s' HP [= <- <-]. exact HP. Qed.

Lemma hoare_bind {A B} (P : ck_state -> Prop) (Q : A -> ck_state -> Prop)
      (R : B -> ck_state -> Prop) (m : M A) (k : A -> M B) :
  hoare P m Q -> (forall a, hoare (Q a) (k a) R) -> hoare P (bind m k) R.
Proof.
  intros Hm Hk s b s' HP Hrun. unfold bind in Hrun.
  destruct (m s) as [a s1| | | |] eqn:E; try discriminate.
  exact (Hk a s1 b s' (Hm s a s1 HP E) Hrun).
Qed.

Lemma hoare_weaken {A} (P P' : ck_state -> Prop) (Q Q' : A -> ck_state -> Prop) (m : M A) :
  hoare P' m Q' -> (forall s, P s -> P' s) -> (forall a s, Q' a s -> Q a s) -> hoare P m Q.
Proof. intros H HP HQ s a s' Hs Hrun. apply HQ, (H s a s'); auto. Qed.

Lemma hoare_gets {A} (P : ck_state -> Prop) (f : ck_state -> A) :
  hoare P (gets f) (fun a s => P s /\ a = f s).
Proof. intros s a s' HP [= <- <-]. now split. Qed.

Lemma hoare_modify (P : ck_state -> Prop) (Q : unit -> ck_state -> Prop) f :
  (forall s, P s -> Q tt (f s)) -> hoare P (modify f) Q.
Proof. intros H s a s' HP E. injection E as <- <-. apply H, HP. Qed.

Lemma hoare_undefined {A} (P : ck_state -> Prop) (Q : A -> ck_state -> Prop) :
  hoare P undefined Q.
Proof. intros s a s' _ [=]. Qed.

Lemma hoare_exit {A} (P : ck_state -> Prop) (Q : A -> ck_state -> Prop) status :
  hoare P (exit status) Q.
Proof. intros s a s' _ [=]. Qed.

(** ** Allocated blocks *)

Lemma live_blocks_app h1 h2 : live_blocks (h1 ++ h2) = (live_blocks h1 + live_blocks h2)%nat.
Proof.
  induction h1 as [|[c|] h1 IH]; cbn [app live_blocks]; [reflexivity| |exact IH].
  now rewrite IH.
Qed.

Lemma live_blocks_overwrite h : forall b cells cells',
  h !! b = Some (Live cells) -> live_blocks (<[b := Live cells']> h) = live_blocks h.
Proof.
  induction h as [|blk h IH]; intros b cells cells' Hb; [discriminate|].
  destruct b as [|b]; cbn in Hb |- *.
  - now injection Hb as ->.
  - destruct blk; cbn [live_blocks]; erewrite IH by exact Hb; reflexivity.
Qed.

Lemma live_blocks_release h : forall b cells,
  h !! b = Some (Live cells) -> S (live_blocks (<[b := Dead]> h)) = live_blocks h.
Proof.
  induction h as [|blk h IH]; intros b cells Hb; [discriminate|].
  destruct b as [|b]; cbn in Hb |- *.
  - now injection Hb as ->.
  - destruct blk; cbn [live_blocks]; erewrite <- IH by exact Hb; reflexivity.
Qed.

Lemma hoare_post {A} (P : ck_state -> Prop) (Q Q' : A -> ck_state -> Prop) (m : M A) :
  hoare P m Q' -> (forall a s, Q' a s -> Q a s) -> hoare P m Q.
Proof. intros H HQ s a s' Hs Hrun. apply HQ, (H s a s'); auto. Qed.

Lemma hoare_gets_keep {A} (P : ck_state -> Prop) (f : ck_state -> A) :
  hoare P (gets f) (fun _ s => P s).
Proof. intros s a s' HP [= _ <-]. exact HP. Qed.

Lemma hoare_load_keep (P : ck_state -> Prop) p : hoare P (load p) (fun _ s => P s).
Proof.
  intros s cells s' HP Hrun. unfold load in Hrun.
  destruct p as [b|]; [|discriminate].
  destruct (heap s !! b) as [[c|]|]; try discriminate.
  now injection Hrun as _ <-.
Qed.

Lemma hoare_true {A} (P : ck_state -> Prop) (m : M A) : hoare P m (fun _ _ => True).
Proof. intros s a s' _ _. exact I. Qed.

(** Calls that leave the state alone. *)
Lemma hoare_load (P : ck_state -> Prop) p :
  hoare P (load p) (fun cells s => P s /\ cells_at s p = Some cells).
Proof.
  intros s cells s' HP Hrun. unfold load in Hrun. unfold cells_at.
  destruct p as [b|]; [|discriminate].
  destruct (heap s !! b) as [[c|]|] eqn:E; try discriminate.
  injection Hrun as <- <-. now rewrite E.
Qed.

Lemma hoare_load_cstring (P : ck_state -> Prop) p :
  hoare P (load_cstring p) (fun _ s => P s).
Proof.
  unfold load_cstring.
  apply hoare_bind with (Q := fun _ => P); [apply hoare_load_keep|intros cells].
  destruct (terminated cells); [|apply hoare_undefined].
  intros s a s' HP [= _ <-]. exact HP.
Qed.

(** Calls that write into a block keep the number of allocated blocks. *)
Lemma hoare_store n p cells :
  hoare (holds_blocks n) (store p cells) (fun _ => holds_blocks n).
Proof.
  intros s a s' [HL HG] Hrun. unfold store in Hrun.
  destruct p as [b|]; [|discriminate].
  destruct (heap s !! b) as [[c|]|] eqn:E; try discriminate.
  injection Hrun as _ <-. split; [|exact HG]. cbn.
  now rewrite (live_blocks_overwrite _ _ _ _ E).
Qed.

Lemma hoare_memset n p c k :
  hoare (holds_blocks n) (memset p c k) (fun _ => holds_blocks n).
Proof.
  unfold memset.
  apply hoare_bind with (Q := fun _ => holds_blocks n).
  - apply hoare_load_keep.
  - intros cells. destruct (_ <=? _)%nat; [apply hoare_store|apply hoare_undefined].
Qed.

Lemma hoare_strcat n p src :
  hoare (holds_blocks n) (strcat p src) (fun _ => holds_blocks n).
Proof.
  unfold strcat.
  apply hoare_bind with (Q := fun _ => holds_blocks n).
  - apply hoare_load_keep.
  - intros cells. destruct (terminated cells); [|apply hoare_undefined].
    destruct (write_at _ _ _); [apply hoare_store|apply hoare_undefined].
Qed.

Lemma hoare_sprintf n p text :
  hoare (holds_blocks n) (sprintf p text) (fun _ => holds_blocks n).
Proof.
  unfold sprintf.
  apply hoare_bind with (Q := fun _ => holds_blocks n).
  - apply hoare_load_keep.
  - intros cells. destruct (write_at _ _ _); [|apply hoare_undefined].
    apply hoare_bind with (Q := fun _ => holds_blocks n); [apply hoare_store|].
    intros _ s a s' H [= _ <-]. exact H.
Qed.

(** [realloc] of a pointer that is not [NULL] neither adds nor loses a
    block, whatever the allocator answers. *)
Lemma hoare_realloc n r p size :
  p <> NULL ->
  hoare (holds_blocks n) (realloc r p size) (fun _ => holds_blocks n).
Proof.
  intros Hp s q s' [HL HG] Hrun. unfold realloc in Hrun.
  destruct r as [|moved junk]; [injection Hrun as _ <-; now split|].
  destruct p as [b|]; [|contradiction].
  destruct (heap s !! b) as [[c|]|] eqn:E; try discriminate.
  destruct moved; injection Hrun as _ <-; (split; [|exact HG]); cbn.
  - rewrite live_blocks_app. cbn.
    pose proof (live_blocks_release _ _ _ E). lia.
  - now rewrite (live_blocks_overwrite _ _ _ _ E).
Qed.

Lemma ck_print_grow_keeps_blocks n len fuel :
  hoare (holds_blocks n) (ck_print_grow fuel len) (fun _ => holds_blocks n).
Proof.
  induction fuel as [|fuel IH]; cbn [ck_print_grow].
  - intros s a s' _ [=].
  - apply hoare_bind with (Q := fun _ => holds_blocks n);
      [apply hoare_gets_keep|intros end_].
    apply hoare_bind with (Q := fun _ => holds_blocks n);
      [apply hoare_gets_keep|intros size].
    destruct (_ >? _); [|exact (hoare_ret tt (fun _ => holds_blocks n))].
    apply hoare_bind with (Q := fun _ => holds_blocks n); [|intros _; exact IH].
    apply hoare_modify. intros s H. exact H.
Qed.

Lemma ck_print_keeps_blocks n fuel r buffer :
  hoare (holds_blocks n) (ck_print fuel r buffer) (fun _ => holds_blocks n).
Proof.
  unfold ck_print. cbv zeta.
  apply hoare_bind with (Q := fun _ => holds_blocks n);
    [apply ck_print_grow_keeps_blocks|intros _].
  apply hoare_bind with (Q := fun _ => holds_blocks n);
    [apply hoare_modify; intros s H; exact H|intros _].
  eapply hoare_bind; [apply hoare_gets|intros old].
  eapply hoare_bind; [apply hoare_gets|intros size].
  apply hoare_bind with (Q := fun _ => holds_blocks n).
  { intros s q s' [[H Hold] _] Hrun.
    eapply (hoare_realloc n r old); [|exact H|exact Hrun].
    rewrite Hold. apply H. }
  intros p.
  apply hoare_bind with (Q := fun _ => holds_blocks n);
    [apply hoare_modify; intros s H; exact H|intros _].
  destruct p as [b|].
  - apply hoare_bind with (Q := fun _ => holds_blocks n).
    + apply hoare_modify. intros s [H _]. split; [exact H|discriminate].
    + intros _.
      apply hoare_bind with (Q := fun _ => holds_blocks n);
        [apply hoare_gets_keep|intros screen].
      apply hoare_strcat.
  - apply hoare_bind with (Q := fun _ _ => True); [apply hoare_true|intros _].
    apply hoare_bind with (Q := fun _ _ => True); [apply hoare_true|intros screen].
    apply hoare_bind with (Q := fun _ _ => True); [apply hoare_true|intros _].
    apply hoare_bind with (Q := fun _ _ => True); [apply hoare_true|intros q].
    apply hoare_bind with (Q := fun _ _ => True); [apply hoare_true|intros _].
    apply hoare_exit.
Qed.

Lemma ck_flip_keeps_blocks n : hoare (holds_blocks n) ck_flip (fun _ => holds_blocks n).
Proof.
  unfold ck_flip.
  apply hoare_bind with (Q := fun _ => holds_blocks n);
    [apply hoare_gets_keep|intros p].
  apply hoare_bind with (Q := fun _ => holds_blocks n);
    [apply hoare_load_cstring|intros text].
  apply hoare_bind with (Q := fun _ => holds_blocks n);
    [apply hoare_modify; intros s H; exact H|intros _].
  apply hoare_bind with (Q := fun _ => holds_blocks n);
    [apply hoare_gets_keep|intros size].
  apply hoare_bind with (Q := fun _ => holds_blocks n); [apply hoare_memset|intros _].
  apply hoare_modify. intros s H. exact H.
Qed.

Lemma generate_keeps_blocks n g :
  hoare (holds_blocks n) (generate g) (fun _ => holds_blocks n).
Proof.
  rewrite generate_unfold.
  apply hoare_bind with (Q := fun _ => holds_blocks n);
    [apply hoare_gets_keep|intros buf].
  apply hoare_bind with (Q := fun _ => holds_blocks n); [apply hoare_sprintf|intros _].
  apply hoare_gets_keep.
Qed.

Lemma hoare_calloc n r nmemb size :
  hoare (fun s => live_blocks (heap s) = n) (calloc r nmemb size)
    (fun p s =>
       (p = NULL /\ live_blocks (heap s) = n) \/
       (p <> NULL /\ live_blocks (heap s) = S n)).
Proof.
  intros s p s' HL Hrun. destruct r; cbn in Hrun; injection Hrun as <- <-.
  - now left.
  - right. split; [discriminate|]. cbn. rewrite live_blocks_app, HL. cbn. lia.
Qed.

(** [ck_init], when it returns, has allocated two blocks. *)
Lemma ck_init_adds_blocks n r1 r2 :
  hoare (fun s => live_blocks (heap s) = n) (Unix.ck_init r1 r2)
    (fun _ => holds_blocks (S (S n))).
Proof.
  unfold Unix.ck_init.
  apply hoare_bind with (Q := fun _ s => live_blocks (heap s) = n);
    [apply hoare_gets_keep|intros orig].
  apply hoare_bind with (Q := fun _ s => live_blocks (heap s) = n);
    [apply hoare_modify; auto|intros _].
  apply hoare_bind with (Q := fun _ s => live_blocks (heap s) = n);
    [apply hoare_modify; auto|intros _].
  apply hoare_bind with (Q := fun _ s => live_blocks (heap s) = n);
    [apply hoare_modify; auto|intros _].
  apply hoare_bind with (Q := fun _ s => live_blocks (heap s) = n);
    [apply hoare_modify; auto|intros _].
  eapply hoare_bind; [apply hoare_calloc|intros p].
  destruct p as [b|].
  - apply hoare_bind with (Q := fun _ => holds_blocks (S n)).
    { apply hoare_modify. intros s [[? _]|[_ H]]; [discriminate|]. split; [exact H|discriminate]. }
    intros _.
    apply hoare_bind with (Q := fun _ => holds_blocks (S n));
      [apply hoare_modify; auto|intros _].
    apply hoare_bind with (Q := fun _ => holds_blocks (S n)); [apply hoare_memset|intros _].
    apply hoare_bind with
      (Q := fun q s => CK_SCREEN_BUFFER s <> NULL /\
                       ((q = NULL /\ live_blocks (heap s) = S n) \/
                        (q <> NULL /\ live_blocks (heap s) = S (S n)))).
    { intros s q s' [HL HG] Hrun. split.
      - destruct r2; cbn in Hrun; injection Hrun as _ <-; exact HG.
      - exact (hoare_calloc (S n) r2 _ _ s q s' HL Hrun). }
    intros q.
    apply hoare_bind with
      (Q := fun _ s => CK_SCREEN_BUFFER s <> NULL /\
                       ((q = NULL /\ live_blocks (heap s) = S n) \/
                        (q <> NULL /\ live_blocks (heap s) = S (S n))));
      [apply hoare_modify; auto|intros _].
    destruct q as [c|].
    + intros s a s' [HG [[? _]|[_ HL]]] [= _ <-]; [discriminate|]. now split.
    + apply hoare_bind with (Q := fun _ _ => True); [apply hoare_true|intros _].
      apply hoare_exit.
  - apply hoare_bind with (Q := fun _ _ => True); [apply hoare_true|intros _].
    apply hoare_bind with (Q := fun _ _ => True); [apply hoare_true|intros _].
    apply hoare_exit.
Qed.

Lemma step_keeps_blocks n s s' : holds_blocks n s -> step s s' -> holds_blocks n s'.
Proof.
  intros H Hstep.
  destruct Hstep as [fuel r buffer s s' Hin Hrun|s s' Hrun|g p s s' Hrun
                    |incoming c s s' Hrun|hit s s' Hrun|dims size s s' Hrun|keys s].
  - exact (ck_print_keeps_blocks n fuel r buffer s tt s' H Hrun).
  - exact (ck_flip_keeps_blocks n s tt s' H Hrun).
  - exact (generate_keeps_blocks n g s p s' H Hrun).
  - destruct (getch_buffers incoming c s s' Hrun) as [Hh _ _ HS _]. unfold holds_blocks.
    now rewrite Hh, HS.
  - destruct (kbhit_buffers hit s s' Hrun) as [Hh _ _ HS _]. unfold holds_blocks.
    now rewrite Hh, HS.
  - rewrite unix_size_spec in Hrun. injection Hrun as _ <-. exact H.
  - exact H.
Qed.

Lemma reachable_blocks s0 s :
  reachable s0 s -> holds_blocks (S (S (live_blocks (heap s0)))) s.
Proof.
  induction 1 as [r1 r2 s Hinit|s s' _ IH Hstep].
  - exact (ck_init_adds_blocks _ r1 r2 s0 tt s eq_refl Hinit).
  - exact (step_keeps_blocks _ s s' IH Hstep).
Qed.

(** [ck_end] in an active state: the heap afterwards. *)
Lemma ck_end_heap s :
  active s ->
  exists s' b q,
    Unix.ck_end s = Returns tt s' /\
    CK_SCREEN_BUFFER s = Some b /\ CK_SEQUENCE_BUFFER s = Some q /\
    heap s' = <[q := Dead]> (<[b := Dead]> (heap s)) /\
    S (S (live_blocks (heap s'))) = live_blocks (heap s) /\
    tty s' = tty s /\ stdout s' = stdout s.
Proof.
  intros [(scr & Hscr & _) (sq & Hsq & _) Hapart _ _ _ _].
  destruct (CK_SCREEN_BUFFER s) as [b|] eqn:Hb; [|discriminate].
  destruct (CK_SEQUENCE_BUFFER s) as [q|] eqn:Hq; [|discriminate].
  assert (Hbq : b <> q) by congruence.
  unfold Unix.ck_end, bind, gets. rewrite Hb.
  rewrite (free_at _ _ _ Hscr).
  cbn [CK_SEQUENCE_BUFFER set_heap]. rewrite Hq.
  assert (Hsq' : cells_at (set_heap (<[b:=Dead]> (heap s)) s) (Some q) = Some sq).
  { cbn. rewrite list_lookup_insert_ne by exact Hbq. exact Hsq. }
  rewrite (free_at _ _ _ Hsq').
  eexists _, b, q. split; [reflexivity|]. repeat (split; [reflexivity|]).
  split; [|split; reflexivity]. cbn.
  cbn in Hscr, Hsq'.
  destruct (heap s !! b) as [[c|]|] eqn:Eb; try discriminate.
  destruct (<[b:=Dead]> (heap s) !! q) as [[c'|]|] eqn:Eq; try discriminate.
  rewrite (live_blocks_release _ _ _ Eq). apply (live_blocks_release _ _ _ Eb).
Qed.

(** ** The life of the two buffers *)

(** X1: however a program got from [ck_init] to a state, exactly two more
    blocks are allocated than before [ck_init] (no append, flush or
    generator call leaks or loses one, even when [realloc] moves the screen
    buffer), and [ck_end] there gives both back: it returns with the block
    count of before, both buffers released and the terminal as it was
    before [ck_init]. *)
Theorem blocks_are_accounted_for s0 s :
  reachable s0 s ->
  live_blocks (heap s) = S (S (live_blocks (heap s0))) /\
  exists s',
    Unix.ck_end s = Returns tt s' /\
    live_blocks (heap s') = live_blocks (heap s0) /\
    released s' (CK_SCREEN_BUFFER s') /\
    released s' (CK_SEQUENCE_BUFFER s') /\
    tty s' = tty s0.
Proof.
  intros Hreach.
  destruct (reachable_blocks s0 s Hreach) as [Hlive _].
  destruct (reachable_active s0 s Hreach) as [Hact Horig].
  split; [exact Hlive|].
  destruct (ck_end_heap s Hact) as (s' & b & q & Hrun & _ & _ & _ & Hcount & Htty & _).
  destruct (ck_end_spec s Hact) as (s'' & Hrun' & Hrel1 & Hrel2).
  assert (s'' = s') by congruence. subst s''.
  exists s'. split; [exact Hrun|]. split; [lia|]. split; [exact Hrel1|].
  split; [exact Hrel2|].
  rewrite Htty, (act_tty s Hact). exact Horig.
Qed.

Lemma blocks_are_accounted_for_witness :
  live_blocks (heap grown) = S (S (live_blocks (heap (process_start cooked [])))) /\
  exists s',
    Unix.ck_end grown = Returns tt s' /\
    live_blocks (heap s') = live_blocks (heap (process_start cooked [])) /\
    released s' (CK_SCREEN_BUFFER s') /\
    released s' (CK_SEQUENCE_BUFFER s') /\
    tty s' = tty (process_start cooked []).
Proof.
  apply (blocks_are_accounted_for (process_start cooked []) grown).
  apply (reachable_step _ started grown).
  - apply (reachable_init _ AllocOk AllocOk). vm_compute. reflexivity.
  - apply (step_print 3 (ReallocOk true (fun _ => "x"%char)) (replicate 250 "a"%char)).
    + unfold in_bounds. vm_compute. discriminate.
    + vm_compute. reflexivity.
Defined.

(** X2: after [ck_end] the buffers are gone for good: a flush, any
    generator call and a second [ck_end] are undefined behaviour, and so is
    an append, whatever [realloc] answers (given the loop budget to get
    there). *)
Theorem use_after_end_is_undefined s0 s :
  reachable s0 s ->
  exists s',
    Unix.ck_end s = Returns tt s' /\
    ck_flip s' = Undefined /\
    (forall g, generate g s' = Undefined) /\
    Unix.ck_end s' = Undefined /\
    (forall fuel r buffer,
       in_bounds s buffer -> enough fuel s buffer ->
       ck_print fuel r buffer s' = Undefined).
Proof.
  intros Hreach.
  destruct (reachable_active s0 s Hreach) as [Hact _].
  destruct (ck_end_heap s Hact) as (s' & b & q & Hend & Hb & Hq & Hheap & _).
  exists s'. split; [exact Hend|].
  pose proof (act_apart s Hact) as Hapart. rewrite Hb, Hq in Hapart.
  assert (Hbq : b <> q) by congruence.
  destruct (act_screen s Hact) as (scr & Hscr & _).
  destruct (act_sequence s Hact) as (sq & Hsq & _).
  rewrite Hb in Hscr. rewrite Hq in Hsq.
  pose proof (cells_at_lt _ _ _ Hscr) as Hblt.
  pose proof (cells_at_lt _ _ _ Hsq) as Hqlt.
  assert (Hb' : CK_SCREEN_BUFFER s' = Some b).
  { unfold Unix.ck_end, bind, gets in Hend. rewrite Hb, (free_at _ _ _ Hscr) in Hend.
    cbn [CK_SEQUENCE_BUFFER set_heap] in Hend. rewrite Hq in Hend.
    erewrite free_at in Hend
      by (cbn; rewrite list_lookup_insert_ne by exact Hbq; exact Hsq).
    injection Hend as <-. exact Hb. }
  assert (Hq' : CK_SEQUENCE_BUFFER s' = Some q).
  { unfold Unix.ck_end, bind, gets in Hend. rewrite Hb, (free_at _ _ _ Hscr) in Hend.
    cbn [CK_SEQUENCE_BUFFER set_heap] in Hend. rewrite Hq in Hend.
    erewrite free_at in Hend
      by (cbn; rewrite list_lookup_insert_ne by exact Hbq; exact Hsq).
    injection Hend as <-. exact Hq. }
  assert (Hdb : heap s' !! b = Some Dead).
  { rewrite Hheap, list_lookup_insert_ne by congruence.
    now apply list_lookup_insert_eq. }
  assert (Hdq : heap s' !! q = Some Dead).
  { rewrite Hheap. apply list_lookup_insert_eq. now rewrite length_insert. }
  split; [|split; [|split]].
  - unfold ck_flip, bind, gets, load_cstring, load. rewrite Hb'. unfold bind. now rewrite Hdb.
  - intros g. rewrite generate_unfold.
    unfold bind, gets, sprintf, load. rewrite Hq'. unfold bind. now rewrite Hdq.
  - unfold Unix.ck_end, bind, gets, free. now rewrite Hb', Hdb.
  - intros fuel r buffer Hin [Hfuel0 Hfuel].
    assert (HE : CK_SCREEN_BUFFER_END s' = CK_SCREEN_BUFFER_END s).
    { unfold Unix.ck_end, bind, gets in Hend. rewrite Hb, (free_at _ _ _ Hscr) in Hend.
      cbn [CK_SEQUENCE_BUFFER set_heap] in Hend. rewrite Hq in Hend.
      erewrite free_at in Hend
        by (cbn; rewrite list_lookup_insert_ne by exact Hbq; exact Hsq).
      injection Hend as <-. reflexivity. }
    assert (HS : CK_SCREEN_BUFFER_SIZE s' = CK_SCREEN_BUFFER_SIZE s).
    { unfold Unix.ck_end, bind, gets in Hend. rewrite Hb, (free_at _ _ _ Hscr) in Hend.
      cbn [CK_SEQUENCE_BUFFER set_heap] in Hend. rewrite Hq in Hend.
      erewrite free_at in Hend
        by (cbn; rewrite list_lookup_insert_ne by exact Hbq; exact Hsq).
      injection Hend as <-. reflexivity. }
    pose proof (act_END s Hact) as HEr. pose proof (act_SIZE s Hact) as HSr.
    pose proof (strlen_nonneg buffer) as Hn.
    unfold in_bounds in Hin. unfold demand in Hfuel.
    unfold ck_print. cbv zeta.
    rewrite (size_t_small (strlen buffer + 1)) by (unfold CK_ALLOC_SIZE in *; lia).
    destruct (ck_print_grow_spec fuel (strlen buffer + 1) s')
      as [[Hout Hno]|(k & Hret & Hk1 & Hk2)];
      try (rewrite ?HE, ?HS; unfold CK_ALLOC_SIZE in *; lia).
    unfold bind at 1. rewrite Hret.
    destruct r as [|moved junk].
    + unfold bind, modify, gets, realloc, ret, perror, exit, free.
      unfold NULL. cbv beta iota. unfold modify.
      cbn [CK_SCREEN_BUFFER CK_SEQUENCE_BUFFER set_END set_SIZE set_ALLOC set_stderr heap].
      now rewrite Hb', Hdb.
    + unfold bind, modify, gets, realloc.
      cbn [CK_SCREEN_BUFFER CK_SEQUENCE_BUFFER set_END set_SIZE set_ALLOC set_stderr heap].
      now rewrite Hb', Hdb.
Qed.

Lemma use_after_end_is_undefined_witness :
  exists s',
    Unix.ck_end started = Returns tt s' /\
    ck_flip s' = Undefined /\
    (forall g, generate g s' = Undefined) /\
    Unix.ck_end s' = Undefined /\
    (forall fuel r buffer,
       in_bounds started buffer -> enough fuel started buffer ->
       ck_print fuel r buffer s' = Undefined).
Proof.
  apply (use_after_end_is_undefined (process_start cooked []) started).
  apply (reachable_init _ AllocOk AllocOk). vm_compute. reflexivity.
Defined.

(** ** Appends and flushes *)

(** A run of appends leaves the console side alone. *)
Lemma ck_print_all_console items : forall fuel s s',
  active s ->
  CK_SCREEN_BUFFER_END s + counted items + CK_ALLOC_SIZE <= SIZE_MAX ->
  ck_print_all fuel items s = Returns tt s' ->
  same_console s s' /\ CK_SCREEN_BUFFER_SIZE s <= CK_SCREEN_BUFFER_SIZE s'.
Proof.
  induction items as [|[r b] rest IH]; intros fuel s s' Hact Hfit Hrun.
  - injection Hrun as <-. split; [now constructor|lia].
  - cbn [ck_print_all] in Hrun. unfold bind in Hrun.
    cbn [counted fold_right snd] in Hfit. fold (counted rest) in Hfit.
    pose proof (counted_nonneg rest) as Hc. pose proof (strlen_nonneg b) as Hb.
    assert (Hin : in_bounds s b) by (unfold in_bounds; lia).
    destruct (ck_print fuel r b s) as [[] s1| | | |] eqn:E; try discriminate.
    destruct r as [|moved junk].
    { destruct (ck_print_fails fuel b s Hact Hin) as [[E' _]|(x & E' & _)]; congruence. }
    destruct (ck_print_spec fuel moved junk b s Hact Hin) as [[E' _]|(x & E' & H1)];
      [congruence|].
    assert (x = s1) by congruence. subst x.
    destruct (IH fuel s1 s' (app_active _ _ _ H1)) as [Hcon Hsize];
      [rewrite (app_END _ _ _ H1); lia|exact Hrun|].
    destruct (app_SIZE _ _ _ H1) as (k & Hk & _).
    destruct (app_console _ _ _ H1) as [T1 I1 O1 L1 K1 S1 G1].
    destruct Hcon as [T2 I2 O2 L2 K2 S2 G2].
    split; [constructor; congruence|]. unfold CK_ALLOC_SIZE in *. lia.
Qed.

(** X3: appends whose counter stays within bounds, each with a successful
    [realloc], followed by a flush: the flush writes ["\033[H"], then what
    was queued before, then the appended strings in the order of the calls,
    and nothing else (no junk from grown or moved blocks); afterwards the
    counter is 0 and the buffer holds the empty string. *)
Theorem flush_writes_the_appends s0 s fuel items :
  reachable s0 s ->
  Forall (fun item => succeeds (fst item)) items ->
  CK_SCREEN_BUFFER_END s + counted items + CK_ALLOC_SIZE <= SIZE_MAX ->
  CK_SCREEN_BUFFER_END s + counted items <= Z.of_nat fuel * CK_ALLOC_SIZE ->
  exists s1 s2 text,
    ck_print_all fuel items s = Returns tt s1 /\
    ck_flip s1 = Returns tt s2 /\
    screen_text s = Some text /\
    stdout s2 = stdout s ++ [ESC] ++ str "[H" ++ text ++ joined items /\
    CK_SCREEN_BUFFER_END s2 = 0 /\
    screen_text s2 = Some [].
Proof.
  intros Hreach Hok Hfit Hfuel.
  destruct (reachable_active s0 s Hreach) as [Hact _].
  destruct (ck_print_all_spec items fuel s Hact Hok Hfit Hfuel)
    as (s1 & text & Hrun & Hact1 & _ & Ht & Ht1).
  destruct (ck_print_all_console items fuel s s1 Hact Hfit Hrun) as [Hcon _].
  destruct (ck_flip_spec s1 Hact1) as (s2 & Hflip & H2).
  exists s1, s2, text. repeat (split; [assumption|]).
  split; [|split; [apply (fl_END _ _ H2)|apply (fl_text _ _ H2)]].
  destruct (fl_stdout _ _ H2) as (text1 & Ht1' & Hout).
  rewrite Ht1 in Ht1'. injection Ht1' as <-.
  rewrite Hout, (same_stdout _ _ Hcon). reflexivity.
Qed.

Lemma flush_writes_the_appends_witness :
  exists s1 s2 text,
    ck_print_all 1
      [(ReallocOk true (fun _ => "x"%char), str "a"); (ReallocOk false (fun _ => "y"%char), []);
       (ReallocOk true (fun _ => "z"%char), str "bc")] started = Returns tt s1 /\
    ck_flip s1 = Returns tt s2 /\
    screen_text started = Some text /\
    stdout s2 =
      stdout started ++ [ESC] ++ str "[H" ++ text ++
        joined [(ReallocOk true (fun _ => "x"%char), str "a");
                (ReallocOk false (fun _ => "y"%char), []);
                (ReallocOk true (fun _ => "z"%char), str "bc")] /\
    CK_SCREEN_BUFFER_END s2 = 0 /\
    screen_text s2 = Some [].
Proof.
  apply (flush_writes_the_appends (process_start cooked []) started).
  - apply (reachable_init _ AllocOk AllocOk). vm_compute. reflexivity.
  - repeat constructor.
  - vm_compute. discriminate.
  - vm_compute. discriminate.
Defined.

(** X4: a run of successful appends within bounds adds, to
    [CK_SCREEN_BUFFER_END], the lengths of the strings and two more for
    each call, while the text grows by the strings alone: the counter runs
    ahead of the text by two per append (an append of the empty string adds
    two and no text), and the capacity covers the counter. *)
Theorem appends_accumulate s0 s fuel items :
  reachable s0 s ->
  Forall (fun item => succeeds (fst item)) items ->
  CK_SCREEN_BUFFER_END s + counted items + CK_ALLOC_SIZE <= SIZE_MAX ->
  CK_SCREEN_BUFFER_END s + counted items <= Z.of_nat fuel * CK_ALLOC_SIZE ->
  exists s' text,
    ck_print_all fuel items s = Returns tt s' /\
    screen_text s = Some text /\
    screen_text s' = Some (text ++ joined items) /\
    CK_SCREEN_BUFFER_END s' =
      CK_SCREEN_BUFFER_END s + Z.of_nat (length (joined items))
        + 2 * Z.of_nat (length items) /\
    CK_SCREEN_BUFFER_END s' <= CK_SCREEN_BUFFER_SIZE s' /\
    CK_SCREEN_BUFFER_SIZE s <= CK_SCREEN_BUFFER_SIZE s'.
Proof.
  intros Hreach Hok Hfit Hfuel.
  destruct (reachable_active s0 s Hreach) as [Hact _].
  destruct (ck_print_all_spec items fuel s Hact Hok Hfit Hfuel)
    as (s' & text & Hrun & Hact' & Hend & Ht & Ht').
  destruct (ck_print_all_console items fuel s s' Hact Hfit Hrun) as [_ Hsize].
  exists s', text. repeat (split; [assumption|]).
  split; [|split; [apply (act_END s' Hact')|exact Hsize]].
  rewrite Hend. pose proof (length_joined items). lia.
Qed.

Lemma appends_accumulate_witness :
  exists s' text,
    ck_print_all 2
      [(ReallocOk true (fun _ => "x"%char), replicate 97 "a"%char);
       (ReallocOk false (fun _ => "y"%char), [])] started = Returns tt s' /\
    screen_text started = Some text /\
    screen_text s' =
      Some (text ++ joined [(ReallocOk true (fun _ => "x"%char), replicate 97 "a"%char);
                            (ReallocOk false (fun _ => "y"%char), [])]) /\
    CK_SCREEN_BUFFER_END s' =
      CK_SCREEN_BUFFER_END started
        + Z.of_nat (length (joined [(ReallocOk true (fun _ => "x"%char), replicate 97 "a"%char);
                                    (ReallocOk false (fun _ => "y"%char), [])]))
        + 2 * Z.of_nat 2 /\
    CK_SCREEN_BUFFER_END s' <= CK_SCREEN_BUFFER_SIZE s' /\
    CK_SCREEN_BUFFER_SIZE started <= CK_SCREEN_BUFFER_SIZE s'.
Proof.
  apply (appends_accumulate (process_start cooked []) started).
  - apply (reachable_init _ AllocOk AllocOk). vm_compute. reflexivity.
  - repeat constructor.
  - vm_compute. discriminate.
  - vm_compute. discriminate.
Defined.

Lemma ck_flip_cells s :
  active s ->
  exists s',
    ck_flip s = Returns tt s' /\
    cells_at s' (CK_SCREEN_BUFFER s') =
      Some (replicate (Z.to_nat (CK_SCREEN_BUFFER_SIZE s)) NUL).
Proof.
  intros [(scr & Hscr & Hlen & Hterm & Hslack) _ _ _ _ _ _].
  destruct (CK_SCREEN_BUFFER s) as [b|] eqn:Hb; [|discriminate].
  pose proof (cells_at_lt _ _ _ Hscr) as Hblt.
  assert (Hn : Z.to_nat (CK_SCREEN_BUFFER_SIZE s) = length scr) by lia.
  unfold ck_flip.
  unfold bind at 1. unfold gets at 1. rewrite Hb.
  unfold bind at 1. rewrite (load_cstring_at _ _ _ Hscr Hterm).
  unfold bind at 1. unfold printf, modify at 1.
  unfold bind at 1. unfold gets at 1.
  cbn [CK_SCREEN_BUFFER_SIZE set_stdout].
  set (s1 := set_stdout _ s).
  unfold bind at 1.
  rewrite (memset_at s1 b scr NUL (CK_SCREEN_BUFFER_SIZE s) Hscr) by lia.
  rewrite Hn, memset_whole by reflexivity.
  unfold modify. eexists. split; [reflexivity|].
  cbn. rewrite Hb. cbn. now rewrite list_lookup_insert_eq by exact Hblt.
Qed.

(** X5: a flush wipes the whole screen buffer, every cell up to the
    capacity and not only the text, and keeps the capacity; a flush right
    after it writes the cursor-home sequence and nothing more, and leaves
    the counter at 0. *)
Theorem flush_wipes_the_buffer s0 s :
  reachable s0 s ->
  exists s1 s2,
    ck_flip s = Returns tt s1 /\
    cells_at s1 (CK_SCREEN_BUFFER s1) =
      Some (replicate (Z.to_nat (CK_SCREEN_BUFFER_SIZE s)) NUL) /\
    CK_SCREEN_BUFFER_SIZE s1 = CK_SCREEN_BUFFER_SIZE s /\
    ck_flip s1 = Returns tt s2 /\
    stdout s2 = stdout s1 ++ [ESC] ++ str "[H" /\
    CK_SCREEN_BUFFER_END s2 = 0 /\
    CK_SCREEN_BUFFER_SIZE s2 = CK_SCREEN_BUFFER_SIZE s.
Proof.
  intros Hreach. destruct (reachable_active s0 s Hreach) as [Hact _].
  destruct (ck_flip_cells s Hact) as (s1 & Hrun1 & Hcells).
  destruct (ck_flip_spec s Hact) as (x & Hrun1' & H1).
  assert (x = s1) by congruence. subst x.
  destruct (ck_flip_spec s1 (fl_active _ _ H1)) as (s2 & Hrun2 & H2).
  exists s1, s2. split; [exact Hrun1|]. split; [exact Hcells|].
  split; [apply (fl_SIZE _ _ H1)|]. split; [exact Hrun2|].
  split; [|split; [apply (fl_END _ _ H2)|]].
  - destruct (fl_stdout _ _ H2) as (text & Ht & Hout).
    rewrite (fl_text _ _ H1) in Ht. injection Ht as <-.
    now rewrite Hout, !app_nil_r.
  - now rewrite (fl_SIZE _ _ H2), (fl_SIZE _ _ H1).
Qed.

Lemma flush_wipes_the_buffer_witness :
  exists s1 s2,
    ck_flip grown = Returns tt s1 /\
    cells_at s1 (CK_SCREEN_BUFFER s1) =
      Some (replicate (Z.to_nat (CK_SCREEN_BUFFER_SIZE grown)) NUL) /\
    CK_SCREEN_BUFFER_SIZE s1 = CK_SCREEN_BUFFER_SIZE grown /\
    ck_flip s1 = Returns tt s2 /\
    stdout s2 = stdout s1 ++ [ESC] ++ str "[H" /\
    CK_SCREEN_BUFFER_END s2 = 0 /\
    CK_SCREEN_BUFFER_SIZE s2 = CK_SCREEN_BUFFER_SIZE grown.
Proof.
  apply (flush_wipes_the_buffer (process_start cooked []) grown).
  apply (reachable_step _ started grown).
  - apply (reachable_init _ AllocOk AllocOk). vm_compute. reflexivity.
  - apply (step_print 3 (ReallocOk true (fun _ => "x"%char)) (replicate 250 "a"%char)).
    + unfold in_bounds. vm_compute. discriminate.
    + vm_compute. reflexivity.
Defined.

(** ** Failing allocations *)

Lemma ck_print_fails_state fuel buffer s :
  active s -> in_bounds s buffer -> enough fuel s buffer ->
  exists s',
    ck_print fuel ReallocFail buffer s = Exits EXIT_FAILURE s' /\
    CK_SCREEN_BUFFER_END s' = CK_SCREEN_BUFFER_END s + strlen buffer + 2 /\
    stderr s' = stderr s ++ ["Error reallocating memory for CK_SCREEN_BUFFER: "%string] /\
    stdout s' = stdout s /\
    tty s' = tty s.
Proof.
  intros Hact Hin [Hfuel0 Hfuel].
  destruct Hact as [(scr & Hscr & Hlen & Hterm & Hslack) (sq & Hsq & Hsqlen)
                      Hapart Hend Hsize Htty Hraw].
  unfold in_bounds in Hin. unfold demand in Hfuel.
  pose proof (strlen_nonneg buffer) as Hn.
  unfold ck_print. cbv zeta.
  rewrite (size_t_small (strlen buffer + 1)) by (unfold CK_ALLOC_SIZE in *; lia).
  destruct (ck_print_grow_spec fuel (strlen buffer + 1) s)
    as [[Hout Hno]|(k & Hret & Hk1 & Hk2)];
    try (unfold CK_ALLOC_SIZE in *; lia).
  unfold bind at 1. rewrite Hret.
  destruct (CK_SCREEN_BUFFER s) as [b|] eqn:Hb; [|discriminate].
  destruct (CK_SEQUENCE_BUFFER s) as [q|] eqn:Hq; [|discriminate].
  assert (Hbq : b <> q) by congruence.
  unfold bind, modify, gets, realloc, ret, perror, exit.
  unfold NULL. cbv beta iota.
  unfold modify.
  cbn [CK_SCREEN_BUFFER CK_SEQUENCE_BUFFER set_END set_SIZE set_ALLOC set_stderr].
  rewrite Hb.
  erewrite free_at by (cbn; exact Hscr).
  cbn [CK_SCREEN_BUFFER CK_SEQUENCE_BUFFER set_END set_SIZE set_ALLOC set_stderr set_heap].
  rewrite Hq.
  erewrite free_at; cycle 1.
  { cbn. cbn in Hsq. rewrite list_lookup_insert_ne by exact Hbq. exact Hsq. }
  eexists. split; [reflexivity|]. cbn.
  rewrite (size_t_small (strlen buffer + 1 + 1)) by (unfold CK_ALLOC_SIZE in *; lia).
  rewrite size_t_small by (unfold CK_ALLOC_SIZE in *; lia).
  repeat split. lia.
Qed.

(** X6: when [realloc] fails in an append (within bounds, the loop budget
    sufficing), the process exits with [EXIT_FAILURE] after one message to
    [perror]; both buffers have been given back, the two pointers still name
    them, nothing was written to the output, and the counter has already
    been advanced as for a successful append. *)
Theorem failed_append_exits_released s0 s fuel buffer :
  reachable s0 s ->
  in_bounds s buffer ->
  enough fuel s buffer ->
  exists s',
    ck_print fuel ReallocFail buffer s = Exits EXIT_FAILURE s' /\
    released s' (CK_SCREEN_BUFFER s') /\
    released s' (CK_SEQUENCE_BUFFER s') /\
    CK_SCREEN_BUFFER s' = CK_SCREEN_BUFFER s /\
    CK_SEQUENCE_BUFFER s' = CK_SEQUENCE_BUFFER s /\
    CK_SCREEN_BUFFER s' <> NULL /\
    CK_SEQUENCE_BUFFER s' <> NULL /\
    stderr s' = stderr s ++ ["Error reallocating memory for CK_SCREEN_BUFFER: "%string] /\
    stdout s' = stdout s /\
    CK_SCREEN_BUFFER_END s' = CK_SCREEN_BUFFER_END s + strlen buffer + 2.
Proof.
  intros Hreach Hin Hfuel. destruct (reachable_active s0 s Hreach) as [Hact _].
  destruct (ck_print_fails fuel buffer s Hact Hin) as [[_ Hno]|(s' & Hrun & Hr1 & Hr2 & Hp1 & Hp2)];
    [contradiction|].
  destruct (ck_print_fails_state fuel buffer s Hact Hin Hfuel)
    as (x & Hrun' & HE & Herr & Hout & _).
  assert (x = s') by congruence. subst x.
  exists s'. repeat (split; [assumption|]).
  destruct (act_screen s Hact) as (scr & Hscr & _).
  destruct (act_sequence s Hact) as (sq & Hsq & _).
  rewrite Hp1, Hp2. split; [|split; [|auto]].
  - destruct (CK_SCREEN_BUFFER s); [discriminate|discriminate Hscr].
  - destruct (CK_SEQUENCE_BUFFER s); [discriminate|discriminate Hsq].
Qed.

Lemma failed_append_exits_released_witness :
  exists s',
    ck_print 1 ReallocFail (str "hello") started = Exits EXIT_FAILURE s' /\
    released s' (CK_SCREEN_BUFFER s') /\
    released s' (CK_SEQUENCE_BUFFER s') /\
    CK_SCREEN_BUFFER s' = CK_SCREEN_BUFFER started /\
    CK_SEQUENCE_BUFFER s' = CK_SEQUENCE_BUFFER started /\
    CK_SCREEN_BUFFER s' <> NULL /\
    CK_SEQUENCE_BUFFER s' <> NULL /\
    stderr s' =
      stderr started ++ ["Error reallocating memory for CK_SCREEN_BUFFER: "%string] /\
    stdout s' = stdout started /\
    CK_SCREEN_BUFFER_END s' = CK_SCREEN_BUFFER_END started + strlen (str "hello") + 2.
Proof.
  apply (failed_append_exits_released (process_start cooked []) started).
  - apply (reachable_init _ AllocOk AllocOk). vm_compute. reflexivity.
  - unfold in_bounds. vm_compute. discriminate.
  - unfold enough. split; [lia|]. vm_compute. discriminate.
Defined.

Lemma ck_init_sequence_fails_state s0 :
  exists s',
    Unix.ck_init AllocOk AllocFail s0 = Exits EXIT_FAILURE s' /\
    stderr s' = stderr s0 ++ ["Error allocating memory for CK_SEQUENCE_BUFFER: "%string] /\
    tty s' = tty s0 /\ stdout s' = stdout s0 /\
    live_blocks (heap s') = S (live_blocks (heap s0)).
Proof.
  unfold Unix.ck_init.
  unfold bind, tcgetattr, gets, modify, calloc, perror, exit, ret.
  rewrite !Z.mul_1_r.
  set (a := Z.to_nat CK_ALLOC_SIZE).
  cbn -[a].
  erewrite memset_at; cycle 1.
  { cbn -[a]. rewrite lookup_fresh. reflexivity. }
  { rewrite length_replicate. reflexivity. }
  fold a. rewrite memset_whole by apply length_replicate.
  unfold modify. cbn -[a].
  eexists. split; [reflexivity|]. cbn -[a]. repeat (split; [reflexivity|]).
  erewrite live_blocks_overwrite by apply lookup_fresh.
  rewrite live_blocks_app. cbn. lia.
Qed.

(** X7: [ck_init] returns exactly when both allocations succeed.  When the
    first fails the process exits with [EXIT_FAILURE], one message naming
    the screen buffer and nothing allocated; when the second fails it exits
    with [EXIT_FAILURE], one message naming the sequence buffer and one
    block still allocated.  In neither case was the terminal touched or
    anything written to the output. *)
Theorem ck_init_outcomes s0 r1 r2 :
  match r1, r2 with
  | AllocOk, AllocOk =>
      exists s, Unix.ck_init r1 r2 s0 = Returns tt s /\ initialised s0 s
  | AllocFail, _ =>
      exists s',
        Unix.ck_init r1 r2 s0 = Exits EXIT_FAILURE s' /\
        stderr s' = stderr s0 ++ ["Error allocating memory for CK_SCREEN_BUFFER: "%string] /\
        tty s' = tty s0 /\ stdout s' = stdout s0 /\
        heap s' = heap s0
  | AllocOk, AllocFail =>
      exists s',
        Unix.ck_init r1 r2 s0 = Exits EXIT_FAILURE s' /\
        stderr s' = stderr s0 ++ ["Error allocating memory for CK_SEQUENCE_BUFFER: "%string] /\
        tty s' = tty s0 /\ stdout s' = stdout s0 /\
        live_blocks (heap s') = S (live_blocks (heap s0))
  end.
Proof.
  destruct r1; [|destruct r2].
  - eexists. split; [reflexivity|]. repeat split.
  - apply ck_init_sequence_fails_state.
  - apply ck_init_spec.
Qed.

(** ** The terminal settings *)

Lemma raw_of_bits t i :
  0 <= i ->
  Z.testbit (c_lflag (raw_of t)) i =
  Z.testbit (c_lflag t) i && negb (Z.testbit (Z.lor ECHO ICANON) i).
Proof.
  intros Hi. cbn [raw_of c_lflag].
  rewrite !Z.land_spec, !Z.lnot_spec, Z.lor_spec by exact Hi.
  now rewrite Bool.negb_orb.
Qed.

(** X8: [ck_init] reads the terminal and does not change it.  The
    settings it saves as original are the terminal's; the settings it
    prepares for [getch] and [kbhit] are those with the [ECHO] and [ICANON]
    bits of [c_lflag] cleared and every other bit and field as it was. *)
Theorem ck_init_settings s0 :
  exists s,
    Unix.ck_init AllocOk AllocOk s0 = Returns tt s /\
    tty s = tty s0 /\
    tty_log s = tty_log s0 /\
    CK_CONSOLE_ORIG_SETTS s = tty s0 /\
    c_iflag (CK_CONSOLE_SETTS s) = c_iflag (tty s0) /\
    c_oflag (CK_CONSOLE_SETTS s) = c_oflag (tty s0) /\
    c_cflag (CK_CONSOLE_SETTS s) = c_cflag (tty s0) /\
    c_cc (CK_CONSOLE_SETTS s) = c_cc (tty s0) /\
    (forall i,
       0 <= i ->
       Z.testbit (c_lflag (CK_CONSOLE_SETTS s)) i =
       Z.testbit (c_lflag (tty s0)) i && negb (Z.testbit (Z.lor ECHO ICANON) i)).
Proof.
  destruct (ck_init_spec s0) as (s & Hrun & Hinit).
  exists s. split; [exact Hrun|].
  split; [apply (init_tty _ _ Hinit)|]. split; [apply (init_tty_log _ _ Hinit)|].
  split; [apply (init_ORIG _ _ Hinit)|].
  rewrite (act_raw s (init_active _ _ Hinit)), (init_ORIG _ _ Hinit).
  repeat (split; [reflexivity|]).
  intros i Hi. now apply raw_of_bits.
Qed.

(** ** The generators, for every argument *)

(** The longest sequence is a goto with two twenty-digit numbers. *)
Lemma length_sequence_of g : (length (sequence_of g) <= 44)%nat.
Proof.
  destruct g as [w r g b|x y|w n]; cbn [sequence_of];
    unfold rgb_format, goto_format, move_format, fmt_c;
    rewrite !length_app; cbn [length str list_ascii_of_string].
  - pose proof (length_fmt_d_uchar w). pose proof (length_fmt_d_uchar r).
    pose proof (length_fmt_d_uchar g). pose proof (length_fmt_d_uchar b). lia.
  - pose proof (length_fmt_zu x). pose proof (length_fmt_zu y). lia.
  - pose proof (length_fmt_zu n). lia.
Qed.

Lemma formatted_screen_text s g p s' :
  formatted s g p s' -> screen_text s' = screen_text s.
Proof.
  intros H. unfold screen_text, text_at.
  now rewrite (fmt_screen _ _ _ _ H).
Qed.

(** X9: in any state reached after [ck_init], a generator call with any
    arguments returns the sequence buffer, still a block of 61 cells.  What
    it formatted is at most 44 characters, so with its terminator it lies
    within the block.  The call writes to that block only: the queued text,
    the counter, the capacity, the output, the terminal and the number of
    allocated blocks are as before. *)
Theorem generators_fit s0 s g :
  reachable s0 s ->
  exists p s' cells,
    generate g s = Returns p s' /\
    p = CK_SEQUENCE_BUFFER s /\
    cells_at s' p = Some cells /\
    Z.of_nat (length cells) = CK_SEQUENCE_BUFFER_LEN /\
    text_at s' p = Some (cstr (sequence_of g)) /\
    (length (sequence_of g) <= 44)%nat /\
    screen_text s' = screen_text s /\
    CK_SCREEN_BUFFER_END s' = CK_SCREEN_BUFFER_END s /\
    CK_SCREEN_BUFFER_SIZE s' = CK_SCREEN_BUFFER_SIZE s /\
    stdout s' = stdout s /\
    tty s' = tty s /\
    live_blocks (heap s') = live_blocks (heap s).
Proof.
  intros Hreach. destruct (reachable_active s0 s Hreach) as [Hact _].
  destruct (generate_spec g s Hact) as (p & s' & Hrun & H).
  destruct (act_sequence s' (fmt_active _ _ _ _ H)) as (cells & Hcells & Hlen).
  rewrite (fmt_SEQUENCE _ _ _ _ H), <- (fmt_ptr _ _ _ _ H) in Hcells.
  exists p, s', cells.
  split; [exact Hrun|]. split; [apply (fmt_ptr _ _ _ _ H)|].
  split; [exact Hcells|]. split; [exact Hlen|].
  split; [apply (fmt_text _ _ _ _ H)|]. split; [apply length_sequence_of|].
  split; [apply (formatted_screen_text _ _ _ _ H)|].
  split; [apply (fmt_END _ _ _ _ H)|]. split; [apply (fmt_SIZE _ _ _ _ H)|].
  split; [apply (same_stdout _ _ (fmt_console _ _ _ _ H))|].
  split; [apply (same_tty _ _ (fmt_console _ _ _ _ H))|].
  pose proof (reachable_blocks s0 s Hreach) as Hb.
  destruct (generate_keeps_blocks _ g s p s' Hb Hrun) as [Hb' _].
  destruct Hb as [Hb _]. congruence.
Qed.

Lemma generators_fit_witness :
  exists p s' cells,
    generate (GenGoto SIZE_MAX SIZE_MAX) started = Returns p s' /\
    p = CK_SEQUENCE_BUFFER started /\
    cells_at s' p = Some cells /\
    Z.of_nat (length cells) = CK_SEQUENCE_BUFFER_LEN /\
    text_at s' p = Some (cstr (sequence_of (GenGoto SIZE_MAX SIZE_MAX))) /\
    (length (sequence_of (GenGoto SIZE_MAX SIZE_MAX)) <= 44)%nat /\
    screen_text s' = screen_text started /\
    CK_SCREEN_BUFFER_END s' = CK_SCREEN_BUFFER_END started /\
    CK_SCREEN_BUFFER_SIZE s' = CK_SCREEN_BUFFER_SIZE started /\
    stdout s' = stdout started /\
    tty s' = tty started /\
    live_blocks (heap s') = live_blocks (heap started).
Proof.
  apply (generators_fit (process_start cooked []) started (GenGoto SIZE_MAX SIZE_MAX)).
  apply (reachable_init _ AllocOk AllocOk). vm_compute. reflexivity.
Defined.

(** The longest sequence there is has 44 characters. *)
Example longest_sequence :
  length (sequence_of (GenGoto SIZE_MAX SIZE_MAX)) = 44%nat.
Proof. vm_compute. reflexivity. Qed.

(** ** Queueing generated sequences *)

Lemma length_cstr cells : (length (cstr cells) <= length cells)%nat.
Proof.
  induction cells as [|c cells IH]; cbn [cstr]; [lia|].
  destruct (Ascii.eqb c NUL); cbn [length]; lia.
Qed.

(** A generator call followed by [ck_print] of what it returned. *)
Lemma ck_print_generated s g fuel moved junk :
  active s -> (2 <= fuel)%nat ->
  CK_SCREEN_BUFFER_END s + CK_SEQUENCE_BUFFER_LEN + CK_ALLOC_SIZE <= SIZE_MAX ->
  exists p s1 b s2 text,
    generate g s = Returns p s1 /\
    cells_at s1 p = Some b /\
    ck_print fuel (ReallocOk moved junk) b s1 = Returns tt s2 /\
    active s2 /\
    screen_text s = Some text /\
    screen_text s2 = Some (text ++ cstr (sequence_of g)) /\
    CK_SCREEN_BUFFER_END s <= CK_SCREEN_BUFFER_END s2 <= CK_SCREEN_BUFFER_END s + 46 /\
    stdout s2 = stdout s /\
    p = CK_SEQUENCE_BUFFER s2 /\
    text_at s2 p = Some (cstr (sequence_of g)).
Proof.
  intros Hact Hfuel Hroom.
  destruct (generate_spec g s Hact) as (p & s1 & Hgen & H1).
  pose proof (fmt_active _ _ _ _ H1) as Hact1.
  destruct (act_sequence s1 Hact1) as (b & Hb & Hblen).
  rewrite (fmt_SEQUENCE _ _ _ _ H1), <- (fmt_ptr _ _ _ _ H1) in Hb.
  pose proof (fmt_text _ _ _ _ H1) as Htext. unfold text_at in Htext.
  rewrite Hb in Htext. destruct (terminated b) eqn:Hterm; [|discriminate].
  injection Htext as Hcstr.
  assert (Hlen : 0 <= strlen b <= 44).
  { unfold strlen. rewrite Hcstr.
    pose proof (length_cstr (sequence_of g)). pose proof (length_sequence_of g). lia. }
  pose proof (act_END s1 Hact1) as Hend1.
  pose proof (fmt_END _ _ _ _ H1) as HE.
  assert (Hin : in_bounds s1 b).
  { unfold in_bounds, CK_SEQUENCE_BUFFER_LEN, CK_ALLOC_SIZE in *. lia. }
  assert (Hen : enough fuel s1 b).
  { unfold enough, demand, CK_ALLOC_SIZE. split; lia. }
  destruct (ck_print_spec fuel moved junk b s1 Hact1 Hin) as [[_ Hno]|(s2 & Hrun & H2)];
    [contradiction|].
  destruct (app_text _ _ _ H2) as (text & Ht1 & Ht2).
  exists p, s1, b, s2, text.
  split; [exact Hgen|]. split; [exact Hb|]. split; [exact Hrun|].
  split; [apply (app_active _ _ _ H2)|].
  split; [now rewrite <- (formatted_screen_text _ _ _ _ H1)|].
  split; [now rewrite Ht2, Hcstr|].
  split; [rewrite (app_END _ _ _ H2); lia|].
  split; [now rewrite (same_stdout _ _ (app_console _ _ _ H2)),
            (same_stdout _ _ (fmt_console _ _ _ _ H1))|].
  assert (Hp : p = CK_SEQUENCE_BUFFER s2).
  { rewrite (app_SEQUENCE _ _ _ H2), (fmt_SEQUENCE _ _ _ _ H1).
    apply (fmt_ptr _ _ _ _ H1). }
  split; [exact Hp|].
  unfold text_at. rewrite Hp, (app_sequence _ _ _ H2).
  rewrite (fmt_SEQUENCE _ _ _ _ H1), <- (fmt_ptr _ _ _ _ H1), Hb, Hterm.
  now rewrite Hcstr.
Qed.

(** X10: the way the generators are meant to be used.  In any state reached
    after [ck_init], with room in [size_t] for two more sequences, the
    program [ck_print(g1); ck_print(g2); ck_flip()], where [g1] and [g2] are
    any two generator calls and [realloc] succeeds, returns and writes the
    cursor-home sequence, the text queued before, the first sequence and the
    second sequence, in this order: [ck_print] had copied the first sequence
    before the second call overwrote the sequence buffer.  That buffer still
    reads as the second sequence afterwards. *)
Theorem generated_sequences_reach_the_output s0 s g1 g2 fuel m1 j1 m2 j2 :
  reachable s0 s ->
  (2 <= fuel)%nat ->
  CK_SCREEN_BUFFER_END s + 2 * CK_SEQUENCE_BUFFER_LEN + CK_ALLOC_SIZE <= SIZE_MAX ->
  exists p1 s1 b1 s2 p2 s3 b2 s4 s5 text,
    generate g1 s = Returns p1 s1 /\
    cells_at s1 p1 = Some b1 /\
    ck_print fuel (ReallocOk m1 j1) b1 s1 = Returns tt s2 /\
    generate g2 s2 = Returns p2 s3 /\
    cells_at s3 p2 = Some b2 /\
    ck_print fuel (ReallocOk m2 j2) b2 s3 = Returns tt s4 /\
    ck_flip s4 = Returns tt s5 /\
    screen_text s = Some text /\
    stdout s5 =
      stdout s ++ [ESC] ++ str "[H" ++ text ++
        cstr (sequence_of g1) ++ cstr (sequence_of g2) /\
    p2 = p1 /\
    text_at s5 p2 = Some (cstr (sequence_of g2)).
Proof.
  intros Hreach Hfuel Hroom.
  destruct (reachable_active s0 s Hreach) as [Hact _].
  unfold CK_SEQUENCE_BUFFER_LEN, CK_ALLOC_SIZE in Hroom.
  destruct (ck_print_generated s g1 fuel m1 j1 Hact Hfuel)
    as (p1 & s1 & b1 & s2 & text & Hg1 & Hb1 & Hp1 & Hact2 & Ht & Ht2 & HE2 & Ho2 & Hq1 & _).
  { unfold CK_SEQUENCE_BUFFER_LEN, CK_ALLOC_SIZE. lia. }
  destruct (ck_print_generated s2 g2 fuel m2 j2 Hact2 Hfuel)
    as (p2 & s3 & b2 & s4 & text2 & Hg2 & Hb2 & Hp2 & Hact4 & Ht' & Ht4 & HE4 & Ho4 & Hq2 & Hseq).
  { unfold CK_SEQUENCE_BUFFER_LEN, CK_ALLOC_SIZE. lia. }
  rewrite Ht2 in Ht'. injection Ht' as <-.
  destruct (ck_flip_spec s4 Hact4) as (s5 & Hfl & H5).
  destruct (fl_stdout _ _ H5) as (text4 & Ht4' & Hout).
  rewrite Ht4 in Ht4'. injection Ht4' as <-.
  exists p1, s1, b1, s2, p2, s3, b2, s4, s5, text.
  repeat (split; [assumption|]).
  split; [rewrite Hout, Ho4, Ho2; now rewrite <- !app_assoc|].
  assert (Hp : p2 = p1).
  { destruct (generate_spec g2 s2 Hact2) as (p2' & s3' & Hg2' & H3).
    rewrite Hg2 in Hg2'. injection Hg2' as <- <-.
    rewrite (fmt_ptr _ _ _ _ H3). now symmetry. }
  split; [exact Hp|].
  unfold text_at in *. rewrite Hq2 in *.
  rewrite <- (fl_SEQUENCE _ _ H5), (fl_sequence _ _ H5). exact Hseq.
Qed.

Lemma generated_sequences_reach_the_output_witness :
  exists p1 s1 b1 s2 p2 s3 b2 s4 s5 text,
    generate (GenGoto 10 5) grown = Returns p1 s1 /\
    cells_at s1 p1 = Some b1 /\
    ck_print 2 (ReallocOk true (fun _ => "x"%char)) b1 s1 = Returns tt s2 /\
    generate (GenRgb 38 255 0 0) s2 = Returns p2 s3 /\
    cells_at s3 p2 = Some b2 /\
    ck_print 2 (ReallocOk false (fun _ => "y"%char)) b2 s3 = Returns tt s4 /\
    ck_flip s4 = Returns tt s5 /\
    screen_text grown = Some text /\
    stdout s5 =
      stdout grown ++ [ESC] ++ str "[H" ++ text ++
        cstr (sequence_of (GenGoto 10 5)) ++ cstr (sequence_of (GenRgb 38 255 0 0)) /\
    p2 = p1 /\
    text_at s5 p2 = Some (cstr (sequence_of (GenRgb 38 255 0 0))).
Proof.
  apply (generated_sequences_reach_the_output (process_start cooked []) grown).
  - apply (reachable_step _ started).
    + apply (reachable_init _ AllocOk AllocOk). vm_compute. reflexivity.
    + apply (step_print 3 (ReallocOk true (fun _ => "x"%char)) (replicate 250 "a"%char)).
      * vm_compute. discriminate.
      * vm_compute. reflexivity.
  - lia.
  - vm_compute. discriminate.
Defined.

(** ** Polling before reading *)



(** ** The raw-mode bracket *)



(** ** The shape of the capacity *)

Lemma step_SIZE_increments s s' :
  active s -> step s s' ->
  exists k : nat,
    CK_SCREEN_BUFFER_SIZE s' = CK_SCREEN_BUFFER_SIZE s + Z.of_nat k * CK_ALLOC_SIZE.
Proof.
  intros Hact Hstep.
  destruct Hstep as [fuel r buffer s s' Hin Hrun|s s' Hrun|g p s s' Hrun
                    |incoming c s s' Hrun|hit s s' Hrun|dims size s s' Hrun|keys s].
  - destruct r as [|moved junk].
    + destruct (ck_print_fails fuel buffer s Hact Hin) as [[E _]|(x & E & _)];
        congruence.
    + destruct (ck_print_spec fuel moved junk buffer s Hact Hin) as [[E _]|(x & E & Hx)];
        [congruence|].
      assert (x = s') by congruence. subst x.
      destruct (app_SIZE _ _ _ Hx) as (k & Hk & _). now exists k.
  - destruct (ck_flip_spec s Hact) as (x & E & Hx).
    assert (x = s') by congruence. subst x.
    exists 0%nat. rewrite (fl_SIZE _ _ Hx). lia.
  - destruct (generate_spec g s Hact) as (p' & x & E & Hx).
    assert (x = s') by congruence. subst x.
    exists 0%nat. rewrite (fmt_SIZE _ _ _ _ Hx). lia.
  - destruct (getch_returns incoming c s s' (act_tty s Hact) Hrun) as (v & Hx & _).
    exists 0%nat. rewrite (same_SIZE _ _ (br_buffers _ _ _ Hx)). lia.
  - destruct (kbhit_spec s (act_tty s Hact)) as (rev & x & E & Hx & _).
    assert (x = s') by congruence. subst x.
    exists 0%nat. rewrite (same_SIZE _ _ (br_buffers _ _ _ Hx)). lia.
  - rewrite unix_size_spec in Hrun. injection Hrun as _ <-. exists 0%nat. cbn. lia.
  - exists 0%nat. cbn. lia.
Qed.

(** X12: in any state reached after [ck_init], the capacity is a whole,
    positive number of increments of [CK_ALLOC_SIZE] and at most
    [SIZE_MAX]; the block behind [CK_SCREEN_BUFFER] has exactly that many
    cells and a terminator among them, the counter is within the capacity,
    and the block behind [CK_SEQUENCE_BUFFER] is another block, of 61
    cells. *)
Theorem capacity_is_whole_increments s0 s :
  reachable s0 s ->
  exists (k : nat) screen sequence,
    (0 < k)%nat /\
    CK_SCREEN_BUFFER_SIZE s = Z.of_nat k * CK_ALLOC_SIZE /\
    CK_SCREEN_BUFFER_SIZE s <= SIZE_MAX /\
    0 <= CK_SCREEN_BUFFER_END s <= CK_SCREEN_BUFFER_SIZE s /\
    cells_at s (CK_SCREEN_BUFFER s) = Some screen /\
    Z.of_nat (length screen) = CK_SCREEN_BUFFER_SIZE s /\
    terminated screen = true /\
    cells_at s (CK_SEQUENCE_BUFFER s) = Some sequence /\
    Z.of_nat (length sequence) = CK_SEQUENCE_BUFFER_LEN /\
    CK_SCREEN_BUFFER s <> CK_SEQUENCE_BUFFER s.
Proof.
  intros Hreach.
  assert (Hk : exists k : nat,
             (0 < k)%nat /\ CK_SCREEN_BUFFER_SIZE s = Z.of_nat k * CK_ALLOC_SIZE).
  { induction Hreach as [r1 r2 s Hinit|s s' Hreach (k & Hpos & Hk) Hstep].
    - apply ck_init_returns in Hinit. exists 1%nat.
      split; [lia|]. rewrite (init_SIZE _ _ Hinit). lia.
    - destruct (reachable_active s0 s Hreach) as [Hact _].
      destruct (step_SIZE_increments s s' Hact Hstep) as (j & Hj).
      exists (k + j)%nat. split; [lia|]. rewrite Hj, Hk. lia. }
  destruct Hk as (k & Hpos & Hk).
  destruct (reachable_active s0 s Hreach) as [Hact _].
  destruct (act_screen s Hact) as (screen & Hscr & Hlen & Hterm & _).
  destruct (act_sequence s Hact) as (sequence & Hsq & Hsqlen).
  exists k, screen, sequence.
  split; [exact Hpos|]. split; [exact Hk|].
  split; [apply (act_SIZE s Hact)|]. split; [apply (act_END s Hact)|].
  split; [exact Hscr|]. split; [exact Hlen|]. split; [exact Hterm|].
  split; [exact Hsq|]. split; [exact Hsqlen|]. apply (act_apart s Hact).
Qed.

Lemma capacity_is_whole_increments_witness :
  exists (k : nat) screen sequence,
    (0 < k)%nat /\
    CK_SCREEN_BUFFER_SIZE grown = Z.of_nat k * CK_ALLOC_SIZE /\
    CK_SCREEN_BUFFER_SIZE grown <= SIZE_MAX /\
    0 <= CK_SCREEN_BUFFER_END grown <= CK_SCREEN_BUFFER_SIZE grown /\
    cells_at grown (CK_SCREEN_BUFFER grown) = Some screen /\
    Z.of_nat (length screen) = CK_SCREEN_BUFFER_SIZE grown /\
    terminated screen = true /\
    cells_at grown (CK_SEQUENCE_BUFFER grown) = Some sequence /\
    Z.of_nat (length sequence) = CK_SEQUENCE_BUFFER_LEN /\
    CK_SCREEN_BUFFER grown <> CK_SEQUENCE_BUFFER grown.
Proof.
  apply (capacity_is_whole_increments (process_start cooked []) grown).
  apply (reachable_step _ started).
  - apply (reachable_init _ AllocOk AllocOk). vm_compute. reflexivity.
  - apply (step_print 3 (ReallocOk true (fun _ => "x"%char)) (replicate 250 "a"%char)).
    + vm_compute. discriminate.
    + vm_compute. reflexivity.
Defined.

(** ** Reading the arguments back from a sequence *)

Lemma code_digit d : 0 <= d < 10 -> code (digit d) = 48 + d.
Proof.
  intros H. pose proof (number_of_digit d H). unfold code. lia.
Qed.

Lemma decimal_digits w : forall n acc,
  Forall (fun c => 48 <= code c <= 57) acc ->
  Forall (fun c => 48 <= code c <= 57) (decimal w n acc).
Proof.
  induction w as [|w IH]; intros n acc Hacc; cbn [decimal]; [exact Hacc|].
  assert (Hd : Forall (fun c => 48 <= code c <= 57) (digit (n mod 10) :: acc)).
  { constructor; [|exact Hacc].
    pose proof (Z.mod_pos_bound n 10 ltac:(lia)) as Hm.
    rewrite code_digit by exact Hm. lia. }
  destruct (n / 10 =? 0); [exact Hd|]. now apply IH.
Qed.

Lemma fmt_zu_digits n : Forall (fun c => 48 <= code c <= 57) (fmt_zu n).
Proof. apply decimal_digits. constructor. Qed.

Lemma fmt_d_uchar_digits n : Forall (fun c => 48 <= code c <= 57) (fmt_d_uchar n).
Proof. apply decimal_digits. constructor. Qed.

(** Two runs of digits, each followed by something that is no digit, are
    the same run when the whole strings are the same. *)
Lemma digits_split (l1 l2 : list ascii) c1 c2 r1 r2 :
  Forall (fun c => 48 <= code c <= 57) l1 ->
  Forall (fun c => 48 <= code c <= 57) l2 ->
  ~ 48 <= code c1 <= 57 -> ~ 48 <= code c2 <= 57 ->
  l1 ++ c1 :: r1 = l2 ++ c2 :: r2 ->
  l1 = l2 /\ c1 = c2 /\ r1 = r2.
Proof.
  intros H1. revert l2. induction H1 as [|a l1 Ha _ IH]; intros l2 H2 Hc1 Hc2 E.
  - destruct H2 as [|b l2 Hb _]; cbn in E.
    + injection E as -> ->. auto.
    + injection E as -> _. contradiction.
  - destruct H2 as [|b l2 Hb H2]; cbn in E.
    + injection E as -> _. contradiction.
    + injection E as -> E. destruct (IH l2 H2 Hc1 Hc2 E) as (-> & -> & ->). auto.
Qed.

Lemma fmt_zu_inj m n : fmt_zu m = fmt_zu n -> size_t m = size_t n.
Proof. intros E. now rewrite <- (number_of_fmt_zu m), <- (number_of_fmt_zu n), E. Qed.

Lemma fmt_d_uchar_inj m n : fmt_d_uchar m = fmt_d_uchar n -> uchar m = uchar n.
Proof.
  intros E. now rewrite <- (number_of_fmt_d_uchar m), <- (number_of_fmt_d_uchar n), E.
Qed.

Lemma fmt_zu_size_t m n : size_t m = size_t n -> fmt_zu m = fmt_zu n.
Proof. unfold fmt_zu. now intros ->. Qed.

Lemma fmt_d_uchar_uchar m n : uchar m = uchar n -> fmt_d_uchar m = fmt_d_uchar n.
Proof. unfold fmt_d_uchar. now intros ->. Qed.

(** What the three formats expand to says what the arguments were, as far
    as the parameter types go. *)
Lemma formats_determine_arguments :
  (forall x y x' y',
     goto_format x y = goto_format x' y' <->
     size_t x = size_t x' /\ size_t y = size_t y') /\
  (forall w n w' n',
     move_format w n = move_format w' n' <->
     w = w' /\ size_t n = size_t n') /\
  (forall w r g b w' r' g' b',
     rgb_format w r g b = rgb_format w' r' g' b' <->
     uchar w = uchar w' /\ uchar r = uchar r' /\ uchar g = uchar g' /\ uchar b = uchar b').
Proof.
  assert (Hsemi : ~ 48 <= code ";" <= 57) by (unfold code; cbn; lia).
  split; [|split].
  - intros x y x' y'. unfold goto_format. split.
    + intros E. cbn [str list_ascii_of_string app] in E.
      injection E as E.
      apply digits_split in E; try apply fmt_zu_digits; try exact Hsemi.
      destruct E as (Ey & _ & Ex). apply app_inv_tail in Ex.
      split; now apply fmt_zu_inj.
    + intros [Ex Ey]. now rewrite (fmt_zu_size_t _ _ Ex), (fmt_zu_size_t _ _ Ey).
  - intros w n w' n'. unfold move_format, fmt_c. split.
    + intros E. cbn [str list_ascii_of_string app] in E.
      injection E as E. apply app_inj_tail in E. destruct E as [En Ew].
      split; [exact Ew|now apply fmt_zu_inj].
    + intros [-> En]. now rewrite (fmt_zu_size_t _ _ En).
  - intros w r g b w' r' g' b'. unfold rgb_format. split.
    + intros E. cbn [str list_ascii_of_string app] in E.
      injection E as E.
      apply digits_split in E; try apply fmt_d_uchar_digits; try exact Hsemi.
      destruct E as (Ew & _ & E). injection E as E.
      apply digits_split in E; try apply fmt_d_uchar_digits; try exact Hsemi.
      destruct E as (Er & _ & E).
      apply digits_split in E; try apply fmt_d_uchar_digits; try exact Hsemi.
      destruct E as (Eg & _ & Eb). apply app_inv_tail in Eb.
      repeat split; now apply fmt_d_uchar_inj.
    + intros (Ew & Er & Eg & Eb).
      now rewrite (fmt_d_uchar_uchar _ _ Ew), (fmt_d_uchar_uchar _ _ Er),
        (fmt_d_uchar_uchar _ _ Eg), (fmt_d_uchar_uchar _ _ Eb).
Qed.

(** X13: in any state reached after [ck_init], what is read behind the
    pointer a generator returns says what it was called with, as far as the
    parameter types go.  Two gotos leave the same string exactly when their
    coordinates agree modulo [2^64] (the range of [size_t]); two colours
    exactly when the four arguments agree modulo 256 (the range of
    [unsigned char]); two moves whose direction characters are not NUL
    exactly when the directions are the same and the amounts agree modulo
    [2^64].  So an argument outside the range wraps around, and inside the
    range different calls of one generator leave different strings.  A move
    with NUL as its direction is read without it, and so
    [ck_cursor_move('\0', 12)] reads like [ck_cursor_move('2', 1)]. *)
Theorem sequences_determine_arguments s0 s :
  reachable s0 s ->
  (forall x y x' y',
     exists p s1 p' s1',
       ck_cursor_goto x y s = Returns p s1 /\
       ck_cursor_goto x' y' s = Returns p' s1' /\
       (text_at s1 p = text_at s1' p' <->
        size_t x = size_t x' /\ size_t y = size_t y')) /\
  (forall w r g b w' r' g' b',
     exists p s1 p' s1',
       ck_rgb w r g b s = Returns p s1 /\
       ck_rgb w' r' g' b' s = Returns p' s1' /\
       (text_at s1 p = text_at s1' p' <->
        uchar w = uchar w' /\ uchar r = uchar r' /\
        uchar g = uchar g' /\ uchar b = uchar b')) /\
  (forall w n w' n',
     w <> NUL -> w' <> NUL ->
     exists p s1 p' s1',
       ck_cursor_move w n s = Returns p s1 /\
       ck_cursor_move w' n' s = Returns p' s1' /\
       (text_at s1 p = text_at s1' p' <-> w = w' /\ size_t n = size_t n')) /\
  (exists p s1 p' s1',
     ck_cursor_move NUL 12 s = Returns p s1 /\
     ck_cursor_move "2" 1 s = Returns p' s1' /\
     text_at s1 p = Some ([ESC] ++ str "[12") /\
     text_at s1' p' = Some ([ESC] ++ str "[12")).
Proof.
  intros Hreach. destruct (reachable_active s0 s Hreach) as [Hact _].
  destruct formats_determine_arguments as (Hgoto & Hmove & Hrgb).
  assert (Hgen : forall g,
            exists p s', generate g s = Returns p s' /\
                         text_at s' p = Some (cstr (sequence_of g))).
  { intros g. destruct (generate_spec g s Hact) as (p & s' & Hrun & H).
    exists p, s'. split; [exact Hrun|apply (fmt_text _ _ _ _ H)]. }
  assert (Hpair : forall g g',
            (forall n, g <> GenMove NUL n) -> (forall n, g' <> GenMove NUL n) ->
            exists p s1 p' s1',
              generate g s = Returns p s1 /\ generate g' s = Returns p' s1' /\
              (text_at s1 p = text_at s1' p' <-> sequence_of g = sequence_of g')).
  { intros g g' Hg Hg'.
    destruct (Hgen g) as (p & s1 & Hrun & Ht). destruct (Hgen g') as (p' & s1' & Hrun' & Ht').
    exists p, s1, p', s1'. split; [exact Hrun|]. split; [exact Hrun'|].
    rewrite Ht, Ht', (cstr_sequence_of g Hg), (cstr_sequence_of g' Hg').
    split; [now intros [= E]|now intros ->]. }
  split; [|split; [|split]].
  - intros x y x' y'.
    destruct (Hpair (GenGoto x y) (GenGoto x' y')) as (p & s1 & p' & s1' & H1 & H2 & H);
      try discriminate.
    exists p, s1, p', s1'. split; [exact H1|]. split; [exact H2|].
    rewrite H. apply Hgoto.
  - intros w r g b w' r' g' b'.
    destruct (Hpair (GenRgb w r g b) (GenRgb w' r' g' b'))
      as (p & s1 & p' & s1' & H1 & H2 & H); try discriminate.
    exists p, s1, p', s1'. split; [exact H1|]. split; [exact H2|].
    rewrite H. apply Hrgb.
  - intros w n w' n' Hw Hw'.
    destruct (Hpair (GenMove w n) (GenMove w' n')) as (p & s1 & p' & s1' & H1 & H2 & H).
    { intros m [= E _]. now apply Hw. }
    { intros m [= E _]. now apply Hw'. }
    exists p, s1, p', s1'. split; [exact H1|]. split; [exact H2|].
    rewrite H. apply Hmove.
  - destruct (Hgen (GenMove NUL 12)) as (p & s1 & Hrun & Ht).
    destruct (Hgen (GenMove "2" 1)) as (p' & s1' & Hrun' & Ht').
    exists p, s1, p', s1'. split; [exact Hrun|]. split; [exact Hrun'|].
    split; [exact Ht|exact Ht'].
Qed.

Lemma sequences_determine_arguments_witness :
  exists p s1 p' s1',
    ck_cursor_goto 1 2 started = Returns p s1 /\
    ck_cursor_goto (2 ^ 64 + 1) 2 started = Returns p' s1' /\
    (text_at s1 p = text_at s1' p' <->
     size_t 1 = size_t (2 ^ 64 + 1) /\ size_t 2 = size_t 2).
Proof.
  refine (proj1 (sequences_determine_arguments (process_start cooked []) started _)
            1 2 (2 ^ 64 + 1) 2).
  apply (reachable_init _ AllocOk AllocOk). vm_compute. reflexivity.
Defined.

(** ** Generated and literal sequences, for every argument *)

(** X14: in any state reached after [ck_init], each generator leaves
    behind the pointer it returns exactly what its literal macro expands to
    when given the decimal numerals of the same arguments, reduced to the
    parameter type: [ck_fg_rgb] and [ck_bg_rgb] against [ck_fg_rgb_l] and
    [ck_bg_rgb_l], [ck_cursor_goto] against [ck_cursor_goto_l], and the four
    relative moves against theirs. *)
Theorem generators_agree_with_literals s0 s :
  reachable s0 s ->
  (forall r g b,
     let spell n := string_of_list_ascii (fmt_d_uchar n) in
     (exists p s',
        ck_fg_rgb r g b s = Returns p s' /\
        text_at s' p = Some (ck_fg_rgb_l (spell r) (spell g) (spell b))) /\
     (exists p s',
        ck_bg_rgb r g b s = Returns p s' /\
        text_at s' p = Some (ck_bg_rgb_l (spell r) (spell g) (spell b)))) /\
  (forall x y,
     let spell n := string_of_list_ascii (fmt_zu n) in
     exists p s',
       ck_cursor_goto x y s = Returns p s' /\
       text_at s' p = Some (ck_cursor_goto_l (spell x) (spell y))) /\
  (forall amount,
     let spell n := string_of_list_ascii (fmt_zu n) in
     (exists p s',
        ck_cursor_up amount s = Returns p s' /\
        text_at s' p = Some (ck_cursor_up_l (spell amount))) /\
     (exists p s',
        ck_cursor_down amount s = Returns p s' /\
        text_at s' p = Some (ck_cursor_down_l (spell amount))) /\
     (exists p s',
        ck_cursor_right amount s = Returns p s' /\
        text_at s' p = Some (ck_cursor_right_l (spell amount))) /\
     (exists p s',
        ck_cursor_left amount s = Returns p s' /\
        text_at s' p = Some (ck_cursor_left_l (spell amount)))).
Proof.
  intros Hreach. destruct (reachable_active s0 s Hreach) as [Hact _].
  destruct literal_forms_agree as (Hrgb & Hgoto & Hmove).
  assert (Hgen : forall g, (forall n, g <> GenMove NUL n) ->
            exists p s', generate g s = Returns p s' /\ text_at s' p = Some (sequence_of g)).
  { intros g Hg. destruct (generate_spec g s Hact) as (p & s' & Hrun & H).
    exists p, s'. split; [exact Hrun|].
    rewrite <- (cstr_sequence_of g Hg). apply (fmt_text _ _ _ _ H). }
  split; [|split].
  - intros r g b. cbv beta zeta. pose proof (Hrgb r g b) as H. cbv beta zeta in H.
    destruct H as [Hfg Hbg]. rewrite Hfg, Hbg.
    split; [apply (Hgen (GenRgb 38 r g b))|apply (Hgen (GenRgb 48 r g b))]; discriminate.
  - intros x y. cbv beta zeta. pose proof (Hgoto x y) as H. cbv beta zeta in H. rewrite H.
    apply (Hgen (GenGoto x y)). discriminate.
  - intros amount. cbv beta zeta. pose proof (Hmove amount) as H. cbv beta zeta in H.
    destruct H as (Hu & Hd & Hr & Hl). rewrite Hu, Hd, Hr, Hl.
    repeat split;
      [apply (Hgen (GenMove "A" amount))|apply (Hgen (GenMove "B" amount))
      |apply (Hgen (GenMove "C" amount))|apply (Hgen (GenMove "D" amount))];
      discriminate.
Qed.

Lemma generators_agree_with_literals_witness :
  (forall r g b,
     let spell n := string_of_list_ascii (fmt_d_uchar n) in
     (exists p s',
        ck_fg_rgb r g b started = Returns p s' /\
        text_at s' p = Some (ck_fg_rgb_l (spell r) (spell g) (spell b))) /\
     (exists p s',
        ck_bg_rgb r g b started = Returns p s' /\
        text_at s' p = Some (ck_bg_rgb_l (spell r) (spell g) (spell b)))) /\
  (forall x y,
     let spell n := string_of_list_ascii (fmt_zu n) in
     exists p s',
       ck_cursor_goto x y started = Returns p s' /\
       text_at s' p = Some (ck_cursor_goto_l (spell x) (spell y))).
Proof.
  destruct (generators_agree_with_literals (process_start cooked []) started)
    as (Hrgb & Hgoto & _).
  - apply (reachable_init _ AllocOk AllocOk). vm_compute. reflexivity.
  - split; [exact Hrgb|exact Hgoto].
Defined.

(** ** Windows: the console mode *)

(** The allocations of [Windows.ck_init], once the console calls are done. *)
Lemma win_ck_init_returns r_get r_set w0 :
  exists w1 b q,
    Windows.ck_init r_get r_set AllocOk AllocOk w0 = Windows.WReturns tt w1 /\
    CK_SCREEN_BUFFER (Windows.process w1) = Some b /\
    CK_SEQUENCE_BUFFER (Windows.process w1) = Some q /\
    b <> q /\
    heap (Windows.process w1) !! b = Some (Live (replicate (Z.to_nat CK_ALLOC_SIZE) NUL)) /\
    heap (Windows.process w1) !! q =
      Some (Live (replicate (Z.to_nat CK_SEQUENCE_BUFFER_LEN) NUL)) /\
    CK_SCREEN_BUFFER_END (Windows.process w1) = 0 /\
    CK_SCREEN_BUFFER_SIZE (Windows.process w1) = CK_ALLOC_SIZE /\
    live_blocks (heap (Windows.process w1)) =
      S (S (live_blocks (heap (Windows.process w0)))) /\
    Windows.CK_STD_OUTPUT_HANDLE w1 = Windows.std_output w0 /\
    Windows.std_output w1 = Windows.std_output w0 /\
    Windows.CK_CONSOLE_MODE w1 =
      match r_get with
      | Windows.ConsoleOk => Windows.console_mode w0
      | Windows.ConsoleFail => Windows.CK_CONSOLE_MODE w0
      end /\
    Windows.console_mode w1 =
      match r_set with
      | Windows.ConsoleOk =>
          Z.lor (Windows.CK_CONSOLE_MODE w1) Windows.ENABLE_VIRTUAL_TERMINAL_PROCESSING
      | Windows.ConsoleFail => Windows.console_mode w0
      end.
Proof.
  unfold Windows.ck_init.
  unfold Windows.wbind, Windows.GetStdHandle, Windows.wgets, Windows.wmodify,
    Windows.GetConsoleMode, Windows.SetConsoleMode, Windows.lift, Windows.wret.
  cbn [Windows.CK_STD_OUTPUT_HANDLE Windows.set_HANDLE Windows.std_output].
  rewrite Z.eqb_refl.
  unfold modify, calloc. rewrite !Z.mul_1_r.
  set (a := Z.to_nat CK_ALLOC_SIZE).
  set (l := Z.to_nat CK_SEQUENCE_BUFFER_LEN).
  destruct w0 as [s0 hd md out cm].
  destruct r_get, r_set; cbn -[a l];
    rewrite ?Z.eqb_refl; cbn -[a l];
    (erewrite memset_at;
     [|cbn -[a l]; rewrite lookup_fresh; reflexivity|rewrite length_replicate; reflexivity]);
    fold a; rewrite memset_whole by apply length_replicate;
    cbn -[a l];
    (eexists _, _, _; split; [reflexivity|]);
    cbn -[a l];
    (split; [reflexivity|]); (split; [reflexivity|]);
    rewrite length_insert, length_app; cbn [length];
    (split; [lia|]);
    (split; [rewrite lookup_app_l by (rewrite length_insert, length_app; cbn; lia);
             apply list_lookup_insert_eq; rewrite length_app; cbn; lia|]);
    (split; [replace (length (heap s0) + 1)%nat
               with (length (<[length (heap s0) := Live (replicate a NUL)]>
                               (heap s0 ++ [Live (replicate a NUL)])))
               by (rewrite length_insert, length_app; cbn; lia);
             apply lookup_fresh|]);
    (split; [reflexivity|]); (split; [reflexivity|]);
    (split; [rewrite live_blocks_app;
             erewrite live_blocks_overwrite by apply lookup_fresh;
             rewrite live_blocks_app; cbn; lia|]);
    repeat split.
Qed.

Lemma win_ck_end_returns r_set w b q cb cq :
  CK_SCREEN_BUFFER (Windows.process w) = Some b ->
  CK_SEQUENCE_BUFFER (Windows.process w) = Some q ->
  b <> q ->
  heap (Windows.process w) !! b = Some (Live cb) ->
  heap (Windows.process w) !! q = Some (Live cq) ->
  exists w2,
    Windows.ck_end r_set w = Windows.WReturns tt w2 /\
    Windows.console_mode w2 =
      match r_set with
      | Windows.ConsoleOk =>
          if Windows.CK_STD_OUTPUT_HANDLE w =? Windows.std_output w
          then Windows.CK_CONSOLE_MODE w else Windows.console_mode w
      | Windows.ConsoleFail => Windows.console_mode w
      end /\
    heap (Windows.process w2) = <[q := Dead]> (<[b := Dead]> (heap (Windows.process w))) /\
    released (Windows.process w2) (CK_SCREEN_BUFFER (Windows.process w2)) /\
    released (Windows.process w2) (CK_SEQUENCE_BUFFER (Windows.process w2)) /\
    S (S (live_blocks (heap (Windows.process w2)))) = live_blocks (heap (Windows.process w)).
Proof.
  intros Hb Hq Hbq Hlb Hlq.
  destruct w as [s hd md out cm]. cbn [Windows.process] in *.
  assert (Hlq' : <[b := Dead]> (heap s) !! q = Some (Live cq)).
  { now rewrite list_lookup_insert_ne by exact Hbq. }
  pose proof (lookup_lt_Some _ _ _ Hlb) as Hblt.
  pose proof (lookup_lt_Some _ _ _ Hlq) as Hqlt.
  unfold Windows.ck_end, Windows.wbind, Windows.wgets, Windows.SetConsoleMode,
    Windows.lift, gets, free.
  cbn [Windows.CK_STD_OUTPUT_HANDLE Windows.CK_CONSOLE_MODE Windows.std_output
       Windows.console_mode].
  destruct r_set; [|destruct (hd =? out)];
    cbn [Windows.process Windows.set_process Windows.set_console_mode
         Windows.CK_STD_OUTPUT_HANDLE Windows.CK_CONSOLE_MODE Windows.std_output
         Windows.console_mode];
    rewrite Hb, Hlb;
    cbn [Windows.process Windows.set_process CK_SEQUENCE_BUFFER set_heap heap];
    rewrite Hq, Hlq';
    (eexists; split; [reflexivity|]);
    cbn [Windows.process Windows.set_process Windows.console_mode
         CK_SCREEN_BUFFER CK_SEQUENCE_BUFFER set_heap heap];
    (split; [reflexivity|]); (split; [reflexivity|]);
    rewrite ?Hb, ?Hq; unfold released; cbn [heap set_heap];
    (split; [rewrite list_lookup_insert_ne by congruence;
             apply list_lookup_insert_eq; lia|]);
    (split; [apply list_lookup_insert_eq; rewrite length_insert; lia|]);
    rewrite (live_blocks_release _ q cq Hlq'), (live_blocks_release _ b cb Hlb);
    reflexivity.
Qed.

Lemma testbit_vt i :
  Z.testbit Windows.ENABLE_VIRTUAL_TERMINAL_PROCESSING i = (i =? 2).
Proof.
  change Windows.ENABLE_VIRTUAL_TERMINAL_PROCESSING with (2 ^ 2).
  rewrite Z.pow2_bits_eqb by lia. apply Z.eqb_sym.
Qed.

(** X15: on Windows, with the console calls and both allocations
    succeeding, [ck_init] returns with the mode of the console being what it
    was with bit [0x4] (virtual terminal processing) set and every other bit
    unchanged, and with the old mode saved.  [ck_end] then puts back exactly
    the mode the console had before [ck_init], whatever the console mode and
    the buffers have become in between, as long as the two globals of the
    Windows part are untouched and the two buffers are still allocated; it
    releases both buffers. *)
Theorem console_mode_is_restored w0 :
  exists w1,
    Windows.ck_init Windows.ConsoleOk Windows.ConsoleOk AllocOk AllocOk w0
      = Windows.WReturns tt w1 /\
    Windows.console_mode w1 =
      Z.lor (Windows.console_mode w0) Windows.ENABLE_VIRTUAL_TERMINAL_PROCESSING /\
    Z.testbit (Windows.console_mode w1) 2 = true /\
    (forall i, i <> 2 ->
       Z.testbit (Windows.console_mode w1) i = Z.testbit (Windows.console_mode w0) i) /\
    Windows.CK_CONSOLE_MODE w1 = Windows.console_mode w0 /\
    (exists w2,
       Windows.ck_end Windows.ConsoleOk w1 = Windows.WReturns tt w2 /\
       Windows.console_mode w2 = Windows.console_mode w0 /\
       live_blocks (heap (Windows.process w2)) = live_blocks (heap (Windows.process w0))) /\
    (forall w,
       Windows.CK_STD_OUTPUT_HANDLE w = Windows.CK_STD_OUTPUT_HANDLE w1 ->
       Windows.CK_CONSOLE_MODE w = Windows.CK_CONSOLE_MODE w1 ->
       Windows.std_output w = Windows.std_output w1 ->
       cells_at (Windows.process w) (CK_SCREEN_BUFFER (Windows.process w)) <> None ->
       cells_at (Windows.process w) (CK_SEQUENCE_BUFFER (Windows.process w)) <> None ->
       CK_SCREEN_BUFFER (Windows.process w) <> CK_SEQUENCE_BUFFER (Windows.process w) ->
       exists w2,
         Windows.ck_end Windows.ConsoleOk w = Windows.WReturns tt w2 /\
         Windows.console_mode w2 = Windows.console_mode w0 /\
         released (Windows.process w2) (CK_SCREEN_BUFFER (Windows.process w2)) /\
         released (Windows.process w2) (CK_SEQUENCE_BUFFER (Windows.process w2)) /\
         S (S (live_blocks (heap (Windows.process w2)))) =
           live_blocks (heap (Windows.process w))).
Proof.
  destruct (win_ck_init_returns Windows.ConsoleOk Windows.ConsoleOk w0)
    as (w1 & b & q & Hrun & Hb & Hq & Hbq & Hlb & Hlq & _ & _ & Hlive & Hh & Hout & Hmd & Hcm).
  rewrite Hmd in Hcm.
  assert (Hgen : forall w,
     Windows.CK_STD_OUTPUT_HANDLE w = Windows.CK_STD_OUTPUT_HANDLE w1 ->
     Windows.CK_CONSOLE_MODE w = Windows.CK_CONSOLE_MODE w1 ->
     Windows.std_output w = Windows.std_output w1 ->
     cells_at (Windows.process w) (CK_SCREEN_BUFFER (Windows.process w)) <> None ->
     cells_at (Windows.process w) (CK_SEQUENCE_BUFFER (Windows.process w)) <> None ->
     CK_SCREEN_BUFFER (Windows.process w) <> CK_SEQUENCE_BUFFER (Windows.process w) ->
     exists w2,
       Windows.ck_end Windows.ConsoleOk w = Windows.WReturns tt w2 /\
       Windows.console_mode w2 = Windows.console_mode w0 /\
       released (Windows.process w2) (CK_SCREEN_BUFFER (Windows.process w2)) /\
       released (Windows.process w2) (CK_SEQUENCE_BUFFER (Windows.process w2)) /\
       S (S (live_blocks (heap (Windows.process w2)))) =
         live_blocks (heap (Windows.process w))).
  { intros w Hh' Hmd' Hout' Hscr Hsq Hapart.
    unfold cells_at in Hscr, Hsq.
    destruct (CK_SCREEN_BUFFER (Windows.process w)) as [b'|] eqn:Eb; [|congruence].
    destruct (CK_SEQUENCE_BUFFER (Windows.process w)) as [q'|] eqn:Eq; [|congruence].
    destruct (heap (Windows.process w) !! b') as [[cb|]|] eqn:Elb; try congruence.
    destruct (heap (Windows.process w) !! q') as [[cq|]|] eqn:Elq; try congruence.
    destruct (win_ck_end_returns Windows.ConsoleOk w b' q' cb cq Eb Eq
                ltac:(congruence) Elb Elq) as (w2 & Hend & Hcm2 & _ & Hr1 & Hr2 & Hcount).
    exists w2. split; [exact Hend|].
    split; [|now repeat split].
    rewrite Hcm2, Hh', Hout', Hh, Hout, Z.eqb_refl. congruence. }
  exists w1. split; [exact Hrun|]. split; [exact Hcm|].
  split; [|split; [|split; [exact Hmd|split; [|exact Hgen]]]].
  - rewrite Hcm, Z.lor_spec, testbit_vt. apply Bool.orb_true_r.
  - intros i Hi. rewrite Hcm, Z.lor_spec, testbit_vt.
    destruct (Z.eqb_spec i 2); [contradiction|]. apply Bool.orb_false_r.
  - destruct (Hgen w1 eq_refl eq_refl eq_refl) as (w2 & Hend & Hcm2 & _ & _ & Hcount).
    + unfold cells_at. now rewrite Hb, Hlb.
    + unfold cells_at. now rewrite Hq, Hlq.
    + rewrite Hb, Hq. congruence.
    + exists w2. split; [exact Hend|]. split; [exact Hcm2|]. lia.
Qed.

(** X16: on Windows [ck_init] changes the console mode before it
    allocates.  When an allocation fails it writes the message naming the
    buffer and exits with [EXIT_FAILURE], and the console is left with
    virtual terminal processing switched on: nothing puts the saved mode
    back.  After a failure of the second allocation the screen buffer is
    still allocated. *)
Theorem windows_allocation_failure w0 r1 r2 :
  match r1, r2 with
  | AllocOk, AllocOk =>
      exists w1,
        Windows.ck_init Windows.ConsoleOk Windows.ConsoleOk r1 r2 w0
          = Windows.WReturns tt w1
  | AllocFail, _ =>
      exists w',
        Windows.ck_init Windows.ConsoleOk Windows.ConsoleOk r1 r2 w0
          = Windows.WExits EXIT_FAILURE w' /\
        Windows.console_mode w' =
          Z.lor (Windows.console_mode w0) Windows.ENABLE_VIRTUAL_TERMINAL_PROCESSING /\
        stderr (Windows.process w') =
          stderr (Windows.process w0) ++
            ["Error allocating memory for CK_SCREEN_BUFFER: "%string] /\
        heap (Windows.process w') = heap (Windows.process w0)
  | AllocOk, AllocFail =>
      exists w' b,
        Windows.ck_init Windows.ConsoleOk Windows.ConsoleOk r1 r2 w0
          = Windows.WExits EXIT_FAILURE w' /\
        Windows.console_mode w' =
          Z.lor (Windows.console_mode w0) Windows.ENABLE_VIRTUAL_TERMINAL_PROCESSING /\
        stderr (Windows.process w') =
          stderr (Windows.process w0) ++
            ["Error allocating memory for CK_SEQUENCE_BUFFER: "%string] /\
        CK_SCREEN_BUFFER (Windows.process w') = Some b /\
        heap (Windows.process w') !! b =
          Some (Live (replicate (Z.to_nat CK_ALLOC_SIZE) NUL)) /\
        live_blocks (heap (Windows.process w')) =
          S (live_blocks (heap (Windows.process w0)))
  end.
Proof.
  destruct r1; [|destruct r2].
  - unfold Windows.ck_init.
    unfold Windows.wbind, Windows.GetStdHandle, Windows.wgets, Windows.wmodify,
      Windows.GetConsoleMode, Windows.SetConsoleMode, Windows.lift.
    cbn [Windows.CK_STD_OUTPUT_HANDLE Windows.set_HANDLE Windows.std_output].
    rewrite Z.eqb_refl. destruct w0 as [s0 hd md out cm]. cbn. rewrite Z.eqb_refl. cbn.
    eexists. split; [reflexivity|]. repeat split.
  - unfold Windows.ck_init.
    unfold Windows.wbind, Windows.GetStdHandle, Windows.wgets, Windows.wmodify,
      Windows.GetConsoleMode, Windows.SetConsoleMode, Windows.lift.
    cbn [Windows.CK_STD_OUTPUT_HANDLE Windows.set_HANDLE Windows.std_output].
    rewrite Z.eqb_refl.
    unfold modify, calloc, perror, exit, ret. rewrite !Z.mul_1_r.
    set (a := Z.to_nat CK_ALLOC_SIZE).
    destruct w0 as [s0 hd md out cm]. cbn -[a]. rewrite Z.eqb_refl. cbn -[a].
    erewrite memset_at;
      [|cbn -[a]; rewrite lookup_fresh; reflexivity|rewrite length_replicate; reflexivity].
    fold a. rewrite memset_whole by apply length_replicate.
    unfold modify. cbn -[a].
    eexists _, _. split; [reflexivity|]. cbn -[a].
    split; [reflexivity|]. split; [reflexivity|]. split; [reflexivity|].
    split; [apply list_lookup_insert_eq; rewrite length_app; cbn; lia|].
    erewrite live_blocks_overwrite by apply lookup_fresh.
    rewrite live_blocks_app. cbn. lia.
  - destruct (win_ck_init_returns Windows.ConsoleOk Windows.ConsoleOk w0) as (w1 & _ & _ & H & _).
    now exists w1.
Qed.

(** X17: on Windows [ck_init] and [ck_end] do not look at what the console
    calls answer.  Whatever they answer, [ck_init] with both allocations
    succeeding returns, with an empty screen buffer of [CK_ALLOC_SIZE] zeroed
    cells and a sequence buffer of 61, and [ck_end] right after it returns
    with both released; a [SetConsoleMode] that fails, as for an output that
    is no console, leaves the mode as it is. *)
Theorem console_answers_are_ignored w0 r_get r_set r_end :
  exists w1 b q w2,
    Windows.ck_init r_get r_set AllocOk AllocOk w0 = Windows.WReturns tt w1 /\
    CK_SCREEN_BUFFER (Windows.process w1) = Some b /\
    CK_SEQUENCE_BUFFER (Windows.process w1) = Some q /\
    cells_at (Windows.process w1) (Some b) =
      Some (replicate (Z.to_nat CK_ALLOC_SIZE) NUL) /\
    cells_at (Windows.process w1) (Some q) =
      Some (replicate (Z.to_nat CK_SEQUENCE_BUFFER_LEN) NUL) /\
    CK_SCREEN_BUFFER_END (Windows.process w1) = 0 /\
    CK_SCREEN_BUFFER_SIZE (Windows.process w1) = CK_ALLOC_SIZE /\
    Windows.ck_end r_end w1 = Windows.WReturns tt w2 /\
    released (Windows.process w2) (CK_SCREEN_BUFFER (Windows.process w2)) /\
    released (Windows.process w2) (CK_SEQUENCE_BUFFER (Windows.process w2)) /\
    (r_set = Windows.ConsoleFail -> Windows.console_mode w1 = Windows.console_mode w0) /\
    (r_end = Windows.ConsoleFail -> Windows.console_mode w2 = Windows.console_mode w1).
Proof.
  destruct (win_ck_init_returns r_get r_set w0)
    as (w1 & b & q & Hrun & Hb & Hq & Hbq & Hlb & Hlq & HE & HS & _ & _ & _ & _ & Hcm).
  destruct (win_ck_end_returns r_end w1 b q _ _ Hb Hq Hbq Hlb Hlq)
    as (w2 & Hend & Hcm2 & _ & Hr1 & Hr2 & _).
  exists w1, b, q, w2.
  split; [exact Hrun|]. split; [exact Hb|]. split; [exact Hq|].
  split; [unfold cells_at; now rewrite Hlb|].
  split; [unfold cells_at; now rewrite Hlq|].
  split; [exact HE|]. split; [exact HS|]. split; [exact Hend|].
  split; [exact Hr1|]. split; [exact Hr2|].
  split.
  - intros ->. exact Hcm.
  - intros ->. exact Hcm2.
Qed.

(** ** Calls outside the life of the console *)

(** X18: before [ck_init], in a process that has just started, the two
    buffer pointers are null.  There [ck_flip] and every generator have
    undefined behaviour (they hand a null pointer to [printf] and
    [sprintf]), while [ck_end] returns and changes nothing ([free(NULL)]
    twice). *)
Theorem calls_before_ck_init fixed bufsiz at_end t pending :
  ck_flip (process_on fixed bufsiz at_end t pending) = Undefined /\
  (forall g, generate g (process_on fixed bufsiz at_end t pending) = Undefined) /\
  Unix.ck_end (process_on fixed bufsiz at_end t pending)
    = Returns tt (process_on fixed bufsiz at_end t pending).
Proof.
  split; [reflexivity|]. split; [now intros [w r g b|x y|w n]|reflexivity].
Qed.

(** Where [ck_init] puts its buffers: in two fresh blocks, leaving every
    block there was alone. *)
Lemma ck_init_fresh s0 :
  exists s,
    Unix.ck_init AllocOk AllocOk s0 = Returns tt s /\
    CK_SCREEN_BUFFER s = Some (length (heap s0)) /\
    CK_SEQUENCE_BUFFER s = Some (S (length (heap s0))) /\
    (forall b, (b < length (heap s0))%nat -> heap s !! b = heap s0 !! b).
Proof.
  unfold Unix.ck_init.
  unfold bind, tcgetattr, gets, modify, calloc.
  rewrite !Z.mul_1_r.
  set (a := Z.to_nat CK_ALLOC_SIZE).
  set (l := Z.to_nat CK_SEQUENCE_BUFFER_LEN).
  cbn -[a l].
  erewrite memset_at; cycle 1.
  { cbn -[a l]. rewrite lookup_fresh. reflexivity. }
  { rewrite length_replicate. reflexivity. }
  fold a. rewrite memset_whole by apply length_replicate.
  cbn -[a l].
  eexists. split; [reflexivity|]. cbn -[a l].
  split; [reflexivity|].
  split; [rewrite length_insert, length_app; cbn; f_equal; lia|].
  intros b Hb.
  rewrite lookup_app_l by (rewrite length_insert, length_app; cbn; lia).
  rewrite list_lookup_insert_ne by lia.
  now rewrite lookup_app_l by lia.
Qed.

(** X19: [ck_init] is not meant to be called twice.  In any state reached
    after [ck_init], another [ck_init] with both allocations succeeding
    returns with two fresh buffers, an empty text and the capacity back at
    [CK_ALLOC_SIZE]; the two buffers of the first call are still allocated
    and no pointer to them is left, so that after [ck_end] two blocks more
    than before the first [ck_init] remain allocated. *)
Theorem second_ck_init_leaks s0 s :
  reachable s0 s ->
  exists s1 s2,
    Unix.ck_init AllocOk AllocOk s = Returns tt s1 /\
    screen_text s1 = Some [] /\
    CK_SCREEN_BUFFER_END s1 = 0 /\
    CK_SCREEN_BUFFER_SIZE s1 = CK_ALLOC_SIZE /\
    cells_at s1 (CK_SCREEN_BUFFER s) = cells_at s (CK_SCREEN_BUFFER s) /\
    cells_at s1 (CK_SEQUENCE_BUFFER s) = cells_at s (CK_SEQUENCE_BUFFER s) /\
    CK_SCREEN_BUFFER s1 <> CK_SCREEN_BUFFER s /\
    CK_SCREEN_BUFFER s1 <> CK_SEQUENCE_BUFFER s /\
    CK_SEQUENCE_BUFFER s1 <> CK_SCREEN_BUFFER s /\
    CK_SEQUENCE_BUFFER s1 <> CK_SEQUENCE_BUFFER s /\
    live_blocks (heap s1) = S (S (S (S (live_blocks (heap s0))))) /\
    Unix.ck_end s1 = Returns tt s2 /\
    live_blocks (heap s2) = S (S (live_blocks (heap s0))).
Proof.
  intros Hreach.
  destruct (reachable_active s0 s Hreach) as [Hact _].
  destruct (reachable_blocks s0 s Hreach) as [Hcount _].
  destruct (ck_init_fresh s) as (s1 & Hrun & Hp & Hq & Hold).
  pose proof (ck_init_returns _ _ _ _ Hrun) as Hinit.
  destruct (ck_init_adds_blocks _ AllocOk AllocOk s tt s1 eq_refl Hrun) as [Hcount1 _].
  destruct (ck_end_heap s1 (init_active _ _ Hinit))
    as (s2 & b' & q' & Hend & _ & _ & _ & Hcount2 & _).
  destruct (act_screen s Hact) as (scr & Hscr & _).
  destruct (act_sequence s Hact) as (sq & Hsq & _).
  destruct (CK_SCREEN_BUFFER s) as [b|] eqn:Eb; [|discriminate].
  destruct (CK_SEQUENCE_BUFFER s) as [q|] eqn:Eq; [|discriminate].
  pose proof (cells_at_lt _ _ _ Hscr) as Hblt.
  pose proof (cells_at_lt _ _ _ Hsq) as Hqlt.
  exists s1, s2.
  split; [exact Hrun|]. split; [apply (init_text _ _ Hinit)|].
  split; [apply (init_END _ _ Hinit)|]. split; [apply (init_SIZE _ _ Hinit)|].
  split; [unfold cells_at; now rewrite (Hold b Hblt)|].
  split; [unfold cells_at; now rewrite (Hold q Hqlt)|].
  rewrite Hp, Hq.
  repeat (split; [intros [= E]; lia|]).
  split; [lia|]. split; [exact Hend|]. lia.
Qed.

Lemma second_ck_init_leaks_witness :
  exists s1 s2,
    Unix.ck_init AllocOk AllocOk grown = Returns tt s1 /\
    screen_text s1 = Some [] /\
    CK_SCREEN_BUFFER_END s1 = 0 /\
    CK_SCREEN_BUFFER_SIZE s1 = CK_ALLOC_SIZE /\
    cells_at s1 (CK_SCREEN_BUFFER grown) = cells_at grown (CK_SCREEN_BUFFER grown) /\
    cells_at s1 (CK_SEQUENCE_BUFFER grown) = cells_at grown (CK_SEQUENCE_BUFFER grown) /\
    CK_SCREEN_BUFFER s1 <> CK_SCREEN_BUFFER grown /\
    CK_SCREEN_BUFFER s1 <> CK_SEQUENCE_BUFFER grown /\
    CK_SEQUENCE_BUFFER s1 <> CK_SCREEN_BUFFER grown /\
    CK_SEQUENCE_BUFFER s1 <> CK_SEQUENCE_BUFFER grown /\
    live_blocks (heap s1) = S (S (S (S (live_blocks (heap (process_start cooked [])))))) /\
    Unix.ck_end s1 = Returns tt s2 /\
    live_blocks (heap s2) = S (S (live_blocks (heap (process_start cooked [])))).
Proof.
  apply (second_ck_init_leaks (process_start cooked []) grown).
  apply (reachable_step _ started).
  - apply (reachable_init _ AllocOk AllocOk). vm_compute. reflexivity.
  - apply (step_print 3 (ReallocOk true (fun _ => "x"%char)) (replicate 250 "a"%char)).
    + vm_compute. discriminate.
    + vm_compute. reflexivity.
Defined.

(** ** Reading several characters *)





